(** * Madrid housing portal: the forecasting service

    A shallow embedding of [app/services/forecasting.py], together with the
    parts of [app/database.py] and [app/models/housing.py] it relies on.

    Modelling conventions.
    - Python floats are idealised as exact rationals ([Q]).  Every value the
      service emits goes through [round(_, 2)], modelled by [round2], which
      returns a normalised fraction, so emitted values can be compared with
      Leibniz equality.  Binary floating point differs from the rationals
      by a relative error of about 1e-16, which can decide a tie of
      [round(_, 2)] the other way: the theorems about computed values
      state what holds on either side of such a tie.
    - The numeric libraries (scikit-learn, numpy, statsmodels) are not part
      of the repository: they are taken as an interface, [Libraries].  What
      is kept of their input validation is scikit-learn's rejection of an
      array with no rows ([check_array]).
    - A pandas quarterly [Period] is its ordinal (quarters since 1970Q1), as
      in pandas; [year] and [quarter] are derived from it.
    - Python exceptions are the [Raise] branch of [result].
    - The SQLAlchemy session is explicit state: the rows it has loaded (with
      attribute updates applied) and the objects added but not yet flushed
      (the session factory sets [autoflush=False]). *)

From Stdlib Require Import Ascii String ZArith QArith Qround Lqa Lia Bool List.
From Stdlib Require Import Sorted Qminmax Qabs.
From Stdlib Require DecimalString DecimalZ.
Import ListNotations.

Local Open Scope Z_scope.

(* ------------------------------------------------------------------ *)
(** * Exceptions *)

Inductive exn : Type :=
| IndexError
| ValueError
| IntegrityError
| OverflowError.

Inductive result (A : Type) : Type :=
| Ok (a : A)
| Raise (e : exn).

Arguments Ok {A} a.
Arguments Raise {A} e.

Definition bind {A B : Type} (m : result A) (k : A -> result B) : result B :=
  match m with
  | Ok a => k a
  | Raise e => Raise e
  end.

Notation "x <- m ;; k" := (bind m (fun x => k))
  (at level 61, m at next level, right associativity).

(* ------------------------------------------------------------------ *)
(** * Numbers *)

Module Num.

Local Open Scope Q_scope.

(** Python's [max(a, b)]: the first argument unless the second is strictly
    greater. *)
Definition py_max (a b : Q) : Q :=
  match a ?= b with
  | Lt => b
  | _ => a
  end.

(** Nearest integer, ties to the even one. *)
Definition round_half_even (q : Q) : Z :=
  let f := Qfloor q in
  match Qcompare (q - inject_Z f) (1 # 2) with
  | Lt => f
  | Gt => (f + 1)%Z
  | Eq => if Z.even f then f else (f + 1)%Z
  end.

(** Python's [round(x, 2)]. *)
Definition round2 (x : Q) : Q :=
  Qred (round_half_even (x * 100) # 100).

(** The constants of the service. *)
Definition z95 : Q := 196 # 100.          (* z = 1.96 *)
Definition CONFIDENCE : Q := 95 # 100.
Definition W_SARIMA : Q := 65 # 100.      (* default of w_sarima *)

End Num.

Import Num.

(* ------------------------------------------------------------------ *)
(** * Quarterly periods (pandas [Period], freq="Q") *)

Module Period.

(** A period is its ordinal: the number of quarters since 1970Q1. *)
Definition t : Type := Z.

Definition year (p : t) : Z := 1970 + p / 4.
Definition quarter (p : t) : Z := p mod 4 + 1.

(** [pd.Period(year=y, quarter=q, freq="Q")]; pandas rejects a quarter
    outside 1..4 with a [ValueError].  Stored years are taken to be ones
    pandas can convert (below 2^31). *)
Definition make (y q : Z) : result t :=
  if (1 <=? q) && (q <=? 4) then Ok ((y - 1970) * 4 + (q - 1))
  else Raise ValueError.

(** [p + i]. *)
Definition add (p : t) (i : Z) : t := p + i.

End Period.

(** The calendar successor of a (year, quarter) pair, as the specification
    words it: quarter 4 is followed by quarter 1 of the next year. *)
Definition next_quarter (yq : Z * Z) : Z * Z :=
  let (y, q) := yq in
  if q =? 4 then (y + 1, 1) else (y, q + 1).

(* ------------------------------------------------------------------ *)
(** * Forecast rows *)

(** The dict built by the three models. *)
Record ForecastPoint : Type := mkPoint {
  year : Z;
  quarter : Z;
  predicted_price_m2 : Q;
  lower_bound : Q;
  upper_bound : Q;
  confidence_level : Q
}.

(** A quarterly price series: [pd.Series(values, index=PeriodIndex)]. *)
Definition TimeSeries : Type := list (Period.t * Q).

Definition ts_values (ts : TimeSeries) : list Q := map snd ts.
Definition len (ts : TimeSeries) : Z := Z.of_nat (length ts).

(** [range(a, b)]. *)
Definition range (a b : Z) : list Z :=
  map (fun k => a + Z.of_nat k) (seq 0 (Z.to_nat (b - a))).

(** [xs[i]] for [i >= 0]; [None] stands for the [IndexError]. *)
Definition getitem {A : Type} (xs : list A) (i : Z) : option A :=
  if i <? 0 then None else nth_error xs (Z.to_nat i).

(** [enumerate(xs)]. *)
Definition enumerate {A : Type} (xs : list A) : list (Z * A) :=
  combine (range 0 (Z.of_nat (length xs))) xs.

(** A list comprehension whose body may raise. *)
Fixpoint traverse {A B : Type} (f : A -> result B) (xs : list A)
  : result (list B) :=
  match xs with
  | [] => Ok []
  | x :: xs' =>
      y <- f x ;;
      ys <- traverse f xs' ;;
      Ok (y :: ys)
  end.

(* ------------------------------------------------------------------ *)
(** * The numeric libraries *)

(** scikit-learn validates every array passed to [fit], [transform] and
    [predict] ([check_array] with [ensure_min_samples=1]): an array with
    no rows is rejected with [ValueError: Found array with 0 sample(s)]. *)
Definition check_array {A : Type} (X : list A) : result unit :=
  match X with
  | [] => Raise ValueError
  | _ :: _ => Ok tt
  end.

(** What the service asks of scikit-learn, numpy and statsmodels.
    - [lr_predict y x]: fit [LinearRegression] on the degree-2 polynomial
      features of the indices [0 .. len y - 1] against [y], and predict at
      index [x].
    - [np_std r]: [np.std(r)], a standard deviation, hence not negative.
    - [sarimax y steps]: fit [SARIMAX] with the service's orders on [y] and
      return the predicted means and the confidence bounds for [steps]
      steps, at level [1 - CONFIDENCE]; [None] when anything raises. *)
Record Libraries : Type := mkLibraries {
  lr_predict : list Q -> Z -> Q;
  np_std : list Q -> Q;
  np_std_nonneg : forall r, (0 <= np_std r)%Q;
  sarimax : list Q -> Z -> option (list Q * list (Q * Q))
}.

Section Models.

Variable L : Libraries.

(** [_next_periods]: [ts.index[-1]] raises on an empty series. *)
Definition _next_periods (ts : TimeSeries) (n : Z) : result (list Period.t) :=
  match rev ts with
  | [] => Raise IndexError
  | (last, _) :: _ => Ok (map (fun i => Period.add last i) (range 1 (n + 1)))
  end.

(** [_linear_forecast].  The training indices [X] go through
    [fit_transform] and [fit], the future indices [X_future] through
    [transform] and [predict]; [preds i] is [preds[i]]. *)
Definition _linear_forecast (ts : TimeSeries) (periods : Z)
  : result (list ForecastPoint) :=
  let X := range 0 (len ts) in
  let y := ts_values ts in
  _ <- check_array X ;;
  let n := len ts in
  let X_future := range n (n + periods) in
  _ <- check_array X_future ;;
  let preds := fun i => lr_predict L y (n + i) in
  let residuals :=
    map (fun iy => (snd iy - lr_predict L y (fst iy))%Q) (enumerate y) in
  let sigma := np_std L residuals in
  future_periods <- _next_periods ts periods ;;
  Ok (map (fun ip =>
             let (i, p) := (ip : Z * Period.t) in
             {| year := Period.year p;
                quarter := Period.quarter p;
                predicted_price_m2 := round2 (py_max 0 (preds i));
                lower_bound := round2 (py_max 0 (preds i - z95 * sigma));
                upper_bound := round2 (preds i + z95 * sigma);
                confidence_level := CONFIDENCE |})
          (enumerate future_periods)).

(** The body of the [try] block of [_sarima_forecast]. *)
Definition sarima_try (ts : TimeSeries) (periods : Z)
  : result (list ForecastPoint) :=
  match sarimax L (ts_values ts) periods with
  | None => Raise ValueError
  | Some (means, ci) =>
      future_periods <- _next_periods ts periods ;;
      traverse (fun ip =>
                  let (i, p) := (ip : Z * Period.t) in
                  match getitem means i, getitem ci i with
                  | Some m, Some (lo, hi) =>
                      Ok {| year := Period.year p;
                            quarter := Period.quarter p;
                            predicted_price_m2 := round2 (py_max 0 m);
                            lower_bound := round2 (py_max 0 lo);
                            upper_bound := round2 hi;
                            confidence_level := CONFIDENCE |}
                  | _, _ => Raise IndexError
                  end)
               (enumerate future_periods)
  end.

(** [_sarima_forecast]: any exception falls back to the linear model. *)
Definition _sarima_forecast (ts : TimeSeries) (periods : Z)
  : result (list ForecastPoint) :=
  match sarima_try ts periods with
  | Ok fc => Ok fc
  | Raise _ => _linear_forecast ts periods
  end.

(** [_ensemble_forecast], with [zip] stopping at the shorter list. *)
Definition blend (w_sarima : Q) (lin sar : ForecastPoint) : ForecastPoint :=
  let w_linear := (1 - w_sarima)%Q in
  let pred := (w_linear * predicted_price_m2 lin
               + w_sarima * predicted_price_m2 sar)%Q in
  let lower := (w_linear * lower_bound lin + w_sarima * lower_bound sar)%Q in
  let upper := (w_linear * upper_bound lin + w_sarima * upper_bound sar)%Q in
  {| year := year lin;
     quarter := quarter lin;
     predicted_price_m2 := round2 pred;
     lower_bound := round2 lower;
     upper_bound := round2 upper;
     confidence_level := confidence_level lin |}.

Definition _ensemble_forecast_w (w_sarima : Q) (linear sarima : list ForecastPoint)
  : list ForecastPoint :=
  map (fun ls => blend w_sarima (fst ls) (snd ls)) (combine linear sarima).

Definition _ensemble_forecast (linear sarima : list ForecastPoint)
  : list ForecastPoint :=
  _ensemble_forecast_w W_SARIMA linear sarima.

Definition MIN_POINTS_SARIMA : Z := 12.

(** The "Run models" block of [_forecast_district]: the three forecasts of
    a series that has passed the four-point check. *)
Definition run_models (ts : TimeSeries) (periods : Z)
  : result (list ForecastPoint * list ForecastPoint * list ForecastPoint) :=
  linear_fc <- _linear_forecast ts periods ;;
  sarima_fc <- (if MIN_POINTS_SARIMA <=? len ts
                then _sarima_forecast ts periods
                else Ok linear_fc) ;;
  Ok (linear_fc, sarima_fc, _ensemble_forecast linear_fc sarima_fc).

End Models.

(* ------------------------------------------------------------------ *)
(** * The database ([app/models/housing.py], [app/database.py]) *)

(** Only the columns the forecasting service reads or writes are kept;
    surrogate primary keys of the price tables are never read by it. *)

Module District.
Record t : Type := mk { id : Z; code : string }.
End District.

Module SalePrice.
Record t : Type := mk {
  district_id : Z;
  year : Z;
  quarter : Z;
  price_per_m2 : Q;
  property_type : string
}.
End SalePrice.

Module PriceForecast.
Record t : Type := mk {
  district_id : Z;
  model_name : string;
  forecast_year : Z;
  forecast_quarter : Z;
  predicted_price_m2 : Q;
  lower_bound : Q;
  upper_bound : Q;
  confidence_level : Q;
  generated_at : option Z     (* set by the server default on insert *)
}.

(** The columns of the [uq_forecast] unique constraint. *)
Definition key (f : t) : Z * string * Z * Z :=
  (district_id f, model_name f, forecast_year f, forecast_quarter f).

Definition key_eqb (a b : Z * string * Z * Z) : bool :=
  let '(d1, m1, y1, q1) := a in
  let '(d2, m2, y2, q2) := b in
  (d1 =? d2) && String.eqb m1 m2 && (y1 =? y2) && (q1 =? q2).
End PriceForecast.

Record Database : Type := mkDatabase {
  districts : list District.t;
  sale_prices : list SalePrice.t;
  price_forecasts : list PriceForecast.t
}.

(** A session: the database as seen through it (rows it has loaded carry
    the attribute updates made so far) and the objects passed to [db.add],
    which are not flushed before a query because [autoflush=False]. *)
Record Session : Type := mkSession {
  loaded : Database;
  pending : list PriceForecast.t
}.

Definition begin (db : Database) : Session :=
  {| loaded := db; pending := [] |}.

(** One INSERT into [price_forecasts]: the unique constraint rejects a key
    that is already there; the server default stamps [generated_at]. *)
Definition stamp (now : Z) (f : PriceForecast.t) : PriceForecast.t :=
  match PriceForecast.generated_at f with
  | Some _ => f
  | None =>
      PriceForecast.mk (PriceForecast.district_id f)
        (PriceForecast.model_name f) (PriceForecast.forecast_year f)
        (PriceForecast.forecast_quarter f)
        (PriceForecast.predicted_price_m2 f)
        (PriceForecast.lower_bound f) (PriceForecast.upper_bound f)
        (PriceForecast.confidence_level f) (Some now)
  end.

Definition insert_forecast (now : Z) (table : list PriceForecast.t)
  (f : PriceForecast.t) : result (list PriceForecast.t) :=
  if existsb (fun g => PriceForecast.key_eqb (PriceForecast.key g)
                                              (PriceForecast.key f)) table
  then Raise IntegrityError
  else Ok (table ++ [stamp now f]).

Fixpoint flush (now : Z) (table : list PriceForecast.t)
  (new : list PriceForecast.t) : result (list PriceForecast.t) :=
  match new with
  | [] => Ok table
  | f :: new' =>
      table' <- insert_forecast now table f ;;
      flush now table' new'
  end.

(** [db.commit()]. *)
Definition commit (now : Z) (s : Session) : result Database :=
  table <- flush now (price_forecasts (loaded s)) (pending s) ;;
  Ok {| districts := districts (loaded s);
        sale_prices := sale_prices (loaded s);
        price_forecasts := table |}.

(** [db_session]: commit when the body returns, roll back and re-raise when
    the body or the commit raises.  The second component is the database
    afterwards. *)
Definition db_session {A : Type} (now : Z)
  (body : Session -> result (A * Session)) (db : Database)
  : result A * Database :=
  match body (begin db) with
  | Raise e => (Raise e, db)
  | Ok (a, s) =>
      match commit now s with
      | Raise e => (Raise e, db)
      | Ok db' => (Ok a, db')
      end
  end.

(** [ORDER BY year, quarter]: the order on (year, quarter) pairs and a
    stable insertion sort on a key. *)
Definition period_leb (a b : Z * Z) : bool :=
  (fst a <? fst b) || ((fst a =? fst b) && (snd a <=? snd b)).

Section OrderBy.
Context {A : Type} (key : A -> Z * Z).

Fixpoint insert_by (x : A) (xs : list A) : list A :=
  match xs with
  | [] => [x]
  | y :: ys =>
      if period_leb (key y) (key x) then y :: insert_by x ys
      else x :: y :: ys
  end.

Definition order_by (xs : list A) : list A :=
  fold_left (fun acc x => insert_by x acc) xs [].
End OrderBy.

(** [query.first()]. *)
Definition first {A : Type} (xs : list A) : option A :=
  match xs with
  | [] => None
  | x :: _ => Some x
  end.

(* ------------------------------------------------------------------ *)
(** * The forecasting service *)

(** A forecast dict tagged with its model and district
    ([{**row, "model": ..., "district_code": ...}]). *)
Record ForecastRow : Type := mkRow {
  point : ForecastPoint;
  model : string;
  district_code : string
}.

(** The dict returned by [_forecast_to_dict]. *)
Record StoredForecast : Type := mkStored {
  st_year : Z;
  st_quarter : Z;
  st_predicted_price_m2 : Q;
  st_lower_bound : Q;
  st_upper_bound : Q;
  st_confidence_level : Q;
  st_generated_at : option Z
}.

(** [results[code] = rows] on an insertion-ordered dict. *)
Fixpoint dict_set {V : Type} (k : string) (v : V) (d : list (string * V))
  : list (string * V) :=
  match d with
  | [] => [(k, v)]
  | (k', v') :: d' =>
      if String.eqb k' k then (k', v) :: d' else (k', v') :: dict_set k v d'
  end.

Section Service.

Variable L : Libraries.

(** [_load_time_series]. *)
Definition _load_time_series (db : Session) (district_id : Z)
  : result TimeSeries :=
  let rows :=
    order_by (fun r => (SalePrice.year r, SalePrice.quarter r))
      (filter (fun r => (SalePrice.district_id r =? district_id)
                        && String.eqb (SalePrice.property_type r) "all")
              (sale_prices (loaded db))) in
  match rows with
  | [] => Ok []
  | _ =>
      index <- traverse (fun r => Period.make (SalePrice.year r)
                                              (SalePrice.quarter r)) rows ;;
      Ok (combine index (map SalePrice.price_per_m2 rows))
  end.

(** Does a stored row match the [filter_by] of [_save_forecast]? *)
Definition matches (district_id : Z) (model_name : string)
  (row : ForecastPoint) (f : PriceForecast.t) : bool :=
  PriceForecast.key_eqb (PriceForecast.key f)
    (district_id, model_name, year row, quarter row).

(** The four assignments of the [if existing:] branch. *)
Definition assign (f : PriceForecast.t) (row : ForecastPoint) (now : Z)
  : PriceForecast.t :=
  PriceForecast.mk (PriceForecast.district_id f)
    (PriceForecast.model_name f) (PriceForecast.forecast_year f)
    (PriceForecast.forecast_quarter f)
    (predicted_price_m2 row) (lower_bound row) (upper_bound row)
    (PriceForecast.confidence_level f) (Some now).

(** Apply them to the first matching row, which is the object that
    [first()] returned and that stays in the session. *)
Fixpoint overwrite_first (district_id : Z) (model_name : string)
  (row : ForecastPoint) (now : Z) (table : list PriceForecast.t)
  : list PriceForecast.t :=
  match table with
  | [] => []
  | f :: table' =>
      if matches district_id model_name row f
      then assign f row now :: table'
      else f :: overwrite_first district_id model_name row now table'
  end.

(** [_save_forecast]; [now] is [datetime.utcnow()]. *)
Definition _save_forecast (db : Session) (district_id : Z)
  (model_name : string) (row : ForecastPoint) (now : Z) : Session :=
  let existing :=
    first (filter (matches district_id model_name row)
                  (price_forecasts (loaded db))) in
  match existing with
  | Some _ =>
      {| loaded :=
           {| districts := districts (loaded db);
              sale_prices := sale_prices (loaded db);
              price_forecasts :=
                overwrite_first district_id model_name row now
                  (price_forecasts (loaded db)) |};
         pending := pending db |}
  | None =>
      {| loaded := loaded db;
         pending :=
           pending db ++
           [PriceForecast.mk district_id model_name (year row) (quarter row)
              (predicted_price_m2 row) (lower_bound row) (upper_bound row)
              (confidence_level row) None] |}
  end.

(** The inner loop of the "Persist all three" block, for one model. *)
Fixpoint save_rows (db : Session) (district : District.t)
  (model_name : string) (fc : list ForecastPoint) (now : Z)
  (all_rows : list ForecastRow) : Session * list ForecastRow :=
  match fc with
  | [] => (db, all_rows)
  | row :: fc' =>
      save_rows (_save_forecast db (District.id district) model_name row now)
        district model_name fc' now
        (all_rows ++ [mkRow row model_name (District.code district)])
  end.

(** The outer loop of the "Persist all three" block. *)
Fixpoint save_models (db : Session) (district : District.t)
  (models : list (string * list ForecastPoint)) (now : Z)
  (all_rows : list ForecastRow) : Session * list ForecastRow :=
  match models with
  | [] => (db, all_rows)
  | (model_name, fc) :: models' =>
      let (db', all_rows') :=
        save_rows db district model_name fc now all_rows in
      save_models db' district models' now all_rows'
  end.

(** [_forecast_district]. *)
Definition _forecast_district (db : Session) (district : District.t)
  (periods : Z) (now : Z) : result (list ForecastRow * Session) :=
  ts <- _load_time_series db (District.id district) ;;
  if len ts <? 4 then Ok ([], db)
  else
    fcs <- run_models L ts periods ;;
    let '(linear_fc, sarima_fc, ensemble_fc) := fcs in
    let (db', all_rows) :=
      save_models db district
        [("linear"%string, linear_fc);
         ("sarima"%string, sarima_fc);
         ("ensemble"%string, ensemble_fc)] now [] in
    Ok (filter (fun r => String.eqb (model r) "ensemble") all_rows, db').

(** [forecast_district]. *)
Definition forecast_district (district_code : string) (periods : Z)
  (now : Z) (db : Database) : result (list ForecastRow) * Database :=
  db_session now
    (fun s =>
       match first (filter (fun d => String.eqb (District.code d) district_code)
                           (districts (loaded s))) with
       | None => Ok ([], s)
       | Some district => _forecast_district s district periods now
       end)
    db.

(** The loop of [forecast_all_districts]. *)
Fixpoint forecast_each (db : Session) (ds : list District.t) (periods : Z)
  (now : Z) (results : list (string * list ForecastRow))
  : result (list (string * list ForecastRow) * Session) :=
  match ds with
  | [] => Ok (results, db)
  | district :: ds' =>
      r <- _forecast_district db district periods now ;;
      let (rows, db') := (r : list ForecastRow * Session) in
      forecast_each db' ds' periods now
        (dict_set (District.code district) rows results)
  end.

(** [forecast_all_districts]. *)
Definition forecast_all_districts (periods : Z) (now : Z) (db : Database)
  : result (list (string * list ForecastRow)) * Database :=
  db_session now
    (fun s => forecast_each s (districts (loaded s)) periods now [])
    db.

(** [_forecast_to_dict]; the ISO string of the timestamp is represented by
    the timestamp. *)
Definition _forecast_to_dict (row : PriceForecast.t) : StoredForecast :=
  {| st_year := PriceForecast.forecast_year row;
     st_quarter := PriceForecast.forecast_quarter row;
     st_predicted_price_m2 := PriceForecast.predicted_price_m2 row;
     st_lower_bound := PriceForecast.lower_bound row;
     st_upper_bound := PriceForecast.upper_bound row;
     st_confidence_level := PriceForecast.confidence_level row;
     st_generated_at := PriceForecast.generated_at row |}.

(** Python truthiness of [district_code: str | None]. *)
Definition truthy (district_code : option string) : bool :=
  match district_code with
  | None => false
  | Some c => negb (String.eqb c "")
  end.

(** [get_stored_forecasts]. *)
Definition get_stored_forecasts (district_code : option string)
  (model_name : string) (now : Z) (db : Database)
  : result (list StoredForecast) * Database :=
  db_session now
    (fun s =>
       let query := price_forecasts (loaded s) in
       let query :=
         match district_code with
         | Some c =>
             if truthy district_code then
               match first (filter (fun d => String.eqb (District.code d) c)
                                   (districts (loaded s))) with
               | Some district =>
                   filter (fun f => PriceForecast.district_id f
                                    =? District.id district) query
               | None => query
               end
             else query
         | None => query
         end in
       let query :=
         filter (fun f => String.eqb (PriceForecast.model_name f) model_name)
                query in
       let rows :=
         order_by (fun f => (PriceForecast.forecast_year f,
                             PriceForecast.forecast_quarter f)) query in
       Ok (map _forecast_to_dict rows, s))
    db.

End Service.

(* ------------------------------------------------------------------ *)
(** * A reference instance of the numeric libraries *)

(** Exact rational counterparts of the library calls, used to evaluate the
    service on concrete series: the least-squares parabola through the
    points [(i, y_i)] by Cramer's rule on the normal equations, and the
    population standard deviation with the square root truncated to six
    decimals.  The seasonal estimator is not reproduced: [sarimax] always
    fails here, so the seasonal model takes its fallback. *)
Module Reference.

Local Open Scope Q_scope.

Definition qsum (l : list Q) : Q := fold_right Qplus 0 l.

Definition det3 (a b c d e f g h i : Q) : Q :=
  a * (e * i - f * h) - b * (d * i - f * g) + c * (d * h - e * g).

(** The coefficients [(c0, c1, c2)] of the fitted parabola. *)
Definition polyfit2 (y : list Q) : Q * Q * Q :=
  let pts := map (fun iy => (inject_Z (fst iy), snd iy)) (enumerate y) in
  let S := fun k : positive => qsum (map (fun xy => fst xy ^ Zpos k) pts) in
  let T := fun k : positive =>
             qsum (map (fun xy => fst xy ^ Zpos k * snd xy) pts) in
  let s0 := inject_Z (Z.of_nat (length y)) in
  let t0 := qsum y in
  let s1 := S 1%positive in
  let s2 := S 2%positive in
  let s3 := S 3%positive in
  let s4 := S 4%positive in
  let t1 := T 1%positive in
  let t2 := T 2%positive in
  let D := det3 s0 s1 s2 s1 s2 s3 s2 s3 s4 in
  (det3 t0 s1 s2 t1 s2 s3 t2 s3 s4 / D,
   det3 s0 t0 s2 s1 t1 s3 s2 t2 s4 / D,
   det3 s0 s1 t0 s1 s2 t1 s2 s3 t2 / D).

Definition lr_predict (y : list Q) (x : Z) : Q :=
  let '(c0, c1, c2) := polyfit2 y in
  Qred (c0 + c1 * inject_Z x + c2 * inject_Z x * inject_Z x).

Definition q_sqrt (q : Q) : Q :=
  Z.sqrt (Qfloor (q * 1000000000000)) # 1000000.

Definition np_std (r : list Q) : Q :=
  let n := inject_Z (Z.of_nat (length r)) in
  let mean := Qred (qsum r / n) in
  q_sqrt (Qred (qsum (map (fun x => (x - mean) * (x - mean)) r) / n)).

Definition sarimax (y : list Q) (steps : Z) : option (list Q * list (Q * Q)) :=
  None.

End Reference.

(* ------------------------------------------------------------------ *)
(** * Facts about rounding and clamping *)

Module NumFacts.

Local Open Scope Q_scope.

Lemma py_max_0_nonneg (x : Q) : 0 <= py_max 0 x.
Proof.
  unfold py_max. destruct (0 ?= x) eqn:E.
  - lra.
  - apply Qlt_alt in E. lra.
  - lra.
Qed.

Lemma py_max_0_ge (x : Q) : x <= py_max 0 x.
Proof.
  unfold py_max. destruct (0 ?= x) eqn:E.
  - apply Qeq_alt in E. lra.
  - lra.
  - apply Qgt_alt in E. lra.
Qed.

Lemma py_max_0_pos (x : Q) : 0 <= x -> py_max 0 x == x.
Proof.
  intros H. unfold py_max. destruct (0 ?= x) eqn:E.
  - apply Qeq_alt in E. exact E.
  - reflexivity.
  - apply Qgt_alt in E. lra.
Qed.

Lemma py_max_0_neg (x : Q) : x <= 0 -> py_max 0 x = 0.
Proof.
  intros H. unfold py_max. destruct (0 ?= x) eqn:E.
  - reflexivity.
  - apply Qlt_alt in E. lra.
  - reflexivity.
Qed.

Lemma py_max_0_mono (x y : Q) : x <= y -> py_max 0 x <= py_max 0 y.
Proof.
  intros H. destruct (Qlt_le_dec 0 x) as [Hx | Hx].
  - rewrite (py_max_0_pos x), (py_max_0_pos y); lra.
  - rewrite (py_max_0_neg x Hx). apply py_max_0_nonneg.
Qed.

Lemma round_half_even_comp (x y : Q) :
  x == y -> round_half_even x = round_half_even y.
Proof.
  intros H. unfold round_half_even.
  assert (Hf : Qfloor x = Qfloor y) by (rewrite H; reflexivity).
  rewrite Hf.
  assert (Hc : (x - inject_Z (Qfloor y) ?= 1 # 2)
               = (y - inject_Z (Qfloor y) ?= 1 # 2))
    by (rewrite H; reflexivity).
  rewrite Hc. reflexivity.
Qed.

Lemma round_half_even_Z (z : Z) : round_half_even (inject_Z z) = z.
Proof.
  unfold round_half_even. rewrite Qfloor_Z.
  destruct (inject_Z z - inject_Z z ?= 1 # 2) eqn:E.
  - apply Qeq_alt in E. lra.
  - reflexivity.
  - apply Qgt_alt in E. lra.
Qed.

(** The rounded value is within one half of the argument. *)
Lemma round_half_even_near (x : Q) :
  inject_Z (round_half_even x) - (1 # 2) <= x
  /\ x <= inject_Z (round_half_even x) + (1 # 2).
Proof.
  pose proof (Qfloor_le x) as Hlo. pose proof (Qlt_floor x) as Hhi.
  rewrite inject_Z_plus in Hhi. change (inject_Z 1) with 1 in Hhi.
  unfold round_half_even.
  destruct (x - inject_Z (Qfloor x) ?= 1 # 2) eqn:E.
  - apply Qeq_alt in E.
    destruct (Z.even (Qfloor x));
      [| rewrite inject_Z_plus; change (inject_Z 1) with 1]; split; lra.
  - apply Qlt_alt in E. split; lra.
  - apply Qgt_alt in E. rewrite inject_Z_plus. change (inject_Z 1) with 1.
    split; lra.
Qed.

Lemma round_half_even_mono (x y : Q) :
  x <= y -> (round_half_even x <= round_half_even y)%Z.
Proof.
  intros H.
  pose proof (Qfloor_resp_le x y H) as Hf.
  pose proof (Qfloor_le x) as Hxl. pose proof (Qlt_floor x) as Hxh.
  pose proof (Qfloor_le y) as Hyl. pose proof (Qlt_floor y) as Hyh.
  rewrite inject_Z_plus in Hxh, Hyh.
  change (inject_Z 1) with 1 in Hxh, Hyh.
  assert (Hx : (Qfloor x <= round_half_even x <= Qfloor x + 1)%Z).
  { unfold round_half_even.
    destruct (x - inject_Z (Qfloor x) ?= 1 # 2);
      [destruct (Z.even (Qfloor x)) | |]; lia. }
  assert (Hy : (Qfloor y <= round_half_even y <= Qfloor y + 1)%Z).
  { unfold round_half_even.
    destruct (y - inject_Z (Qfloor y) ?= 1 # 2);
      [destruct (Z.even (Qfloor y)) | |]; lia. }
  destruct (Z.eq_dec (Qfloor x) (Qfloor y)) as [Heq | Hne]; [| lia].
  unfold round_half_even. rewrite <- Heq.
  destruct (x - inject_Z (Qfloor x) ?= 1 # 2) eqn:Ex;
    destruct (y - inject_Z (Qfloor x) ?= 1 # 2) eqn:Ey;
    try (destruct (Z.even (Qfloor x))); try lia;
    repeat match goal with
      | E : (_ ?= _) = Eq |- _ => apply Qeq_alt in E
      | E : (_ ?= _) = Lt |- _ => apply Qlt_alt in E
      | E : (_ ?= _) = Gt |- _ => apply Qgt_alt in E
      end; lra.
Qed.

Lemma Qmake_100 (z : Z) : z # 100 == inject_Z z * (1 # 100).
Proof. unfold Qeq, Qmult, inject_Z. simpl. lia. Qed.

Lemma round2_eq (x : Q) :
  round2 x == inject_Z (round_half_even (x * 100)) * (1 # 100).
Proof. unfold round2. rewrite Qred_correct. apply Qmake_100. Qed.

Lemma round2_comp (x y : Q) : x == y -> round2 x = round2 y.
Proof.
  intros H. unfold round2. apply Qred_complete.
  rewrite (round_half_even_comp (x * 100) (y * 100)); [reflexivity |].
  rewrite H. reflexivity.
Qed.

Lemma round2_mono (x y : Q) : x <= y -> round2 x <= round2 y.
Proof.
  intros H. rewrite !round2_eq.
  assert (Hz : (round_half_even (x * 100) <= round_half_even (y * 100))%Z)
    by (apply round_half_even_mono; lra).
  rewrite Zle_Qle in Hz. lra.
Qed.

Lemma round2_0 : round2 0 = 0.
Proof. reflexivity. Qed.

Lemma round2_nonneg (x : Q) : 0 <= x -> 0 <= round2 x.
Proof. intros H. rewrite <- round2_0. apply round2_mono. exact H. Qed.

Lemma round2_idem (x : Q) : round2 (round2 x) = round2 x.
Proof.
  unfold round2 at 1 3. apply Qred_complete.
  rewrite (round_half_even_comp (round2 x * 100)
             (inject_Z (round_half_even (x * 100)))).
  - rewrite round_half_even_Z. reflexivity.
  - rewrite round2_eq. ring.
Qed.

(** Rounding moves a value by at most half a cent. *)
Lemma round2_near (x : Q) :
  round2 x - (1 # 200) <= x /\ x <= round2 x + (1 # 200).
Proof.
  pose proof (round_half_even_near (x * 100)) as [H1 H2].
  rewrite round2_eq. split; lra.
Qed.

End NumFacts.

(* ------------------------------------------------------------------ *)
(** * Facts about lists, ranges and periods *)

Lemma range_length (a b : Z) : length (range a b) = Z.to_nat (b - a).
Proof. unfold range. rewrite length_map, length_seq. reflexivity. Qed.

Lemma nth_error_range (a b : Z) (i : nat) :
  (i < Z.to_nat (b - a))%nat ->
  nth_error (range a b) i = Some (a + Z.of_nat i).
Proof.
  intros H. unfold range.
  rewrite nth_error_map, nth_error_seq.
  destruct (Nat.ltb_spec i (Z.to_nat (b - a))); [reflexivity | lia].
Qed.

Lemma enumerate_length {A : Type} (xs : list A) :
  length (enumerate xs) = length xs.
Proof.
  unfold enumerate. rewrite length_combine, range_length. lia.
Qed.

Lemma nth_error_combine {A B : Type} (xs : list A) (ys : list B) (i : nat)
  (x : A) (y : B) :
  nth_error xs i = Some x -> nth_error ys i = Some y ->
  nth_error (combine xs ys) i = Some (x, y).
Proof.
  revert ys i. induction xs as [| x0 xs IH]; intros ys i Hx Hy.
  - destruct i; discriminate.
  - destruct ys as [| y0 ys]; [destruct i; discriminate |].
    destruct i as [| i]; simpl in *.
    + congruence.
    + apply IH; assumption.
Qed.

Lemma nth_error_enumerate {A : Type} (xs : list A) (i : nat) (x : A) :
  nth_error xs i = Some x ->
  nth_error (enumerate xs) i = Some (Z.of_nat i, x).
Proof.
  intros H. unfold enumerate.
  apply nth_error_combine; [| exact H].
  rewrite nth_error_range.
  - reflexivity.
  - assert (i < length xs)%nat by (apply nth_error_Some; congruence). lia.
Qed.

Lemma map_snd_enumerate {A : Type} (xs : list A) :
  map snd (enumerate xs) = xs.
Proof.
  unfold enumerate.
  assert (H : forall (zs : list Z), length zs = length xs ->
                map snd (combine zs xs) = xs).
  { induction xs as [| x xs IH]; intros [| z zs] Hl; simpl in *;
      try reflexivity; try discriminate.
    f_equal. apply IH. lia. }
  apply H. rewrite range_length. lia.
Qed.

Lemma traverse_Ok_map {A B : Type} (f : A -> B) (xs : list A) :
  traverse (fun x => Ok (f x)) xs = Ok (map f xs).
Proof.
  induction xs as [| x xs IH]; simpl; [reflexivity |].
  rewrite IH. reflexivity.
Qed.

(** A comprehension that returns has applied its body to every element. *)
Lemma traverse_Forall2 {A B : Type} (f : A -> result B) (xs : list A)
  (ys : list B) :
  traverse f xs = Ok ys -> Forall2 (fun x y => f x = Ok y) xs ys.
Proof.
  revert ys. induction xs as [| x xs IH]; intros ys H; simpl in H.
  - injection H as <-. constructor.
  - destruct (f x) as [y |] eqn:Ef; simpl in H; [| discriminate].
    destruct (traverse f xs) as [ys' |]; simpl in H; [| discriminate].
    injection H as <-. constructor; [exact Ef | apply IH; reflexivity].
Qed.

Module PeriodFacts.

Import Period.

(** One quarter later on the ordinal is the calendar successor. *)
Lemma next_quarter_add (p : t) :
  next_quarter (year p, quarter p) = (year (add p 1), quarter (add p 1)).
Proof.
  unfold next_quarter, year, quarter, add.
  destruct (Z.eqb_spec (p mod 4 + 1) 4) as [H | H]; f_equal;
    Z.div_mod_to_equations; lia.
Qed.

Lemma iter_next_quarter (p : t) (k : nat) :
  Nat.iter k next_quarter (year p, quarter p)
  = (year (add p (Z.of_nat k)), quarter (add p (Z.of_nat k))).
Proof.
  induction k as [| k IH].
  - simpl. unfold add. rewrite Z.add_0_r. reflexivity.
  - simpl Nat.iter. rewrite IH, next_quarter_add. unfold add.
    replace (p + Z.of_nat k + 1) with (p + Z.of_nat (S k)) by lia.
    reflexivity.
Qed.

(** A period is determined by its year and quarter. *)
Lemma year_quarter_inj (p q : t) :
  year p = year q -> quarter p = quarter q -> p = q.
Proof.
  unfold year, quarter. intros H1 H2. Z.div_mod_to_equations. lia.
Qed.

Lemma quarter_range (p : t) : 1 <= quarter p <= 4.
Proof. unfold quarter. Z.div_mod_to_equations. lia. Qed.

Lemma make_year_quarter (y q : Z) (p : t) :
  make y q = Ok p -> year p = y /\ quarter p = q.
Proof.
  unfold make, year, quarter.
  destruct ((1 <=? q) && (q <=? 4)) eqn:E; [| discriminate].
  intros [= <-]. apply andb_true_iff in E as [E1 E2].
  apply Z.leb_le in E1, E2. Z.div_mod_to_equations. lia.
Qed.

End PeriodFacts.

(* ------------------------------------------------------------------ *)
(** * The reference libraries satisfy the interface *)

Lemma reference_np_std_nonneg (r : list Q) : (0 <= Reference.np_std r)%Q.
Proof.
  unfold Reference.np_std, Reference.q_sqrt, Qle. simpl.
  rewrite Z.mul_1_r. apply Z.sqrt_nonneg.
Qed.

Definition reference : Libraries :=
  {| lr_predict := Reference.lr_predict;
     np_std := Reference.np_std;
     np_std_nonneg := reference_np_std_nonneg;
     sarimax := Reference.sarimax |}.

(** A falling series, 2023Q1 .. 2023Q4. *)
Definition falling_series : TimeSeries :=
  [(212, inject_Z 4000); (213, inject_Z 3000);
   (214, inject_Z 2000); (215, inject_Z 1000)].

(** The scenario series of the specification, 2023Q1 .. 2023Q4. *)
Definition rising_series : TimeSeries :=
  [(212, inject_Z 3500); (213, inject_Z 3550);
   (214, inject_Z 3600); (215, inject_Z 3650)].

Example reference_rising :
  _linear_forecast reference rising_series 2
  = Ok [mkPoint 2024 1 (inject_Z 3700) (inject_Z 3700) (inject_Z 3700)
               CONFIDENCE;
        mkPoint 2024 2 (inject_Z 3750) (inject_Z 3750) (inject_Z 3750)
               CONFIDENCE].
Proof. vm_compute. reflexivity. Qed.

(* ------------------------------------------------------------------ *)
(** * The three models *)

Section ModelFacts.

Variable L : Libraries.

Lemma next_periods_snoc (ts : TimeSeries) (p : Period.t) (v : Q) (n : Z) :
  _next_periods (ts ++ [(p, v)]) n
  = Ok (map (fun i => Period.add p i) (range 1 (n + 1))).
Proof. unfold _next_periods. rewrite rev_unit. reflexivity. Qed.

Lemma next_periods_nonempty (ts : TimeSeries) (n : Z) :
  ts <> [] -> exists ps, _next_periods ts n = Ok ps.
Proof.
  intros H. destruct (exists_last H) as [ts' [[p v] ->]].
  rewrite next_periods_snoc. eauto.
Qed.

Lemma next_periods_empty (ts : TimeSeries) (n : Z) (e : exn) :
  _next_periods ts n = Raise e -> ts = [].
Proof.
  intros H. destruct ts as [| x ts]; [reflexivity |].
  destruct (next_periods_nonempty (x :: ts) n) as [ps Hps]; congruence.
Qed.

Lemma next_periods_length (ts : TimeSeries) (n : Z) (ps : list Period.t) :
  _next_periods ts n = Ok ps -> length ps = Z.to_nat n.
Proof.
  unfold _next_periods. destruct (rev ts) as [| [p v] r]; [discriminate |].
  intros [= <-]. rewrite length_map, range_length. f_equal. lia.
Qed.

Lemma check_array_range (a b : Z) :
  check_array (range a b) = if a <? b then Ok tt else Raise ValueError.
Proof.
  unfold range. destruct (Z.ltb_spec a b) as [H | H].
  - destruct (Z.to_nat (b - a)) as [| k] eqn:E; [lia | reflexivity].
  - replace (Z.to_nat (b - a)) with 0%nat by lia. reflexivity.
Qed.

(** The dict built for the future period [p] at position [i]. *)
Definition linear_point (ts : TimeSeries) (ip : Z * Period.t)
  : ForecastPoint :=
  let y := ts_values ts in
  let n := len ts in
  let preds := fun i => lr_predict L y (n + i) in
  let residuals :=
    map (fun iy => (snd iy - lr_predict L y (fst iy))%Q) (enumerate y) in
  let sigma := np_std L residuals in
  let (i, p) := ip in
  {| year := Period.year p;
     quarter := Period.quarter p;
     predicted_price_m2 := round2 (py_max 0 (preds i));
     lower_bound := round2 (py_max 0 (preds i - z95 * sigma));
     upper_bound := round2 (preds i + z95 * sigma);
     confidence_level := CONFIDENCE |}.

Lemma linear_forecast_eq (ts : TimeSeries) (periods : Z) :
  _linear_forecast L ts periods
  = if (0 <? len ts) && (0 <? periods)
    then (ps <- _next_periods ts periods ;;
          Ok (map (linear_point ts) (enumerate ps)))
    else Raise ValueError.
Proof.
  unfold _linear_forecast. rewrite !check_array_range.
  destruct (0 <? len ts); cbn [bind andb]; [| reflexivity].
  replace (len ts <? len ts + periods) with (0 <? periods)
    by (destruct (Z.ltb_spec 0 periods), (Z.ltb_spec (len ts) (len ts + periods));
        reflexivity || lia).
  destruct (0 <? periods); reflexivity.
Qed.

Lemma len_pos (ts : TimeSeries) : ts <> [] <-> 0 < len ts.
Proof.
  unfold len. destruct ts; simpl; split; try congruence; try lia.
Qed.

Lemma linear_forecast_nonempty (ts : TimeSeries) (periods : Z) :
  ts <> [] -> 1 <= periods -> exists fc, _linear_forecast L ts periods = Ok fc.
Proof.
  intros H Hp. rewrite linear_forecast_eq.
  apply len_pos in H as Hlen.
  replace (0 <? len ts) with true by (symmetry; apply Z.ltb_lt; lia).
  replace (0 <? periods) with true by (symmetry; apply Z.ltb_lt; lia).
  cbn [andb].
  destruct (next_periods_nonempty ts periods H) as [ps ->]. simpl. eauto.
Qed.

(** What a returned trend forecast is made of. *)
Lemma linear_forecast_inv (ts : TimeSeries) (periods : Z)
  (fc : list ForecastPoint) :
  _linear_forecast L ts periods = Ok fc ->
  ts <> [] /\ 1 <= periods
  /\ exists ps, _next_periods ts periods = Ok ps
                /\ fc = map (linear_point ts) (enumerate ps).
Proof.
  rewrite linear_forecast_eq.
  destruct (Z.ltb_spec 0 (len ts)) as [Hn | Hn]; [| discriminate].
  destruct (Z.ltb_spec 0 periods) as [Hp | Hp]; [| discriminate].
  cbn [andb].
  destruct (_next_periods ts periods) as [ps |] eqn:E; [| discriminate].
  simpl. intros [= <-]. split; [apply len_pos; exact Hn |].
  split; [lia |]. eauto.
Qed.

(** The trend model raises only on an empty series or a horizon below 1. *)
Lemma linear_forecast_raises (ts : TimeSeries) (periods : Z) (e : exn) :
  _linear_forecast L ts periods = Raise e -> ts = [] \/ periods <= 0.
Proof.
  intros H. destruct ts as [| x ts]; [left; reflexivity |]. right.
  destruct (Z.le_gt_cases periods 0) as [Hp | Hp]; [exact Hp |].
  destruct (linear_forecast_nonempty (x :: ts) periods) as [fc Hfc];
    [discriminate | lia | congruence].
Qed.

(** The periods of a forecast: the (year, quarter) pairs of its points. *)
Definition periods_of (fc : list ForecastPoint) : list (Z * Z) :=
  map (fun pt => (year pt, quarter pt)) fc.

Definition period_pair (p : Period.t) : Z * Z :=
  (Period.year p, Period.quarter p).

Lemma linear_forecast_periods_of (ts : TimeSeries) (periods : Z)
  (fc : list ForecastPoint) (ps : list Period.t) :
  _next_periods ts periods = Ok ps ->
  _linear_forecast L ts periods = Ok fc ->
  periods_of fc = map period_pair ps.
Proof.
  intros Hps Hfc.
  apply linear_forecast_inv in Hfc as (_ & _ & ps' & Hps' & ->).
  assert (ps' = ps) by congruence. subst ps'. unfold periods_of.
  transitivity (map period_pair (map snd (enumerate ps)));
    [| rewrite map_snd_enumerate; reflexivity].
  rewrite !map_map. apply map_ext. intros [i p]. reflexivity.
Qed.

Lemma sarima_try_periods_of (ts : TimeSeries) (periods : Z)
  (fc : list ForecastPoint) (ps : list Period.t) :
  _next_periods ts periods = Ok ps ->
  sarima_try L ts periods = Ok fc ->
  periods_of fc = map period_pair ps.
Proof.
  unfold sarima_try. intros Hps.
  destruct (sarimax L (ts_values ts) periods) as [[means ci] |];
    [| discriminate].
  rewrite Hps. simpl. intros H. apply traverse_Forall2 in H.
  transitivity (map period_pair (map snd (enumerate ps)));
    [| rewrite map_snd_enumerate; reflexivity].
  unfold periods_of. rewrite map_map.
  induction H as [| [i p] pt xs ys Hxy _ IH]; simpl; [reflexivity |].
  f_equal; [| exact IH].
  destruct (getitem means i); [| discriminate].
  destruct (getitem ci i) as [[lo hi] |]; [| discriminate].
  injection Hxy as <-. reflexivity.
Qed.

Lemma ensemble_periods_of (lin sar : list ForecastPoint) :
  length lin = length sar ->
  periods_of (_ensemble_forecast lin sar) = periods_of lin.
Proof.
  unfold _ensemble_forecast, _ensemble_forecast_w, periods_of.
  revert sar. induction lin as [| l lin IH]; intros [| s sar] Hl;
    simpl in *; try reflexivity; try discriminate.
  f_equal. apply IH. lia.
Qed.

End ModelFacts.

(** C5 (counterexample).  With a horizon of 0 the array of future indices
    has no rows and scikit-learn rejects it: the trend model raises
    instead of returning zero points. *)
Lemma linear_forecast_zero_horizon :
  4 <= len rising_series
  /\ _linear_forecast reference rising_series 0 = Raise ValueError.
Proof. split; [vm_compute; discriminate | reflexivity]. Qed.

(** C5 (amended).  For a series of at least four observations and a
    horizon [h >= 1], the trend model returns exactly [h] points, and the
    (year, quarter) of the point at position [i] is the calendar quarter
    [i + 1] steps after the series' last period, where quarter 4 is
    followed by quarter 1 of the next year. *)
Theorem linear_forecast_periods (L : Libraries) (ts : TimeSeries)
  (p : Period.t) (v : Q) (h : Z) :
  4 <= len (ts ++ [(p, v)]) ->
  1 <= h ->
  exists fc,
    _linear_forecast L (ts ++ [(p, v)]) h = Ok fc
    /\ Z.of_nat (length fc) = h
    /\ forall i, (i < length fc)%nat ->
         nth_error (periods_of fc) i
         = Some (Nat.iter (S i) next_quarter
                   (Period.year p, Period.quarter p)).
Proof.
  intros _ Hh.
  destruct (linear_forecast_nonempty L (ts ++ [(p, v)]) h) as [fc Hfc].
  { destruct ts; discriminate. }
  { exact Hh. }
  exists fc. split; [exact Hfc |].
  pose proof (next_periods_snoc ts p v h) as Hps.
  pose proof (linear_forecast_periods_of L _ _ _ _ Hps Hfc) as Hper.
  assert (Hlen : length fc = Z.to_nat h).
  { rewrite <- (length_map (fun pt => (year pt, quarter pt)) fc).
    fold (periods_of fc). rewrite Hper, !length_map, range_length.
    f_equal. lia. }
  split; [lia |].
  intros i Hi. rewrite Hper, map_map, nth_error_map, nth_error_range by lia.
  cbn [option_map]. f_equal.
  rewrite PeriodFacts.iter_next_quarter. unfold period_pair, Period.add.
  replace (p + (1 + Z.of_nat i)) with (p + Z.of_nat (S i)) by lia.
  reflexivity.
Qed.

Lemma linear_forecast_periods_witness :
  exists fc,
    _linear_forecast reference rising_series 4 = Ok fc
    /\ Z.of_nat (length fc) = 4
    /\ forall i, (i < length fc)%nat ->
         nth_error (periods_of fc) i
         = Some (Nat.iter (S i) next_quarter (2023, 4)).
Proof.
  apply (linear_forecast_periods reference
           [(212, inject_Z 3500); (213, inject_Z 3550); (214, inject_Z 3600)]
           215 (inject_Z 3650) 4).
  - vm_compute. discriminate.
  - lia.
Defined.

(* ------------------------------------------------------------------ *)
(** * Clamping at zero *)

Definition nonneg_point (pt : ForecastPoint) : Prop :=
  (0 <= predicted_price_m2 pt)%Q /\ (0 <= lower_bound pt)%Q.

Section Clamping.

Variable L : Libraries.

Lemma clamped_nonneg (x : Q) : (0 <= round2 (py_max 0 x))%Q.
Proof. apply NumFacts.round2_nonneg, NumFacts.py_max_0_nonneg. Qed.

Lemma linear_forecast_nonneg (ts : TimeSeries) (periods : Z)
  (fc : list ForecastPoint) :
  _linear_forecast L ts periods = Ok fc -> Forall nonneg_point fc.
Proof.
  intros H. apply linear_forecast_inv in H as (_ & _ & ps & _ & ->).
  apply Forall_map, Forall_forall.
  intros [i p] _. split; apply clamped_nonneg.
Qed.

Lemma sarima_try_nonneg (ts : TimeSeries) (periods : Z)
  (fc : list ForecastPoint) :
  sarima_try L ts periods = Ok fc -> Forall nonneg_point fc.
Proof.
  unfold sarima_try.
  destruct (sarimax L (ts_values ts) periods) as [[means ci] |];
    [| discriminate].
  destruct (_next_periods ts periods) as [ps |]; [| discriminate].
  simpl. intros H. apply traverse_Forall2 in H.
  induction H as [| [i p] pt xs ys Hxy _ IH]; constructor; [| exact IH].
  destruct (getitem means i); [| discriminate].
  destruct (getitem ci i) as [[lo hi] |]; [| discriminate].
  injection Hxy as <-. split; apply clamped_nonneg.
Qed.

Lemma sarima_forecast_nonneg (ts : TimeSeries) (periods : Z)
  (fc : list ForecastPoint) :
  _sarima_forecast L ts periods = Ok fc -> Forall nonneg_point fc.
Proof.
  unfold _sarima_forecast.
  destruct (sarima_try L ts periods) as [fc' |] eqn:E.
  - intros [= <-]. eapply sarima_try_nonneg. exact E.
  - apply linear_forecast_nonneg.
Qed.

Lemma blend_nonneg (lin sar : ForecastPoint) :
  nonneg_point lin -> nonneg_point sar ->
  nonneg_point (blend W_SARIMA lin sar).
Proof.
  intros [Hl1 Hl2] [Hs1 Hs2]. unfold nonneg_point, blend, W_SARIMA.
  cbn [predicted_price_m2 lower_bound].
  split; apply NumFacts.round2_nonneg; nra.
Qed.

Lemma ensemble_nonneg (lin sar : list ForecastPoint) :
  Forall nonneg_point lin -> Forall nonneg_point sar ->
  Forall nonneg_point (_ensemble_forecast lin sar).
Proof.
  unfold _ensemble_forecast, _ensemble_forecast_w. intros Hl. revert sar.
  induction Hl as [| l lin Hl _ IH]; intros sar Hs; [constructor |].
  destruct Hs as [| s sar Hs Hs']; [constructor |].
  simpl. constructor; [apply blend_nonneg; assumption | apply IH, Hs'].
Qed.

Lemma sarima_forecast_raises (ts : TimeSeries) (periods : Z) (e : exn) :
  _sarima_forecast L ts periods = Raise e -> ts = [] \/ periods <= 0.
Proof.
  unfold _sarima_forecast.
  destruct (sarima_try L ts periods); [discriminate |].
  apply linear_forecast_raises.
Qed.

Lemma run_models_raises (ts : TimeSeries) (periods : Z) (e : exn) :
  run_models L ts periods = Raise e -> ts = [] \/ periods <= 0.
Proof.
  unfold run_models.
  destruct (_linear_forecast L ts periods) as [lin |] eqn:El; simpl.
  - destruct (MIN_POINTS_SARIMA <=? len ts).
    + destruct (_sarima_forecast L ts periods) as [sar |] eqn:Es; simpl;
        [discriminate |].
      intros _. eapply sarima_forecast_raises. exact Es.
    + discriminate.
  - intros _. eapply linear_forecast_raises. exact El.
Qed.

End Clamping.

(** C9. Every point emitted by the trend, seasonal and ensemble models has
    a predicted price and a lower bound that are not negative; the models
    raise, and emit no point, only when the series is empty or the horizon
    is below 1.  The same holds for the seasonal model run on its own. *)
Theorem models_nonneg (L : Libraries) (ts : TimeSeries) (periods : Z) :
  match run_models L ts periods with
  | Ok (linear_fc, sarima_fc, ensemble_fc) =>
      Forall nonneg_point linear_fc
      /\ Forall nonneg_point sarima_fc
      /\ Forall nonneg_point ensemble_fc
  | Raise _ => ts = [] \/ periods <= 0
  end
  /\ match _sarima_forecast L ts periods with
     | Ok fc => Forall nonneg_point fc
     | Raise _ => ts = [] \/ periods <= 0
     end.
Proof.
  split.
  - destruct (run_models L ts periods) as [[[lin sar] ens] |] eqn:E;
      [| eapply run_models_raises; exact E].
    unfold run_models in E.
    destruct (_linear_forecast L ts periods) as [lin' |] eqn:El;
      simpl in E; [| discriminate].
    assert (Hlin : Forall nonneg_point lin')
      by (eapply linear_forecast_nonneg; exact El).
    destruct (MIN_POINTS_SARIMA <=? len ts).
    + destruct (_sarima_forecast L ts periods) as [sar' |] eqn:Es;
        simpl in E; [| discriminate].
      injection E as <- <- <-.
      assert (Hsar : Forall nonneg_point sar')
        by (eapply sarima_forecast_nonneg; exact Es).
      auto using ensemble_nonneg.
    + simpl in E. injection E as <- <- <-. auto using ensemble_nonneg.
  - destruct (_sarima_forecast L ts periods) as [fc |] eqn:E.
    + eapply sarima_forecast_nonneg. exact E.
    + eapply sarima_forecast_raises. exact E.
Qed.

(* ------------------------------------------------------------------ *)
(** * The seasonal fallback *)

(** Twelve quarters, 2021Q1 .. 2023Q4: long enough for the seasonal model
    to be tried. *)
Definition long_series : TimeSeries :=
  map (fun k => (204 + Z.of_nat k, inject_Z (3000 + 50 * Z.of_nat k)))
      (seq 0 12).

(** C3 (counterexample).  With a horizon of 0 the fallback itself raises.
    On a series of twelve quarters whose seasonal fit fails,
    [_sarima_forecast] calls [_linear_forecast] from its [except] branch,
    outside the [try], and the [ValueError] of the trend model comes out
    of the seasonal model. *)
Lemma sarima_forecast_zero_horizon :
  12 <= len long_series
  /\ (exists e, sarima_try reference long_series 0 = Raise e)
  /\ _sarima_forecast reference long_series 0 = Raise ValueError.
Proof.
  split; [vm_compute; discriminate |].
  split; [exists ValueError; reflexivity | reflexivity].
Qed.

(** C3 (amended).  For a non-empty series and a horizon [h >= 1]: when
    the body of the seasonal model's [try] raises, [_sarima_forecast] does
    not raise and returns the trend model's forecast for the same series
    and horizon; and when that body raises or the series has fewer than
    twelve observations, the seasonal forecast that [_forecast_district]
    uses is that trend forecast, no exception being raised. *)
Theorem seasonal_fallback (L : Libraries) (ts : TimeSeries) (periods : Z) :
  ts <> [] ->
  1 <= periods ->
  (exists e, sarima_try L ts periods = Raise e) \/ len ts < 12 ->
  exists linear_fc,
    _linear_forecast L ts periods = Ok linear_fc
    /\ run_models L ts periods
       = Ok (linear_fc, linear_fc, _ensemble_forecast linear_fc linear_fc)
    /\ ((exists e, sarima_try L ts periods = Raise e) ->
        _sarima_forecast L ts periods = Ok linear_fc).
Proof.
  intros Hts Hp H.
  destruct (linear_forecast_nonempty L ts periods Hts Hp) as [linear_fc Hfc].
  exists linear_fc. split; [exact Hfc |].
  assert (Hs : (exists e, sarima_try L ts periods = Raise e) ->
               _sarima_forecast L ts periods = Ok linear_fc).
  { intros [e He]. unfold _sarima_forecast. rewrite He. exact Hfc. }
  split; [| exact Hs].
  unfold run_models. rewrite Hfc. simpl.
  destruct (Z.leb_spec MIN_POINTS_SARIMA (len ts)) as [Hge | Hlt];
    [| reflexivity].
  destruct H as [He | Hlt]; [| unfold MIN_POINTS_SARIMA in Hge; lia].
  rewrite (Hs He). reflexivity.
Qed.

Lemma seasonal_fallback_witness :
  exists linear_fc,
    _linear_forecast reference long_series 2 = Ok linear_fc
    /\ run_models reference long_series 2
       = Ok (linear_fc, linear_fc, _ensemble_forecast linear_fc linear_fc)
    /\ ((exists e, sarima_try reference long_series 2 = Raise e) ->
        _sarima_forecast reference long_series 2 = Ok linear_fc).
Proof.
  apply (seasonal_fallback reference long_series 2).
  - intros E. vm_compute in E. discriminate.
  - lia.
  - left. exists ValueError. reflexivity.
Defined.

(* ------------------------------------------------------------------ *)
(** * Ordering of the bounds *)

Definition ordered_point (pt : ForecastPoint) : Prop :=
  (lower_bound pt <= predicted_price_m2 pt)%Q
  /\ (predicted_price_m2 pt <= upper_bound pt)%Q.

(** What the trend model does guarantee: the lower bound never exceeds the
    prediction, and the prediction exceeds the upper bound only when the
    upper bound, which is not clamped, is negative. *)
Lemma linear_forecast_bounds (L : Libraries) (ts : TimeSeries) (periods : Z)
  (fc : list ForecastPoint) :
  _linear_forecast L ts periods = Ok fc ->
  Forall (fun pt =>
            (lower_bound pt <= predicted_price_m2 pt)%Q
            /\ ((0 <= upper_bound pt)%Q -> ordered_point pt)) fc.
Proof.
  intros H. apply linear_forecast_inv in H as (_ & _ & ps & _ & ->).
  apply Forall_map, Forall_forall.
  intros [i p] _. unfold ordered_point, linear_point.
  cbn [lower_bound predicted_price_m2 upper_bound].
  set (pred := lr_predict L (ts_values ts) (len ts + i)).
  set (sigma := np_std L _).
  assert (Hs : (0 <= sigma)%Q) by apply np_std_nonneg.
  assert (Hlo : (round2 (py_max 0 (pred - z95 * sigma))
                 <= round2 (py_max 0 pred))%Q).
  { apply NumFacts.round2_mono, NumFacts.py_max_0_mono.
    unfold z95. nra. }
  split; [exact Hlo |]. intros Hup. split; [exact Hlo |].
  destruct (Qlt_le_dec pred 0) as [Hneg | Hpos].
  - rewrite NumFacts.py_max_0_neg by lra. rewrite NumFacts.round2_0.
    exact Hup.
  - apply NumFacts.round2_mono.
    rewrite (NumFacts.py_max_0_pos pred Hpos). unfold z95. nra.
Qed.

(** C1 (failing input).  On the falling series 4000, 3000, 2000, 1000 the
    least-squares parabola is the line through the points and the
    residuals vanish, so the second forecast quarter has a raw prediction
    of -1000: the prediction and the lower bound are clamped to 0 while the
    upper bound stays at -1000, below the prediction.  The series is
    shorter than twelve quarters, so the seasonal forecast is the trend
    forecast, and the ensemble point has the same defect. *)
Theorem linear_forecast_upper_below_predicted :
  exists pt1 pt2 ens1 ens2,
    _linear_forecast reference falling_series 2 = Ok [pt1; pt2]
    /\ run_models reference falling_series 2
       = Ok ([pt1; pt2], [pt1; pt2], [ens1; ens2])
    /\ (year pt2, quarter pt2) = (2024, 2)
    /\ predicted_price_m2 pt2 = 0%Q
    /\ lower_bound pt2 = 0%Q
    /\ upper_bound pt2 = inject_Z (-1000)
    /\ ~ ordered_point pt2
    /\ ~ ordered_point ens2.
Proof.
  eexists _, _, _, _. split; [vm_compute; reflexivity |].
  split; [vm_compute; reflexivity |].
  repeat split.
  - intros [_ H]. vm_compute in H. apply H. reflexivity.
  - intros [_ H]. vm_compute in H. apply H. reflexivity.
Qed.

(* ------------------------------------------------------------------ *)
(** * The ensemble *)

(** The weighted arithmetic mean of the specification:
    [w * seasonal + (1 - w) * trend]. *)
Definition weighted_mean (w seasonal trend : Q) : Q :=
  (w * seasonal + (1 - w) * trend)%Q.

Lemma blend_fields (w : Q) (lin sar : ForecastPoint) :
  predicted_price_m2 (blend w lin sar)
  = round2 (weighted_mean w (predicted_price_m2 sar) (predicted_price_m2 lin))
  /\ lower_bound (blend w lin sar)
     = round2 (weighted_mean w (lower_bound sar) (lower_bound lin))
  /\ upper_bound (blend w lin sar)
     = round2 (weighted_mean w (upper_bound sar) (upper_bound lin)).
Proof.
  unfold blend, weighted_mean.
  cbn [predicted_price_m2 lower_bound upper_bound].
  repeat split; apply NumFacts.round2_comp; ring.
Qed.

Lemma ensemble_nth (lin sar : list ForecastPoint) (i : nat)
  (pl ps : ForecastPoint) :
  nth_error lin i = Some pl -> nth_error sar i = Some ps ->
  nth_error (_ensemble_forecast lin sar) i = Some (blend W_SARIMA pl ps).
Proof.
  intros Hl Hs. unfold _ensemble_forecast, _ensemble_forecast_w.
  rewrite nth_error_map, (nth_error_combine lin sar i pl ps Hl Hs).
  reflexivity.
Qed.

(** C4 (counterexample).  With a trend prediction of 100.00 and a seasonal
    prediction of 100.01 the weighted mean is 100.0065, but the ensemble
    emits 100.01: the blended fields are rounded to two decimals. *)
Lemma ensemble_not_exact_mean :
  let trend := mkPoint 2024 1 (inject_Z 100) (inject_Z 90) (inject_Z 110)
                 CONFIDENCE in
  let seasonal := mkPoint 2024 1 (10001 # 100) (inject_Z 90) (inject_Z 110)
                    CONFIDENCE in
  exists pe,
    _ensemble_forecast [trend] [seasonal] = [pe]
    /\ ~ (predicted_price_m2 pe
          == weighted_mean W_SARIMA (predicted_price_m2 seasonal)
               (predicted_price_m2 trend))%Q.
Proof.
  eexists. split; [reflexivity |]. vm_compute. discriminate.
Qed.

(** How far a blended field may lie from the weighted mean of its two
    operands: half a cent for the rounding, and a billionth of the
    operands' magnitudes, which covers the error of the floating-point
    products and sum many times over. *)
Definition margin (seasonal trend : Q) : Q :=
  ((5 # 1000) + (Qabs seasonal + Qabs trend) * (1 # 1000000000))%Q.

(** [x] is the weighted mean of [seasonal] and [trend] rounded to two
    decimals, whichever way a tie falls: a two-decimal value no further
    than [margin] from the mean. *)
Definition rounded_mean (x seasonal trend : Q) : Prop :=
  round2 x = x
  /\ (weighted_mean (65 # 100) seasonal trend - margin seasonal trend
      <= x)%Q
  /\ (x <= weighted_mean (65 # 100) seasonal trend
           + margin seasonal trend)%Q.

Lemma round2_rounded_mean (seasonal trend : Q) :
  rounded_mean (round2 (weighted_mean (65 # 100) seasonal trend))
    seasonal trend.
Proof.
  unfold rounded_mean, margin.
  pose proof (NumFacts.round2_near (weighted_mean (65 # 100) seasonal trend))
    as [H1 H2].
  pose proof (Qabs_nonneg seasonal). pose proof (Qabs_nonneg trend).
  split; [apply NumFacts.round2_idem |]. split; lra.
Qed.

(** C4 (amended).  For trend and seasonal sequences of equal length the
    ensemble has that length, and at every position its predicted, lower
    and upper fields are the weighted mean 0.65 * seasonal + 0.35 * trend
    of the corresponding fields rounded to two decimals (a two-decimal
    value within half a cent of the mean, up to floating-point error),
    while year, quarter and confidence level are those of the trend
    point. *)
Theorem ensemble_rounded_weighted_mean (lin sar : list ForecastPoint) :
  length lin = length sar ->
  length (_ensemble_forecast lin sar) = length lin
  /\ forall i pl ps,
       nth_error lin i = Some pl -> nth_error sar i = Some ps ->
       exists pe,
         nth_error (_ensemble_forecast lin sar) i = Some pe
         /\ rounded_mean (predicted_price_m2 pe)
              (predicted_price_m2 ps) (predicted_price_m2 pl)
         /\ rounded_mean (lower_bound pe) (lower_bound ps) (lower_bound pl)
         /\ rounded_mean (upper_bound pe) (upper_bound ps) (upper_bound pl)
         /\ year pe = year pl
         /\ quarter pe = quarter pl
         /\ confidence_level pe = confidence_level pl.
Proof.
  intros Hlen. split.
  - unfold _ensemble_forecast, _ensemble_forecast_w.
    rewrite length_map, length_combine. lia.
  - intros i pl ps Hl Hs. exists (blend W_SARIMA pl ps).
    split; [apply ensemble_nth; assumption |].
    destruct (blend_fields W_SARIMA pl ps) as (Hp & Hlo & Hup).
    rewrite Hp, Hlo, Hup. unfold W_SARIMA.
    split; [apply round2_rounded_mean |].
    split; [apply round2_rounded_mean |].
    split; [apply round2_rounded_mean |].
    unfold blend. cbn [year quarter confidence_level]. auto.
Qed.

Lemma ensemble_rounded_weighted_mean_witness :
  let pl := mkPoint 2024 1 (inject_Z 3700) (inject_Z 3600) (inject_Z 3800)
              CONFIDENCE in
  let ps := mkPoint 2024 1 (37001 # 10) (inject_Z 3650) (inject_Z 3750)
              CONFIDENCE in
  exists pe,
    nth_error (_ensemble_forecast [pl] [ps]) 0 = Some pe
    /\ round2 (predicted_price_m2 pe) = predicted_price_m2 pe
    /\ (3700059 # 1000 <= predicted_price_m2 pe <= 3700071 # 1000)%Q
    /\ round2 (lower_bound pe) = lower_bound pe
    /\ (3632494 # 1000 <= lower_bound pe <= 3632506 # 1000)%Q
    /\ round2 (upper_bound pe) = upper_bound pe
    /\ (3767494 # 1000 <= upper_bound pe <= 3767506 # 1000)%Q
    /\ (year pe, quarter pe, confidence_level pe) = (2024, 1, CONFIDENCE).
Proof.
  intros pl ps.
  destruct (ensemble_rounded_weighted_mean [pl] [ps] eq_refl) as [_ H].
  destruct (H 0%nat pl ps eq_refl eq_refl)
    as (pe & Hn & (Hp1 & Hp2 & Hp3) & (Hl1 & Hl2 & Hl3)
        & (Hu1 & Hu2 & Hu3) & Hy & Hq & Hc).
  exists pe. split; [exact Hn |].
  unfold weighted_mean, margin in *.
  cbn [predicted_price_m2 lower_bound upper_bound year quarter
       confidence_level pl ps] in *.
  unfold inject_Z, Qabs in *. cbn [Z.abs] in *.
  split; [exact Hp1 |]. split; [split; lra |].
  split; [exact Hl1 |]. split; [split; lra |].
  split; [exact Hu1 |]. split; [split; lra |].
  rewrite Hy, Hq, Hc. reflexivity.
Defined.

(** A point whose numeric fields are already two-decimal values, as every
    point built by the trend and seasonal models is. *)
Definition rounded_point (pt : ForecastPoint) : Prop :=
  round2 (predicted_price_m2 pt) = predicted_price_m2 pt
  /\ round2 (lower_bound pt) = lower_bound pt
  /\ round2 (upper_bound pt) = upper_bound pt.

Lemma blend_self (pt : ForecastPoint) :
  rounded_point pt -> blend W_SARIMA pt pt = pt.
Proof.
  intros (H1 & H2 & H3). destruct pt as [y q pr lo up c].
  cbn [predicted_price_m2 lower_bound upper_bound] in *.
  unfold blend. cbn [predicted_price_m2 lower_bound upper_bound year quarter
                     confidence_level].
  f_equal.
  - rewrite <- H1 at 3. apply NumFacts.round2_comp. unfold W_SARIMA. ring.
  - rewrite <- H2 at 3. apply NumFacts.round2_comp. unfold W_SARIMA. ring.
  - rewrite <- H3 at 3. apply NumFacts.round2_comp. unfold W_SARIMA. ring.
Qed.

Lemma linear_forecast_rounded (L : Libraries) (ts : TimeSeries) (periods : Z)
  (fc : list ForecastPoint) :
  _linear_forecast L ts periods = Ok fc -> Forall rounded_point fc.
Proof.
  intros H. apply linear_forecast_inv in H as (_ & _ & ps & _ & ->).
  apply Forall_map, Forall_forall.
  intros [i p] _. repeat split; apply NumFacts.round2_idem.
Qed.

(** C8 (counterexample).  A point with a predicted price of 1.234 is not
    reproduced: blending the one-point sequence with itself emits 1.23. *)
Lemma ensemble_self_not_identity :
  let pt := mkPoint 2024 1 (1234 # 1000) (inject_Z 1) (inject_Z 2)
              CONFIDENCE in
  exists pe,
    _ensemble_forecast [pt] [pt] = [pe]
    /\ ~ (predicted_price_m2 pe == predicted_price_m2 pt)%Q
    /\ _ensemble_forecast [pt] [pt] <> [pt].
Proof.
  eexists. split; [reflexivity |]. split.
  - vm_compute. discriminate.
  - vm_compute. discriminate.
Qed.

(** C8 (amended).  Blending a sequence with itself returns that sequence
    when the numeric fields of its points are two-decimal values, which is
    the case of every sequence the trend and seasonal models produce. *)
Theorem ensemble_idempotent_on_rounded (fc : list ForecastPoint) :
  Forall rounded_point fc -> _ensemble_forecast fc fc = fc.
Proof.
  unfold _ensemble_forecast, _ensemble_forecast_w.
  induction 1 as [| pt fc Hpt _ IH]; [reflexivity |].
  simpl. f_equal; [apply blend_self, Hpt | exact IH].
Qed.

Lemma ensemble_idempotent_on_rounded_witness :
  let fc := [mkPoint 2024 1 (inject_Z 3700) (inject_Z 3700) (inject_Z 3700)
               CONFIDENCE;
             mkPoint 2024 2 (inject_Z 3750) (inject_Z 3750) (inject_Z 3750)
               CONFIDENCE] in
  Forall rounded_point fc /\ _ensemble_forecast fc fc = fc.
Proof.
  intros fc.
  assert (Hr : Forall rounded_point fc)
    by (repeat constructor; vm_compute; reflexivity).
  split; [exact Hr | apply (ensemble_idempotent_on_rounded fc Hr)].
Defined.

(* ------------------------------------------------------------------ *)
(** * Sessions, commits and ordering *)

Lemma database_eta (db : Database) :
  {| districts := districts db;
     sale_prices := sale_prices db;
     price_forecasts := price_forecasts db |} = db.
Proof. destruct db. reflexivity. Qed.

Lemma commit_begin (now : Z) (db : Database) : commit now (begin db) = Ok db.
Proof. unfold commit, begin. simpl. rewrite database_eta. reflexivity. Qed.

(** A body that only reads leaves the database as it was. *)
Lemma db_session_read_only {A : Type} (now : Z) (db : Database)
  (f : Session -> A) :
  db_session now (fun s => Ok (f s, s)) db = (Ok (f (begin db)), db).
Proof. unfold db_session. rewrite commit_begin. reflexivity. Qed.

(** A raising body leaves the database as it was. *)
Lemma db_session_raise {A : Type} (now : Z) (db : Database)
  (body : Session -> result (A * Session)) (e : exn) :
  body (begin db) = Raise e -> db_session now body db = (Raise e, db).
Proof. unfold db_session. intros ->. reflexivity. Qed.

Section OrderByFacts.
Context {A : Type} (key : A -> Z * Z).

Lemma insert_by_In (x y : A) (xs : list A) :
  In y (insert_by key x xs) <-> y = x \/ In y xs.
Proof.
  induction xs as [| z xs IH]; simpl.
  - intuition congruence.
  - destruct (period_leb (key z) (key x)); simpl; rewrite ?IH;
      intuition congruence.
Qed.

Lemma insert_by_length (x : A) (xs : list A) :
  length (insert_by key x xs) = S (length xs).
Proof.
  induction xs as [| z xs IH]; simpl; [reflexivity |].
  destruct (period_leb (key z) (key x)); simpl; [rewrite IH |]; reflexivity.
Qed.

Lemma order_by_acc_In (y : A) (xs acc : list A) :
  In y (fold_left (fun acc x => insert_by key x acc) xs acc)
  <-> In y xs \/ In y acc.
Proof.
  revert acc. induction xs as [| x xs IH]; intros acc; simpl.
  - intuition.
  - rewrite IH, insert_by_In. intuition congruence.
Qed.

Lemma order_by_In (y : A) (xs : list A) :
  In y (order_by key xs) <-> In y xs.
Proof. unfold order_by. rewrite order_by_acc_In. simpl. intuition. Qed.

Lemma order_by_acc_length (xs acc : list A) :
  length (fold_left (fun acc x => insert_by key x acc) xs acc)
  = (length xs + length acc)%nat.
Proof.
  revert acc. induction xs as [| x xs IH]; intros acc; simpl;
    [reflexivity |].
  rewrite IH, insert_by_length. lia.
Qed.

Lemma order_by_length (xs : list A) :
  length (order_by key xs) = length xs.
Proof. unfold order_by. rewrite order_by_acc_length. simpl. lia. Qed.

End OrderByFacts.

(* ------------------------------------------------------------------ *)
(** * Insufficient data *)

(** C6. When the series loaded for the district has fewer than four
    observations, [forecast_district] returns the empty list without
    raising and the database afterwards is the database before: no
    forecast row is created or modified. *)
Theorem forecast_district_insufficient_data (L : Libraries)
  (district_code : string) (periods now : Z) (db : Database)
  (district : District.t) (ts : TimeSeries) :
  first (filter (fun d => String.eqb (District.code d) district_code)
                (districts db)) = Some district ->
  _load_time_series (begin db) (District.id district) = Ok ts ->
  len ts < 4 ->
  forecast_district L district_code periods now db = (Ok [], db).
Proof.
  intros Hd Hts Hlen. unfold forecast_district, db_session.
  cbn [begin loaded]. rewrite Hd.
  unfold _forecast_district. rewrite Hts. cbn [bind].
  apply Z.ltb_lt in Hlen. rewrite Hlen.
  rewrite commit_begin. reflexivity.
Qed.

(** A database with two districts: "01" has the four quarters of 2023,
    "02" only three of them. *)
Definition sample_db : Database :=
  {| districts := [District.mk 1 "01"; District.mk 2 "02"];
     sale_prices :=
       [SalePrice.mk 1 2023 1 (inject_Z 3500) "all";
        SalePrice.mk 1 2023 2 (inject_Z 3550) "all";
        SalePrice.mk 1 2023 3 (inject_Z 3600) "all";
        SalePrice.mk 1 2023 4 (inject_Z 3650) "all";
        SalePrice.mk 2 2023 1 (inject_Z 2500) "all";
        SalePrice.mk 2 2023 2 (inject_Z 2550) "all";
        SalePrice.mk 2 2023 3 (inject_Z 2600) "all"];
     price_forecasts := [] |}.

Lemma forecast_district_insufficient_data_witness :
  forecast_district reference "02" 8 1700000000 sample_db
  = (Ok [], sample_db).
Proof.
  apply (forecast_district_insufficient_data reference "02" 8 1700000000
           sample_db (District.mk 2 "02")
           [(212, inject_Z 2500); (213, inject_Z 2550);
            (214, inject_Z 2600)]).
  - reflexivity.
  - reflexivity.
  - reflexivity.
Defined.

(* ------------------------------------------------------------------ *)
(** * Reading stored forecasts *)

(** C10. When the district code matches no district, the district filter
    is not applied: the call returns what the call without a district code
    returns, namely the stored forecasts of the requested model for all
    districts, each stored row of that model being present, and it does
    not raise or change the database. *)
Theorem get_stored_forecasts_unknown_district (district_code : string)
  (model_name : string) (now : Z) (db : Database) :
  first (filter (fun d => String.eqb (District.code d) district_code)
                (districts db)) = None ->
  get_stored_forecasts (Some district_code) model_name now db
  = get_stored_forecasts None model_name now db
  /\ exists rows,
       get_stored_forecasts (Some district_code) model_name now db
       = (Ok rows, db)
       /\ length rows
          = length (filter (fun f => String.eqb (PriceForecast.model_name f)
                                                model_name)
                           (price_forecasts db))
       /\ forall f, In f (price_forecasts db) ->
                    PriceForecast.model_name f = model_name ->
                    In (_forecast_to_dict f) rows.
Proof.
  intros Hd. unfold get_stored_forecasts.
  rewrite !(db_session_read_only now db). cbn [begin loaded].
  rewrite Hd. destruct (truthy (Some district_code)).
  - split; [reflexivity |]. eexists. split; [reflexivity |]. split.
    + rewrite length_map, order_by_length. reflexivity.
    + intros f Hf Hm. apply in_map, order_by_In, filter_In.
      split; [exact Hf |]. rewrite Hm. apply String.eqb_refl.
  - split; [reflexivity |]. eexists. split; [reflexivity |]. split.
    + rewrite length_map, order_by_length. reflexivity.
    + intros f Hf Hm. apply in_map, order_by_In, filter_In.
      split; [exact Hf |]. rewrite Hm. apply String.eqb_refl.
Qed.

(* ------------------------------------------------------------------ *)
(** * Persistence *)

Definition forecasts (s : Session) : list PriceForecast.t :=
  price_forecasts (loaded s).

(** At most one stored row per (district, model, year, quarter). *)
Definition unique_keys (table : list PriceForecast.t) : Prop :=
  NoDup (map PriceForecast.key table).

(** The session still sees the same districts, sale prices and forecast
    keys. *)
Definition same_tables (s s' : Session) : Prop :=
  districts (loaded s') = districts (loaded s)
  /\ sale_prices (loaded s') = sale_prices (loaded s)
  /\ map PriceForecast.key (forecasts s') = map PriceForecast.key (forecasts s).

Lemma same_tables_refl (s : Session) : same_tables s s.
Proof. repeat split. Qed.

Lemma same_tables_trans (s1 s2 s3 : Session) :
  same_tables s1 s2 -> same_tables s2 s3 -> same_tables s1 s3.
Proof.
  intros (A1 & A2 & A3) (B1 & B2 & B3). repeat split; congruence.
Qed.

Lemma key_eqb_eq (a b : Z * string * Z * Z) :
  PriceForecast.key_eqb a b = true <-> a = b.
Proof.
  destruct a as [[[d1 m1] y1] q1], b as [[[d2 m2] y2] q2].
  unfold PriceForecast.key_eqb.
  rewrite !andb_true_iff, !Z.eqb_eq, String.eqb_eq.
  split.
  - intros [[[-> ->] ->] ->]. reflexivity.
  - intros [= -> -> -> ->]. auto.
Qed.

Lemma matches_key (district_id : Z) (model_name : string)
  (row : ForecastPoint) (f : PriceForecast.t) :
  matches district_id model_name row f = true
  <-> PriceForecast.key f = (district_id, model_name, year row, quarter row).
Proof. unfold matches. apply key_eqb_eq. Qed.

Lemma assign_key (f : PriceForecast.t) (row : ForecastPoint) (now : Z) :
  PriceForecast.key (assign f row now) = PriceForecast.key f.
Proof. reflexivity. Qed.

Lemma stamp_key (now : Z) (f : PriceForecast.t) :
  PriceForecast.key (stamp now f) = PriceForecast.key f.
Proof. unfold stamp. destruct (PriceForecast.generated_at f); reflexivity. Qed.

Lemma first_filter_Some {A : Type} (p : A -> bool) (xs : list A) (x : A) :
  In x xs -> p x = true -> exists y, first (filter p xs) = Some y.
Proof.
  intros Hx Hp.
  assert (H : In x (filter p xs)) by (apply filter_In; auto).
  destruct (filter p xs) as [| y ys]; [destruct H | simpl; eauto].
Qed.

Lemma first_filter_None {A : Type} (p : A -> bool) (xs : list A) :
  first (filter p xs) = None -> forall x, In x xs -> p x = false.
Proof.
  intros H x Hx. destruct (p x) eqn:E; [| reflexivity].
  destruct (first_filter_Some p xs x Hx E) as [y Hy]. congruence.
Qed.

Section Overwrite.

Variables (district_id : Z) (model_name : string) (row : ForecastPoint)
  (now : Z).

Lemma overwrite_first_keys (table : list PriceForecast.t) :
  map PriceForecast.key (overwrite_first district_id model_name row now table)
  = map PriceForecast.key table.
Proof.
  induction table as [| f table IH]; simpl; [reflexivity |].
  destruct (matches district_id model_name row f); simpl.
  - rewrite assign_key. reflexivity.
  - rewrite IH. reflexivity.
Qed.

(** The matching row is replaced by its overwritten version. *)
Lemma overwrite_first_hit (table : list PriceForecast.t) (f : PriceForecast.t) :
  In f table -> matches district_id model_name row f = true ->
  exists g, In g table
            /\ matches district_id model_name row g = true
            /\ In (assign g row now)
                  (overwrite_first district_id model_name row now table).
Proof.
  induction table as [| h table IH]; intros Hin Hm; [destruct Hin |].
  simpl. destruct (matches district_id model_name row h) eqn:Eh.
  - exists h. simpl. auto.
  - destruct Hin as [-> | Hin]; [congruence |].
    destruct (IH Hin Hm) as (g & Hg & Hgm & Hga).
    exists g. simpl. auto.
Qed.

(** Rows with another key are left alone. *)
Lemma overwrite_first_others (table : list PriceForecast.t)
  (g : PriceForecast.t) :
  matches district_id model_name row g = false ->
  In g (overwrite_first district_id model_name row now table) <-> In g table.
Proof.
  intros Hg. induction table as [| h table IH]; simpl; [reflexivity |].
  destruct (matches district_id model_name row h) eqn:Eh; simpl.
  - split; intros [H | H]; auto.
    + exfalso. subst g.
      assert (Hk : matches district_id model_name row (assign h row now)
                   = true).
      { apply matches_key. rewrite assign_key. apply matches_key, Eh. }
      congruence.
    + subst g. congruence.
  - rewrite IH. reflexivity.
Qed.

End Overwrite.

Section SaveFacts.

Variable L : Libraries.

Lemma save_forecast_same_tables (s : Session) (district_id : Z)
  (model_name : string) (row : ForecastPoint) (now : Z) :
  same_tables s (_save_forecast s district_id model_name row now).
Proof.
  unfold _save_forecast, same_tables, forecasts.
  destruct (first (filter (matches district_id model_name row)
                          (price_forecasts (loaded s)))); simpl.
  - rewrite overwrite_first_keys. auto.
  - auto.
Qed.

Lemma save_rows_same_tables (fc : list ForecastPoint) (s : Session)
  (district : District.t) (model_name : string) (now : Z)
  (all_rows : list ForecastRow) :
  same_tables s (fst (save_rows s district model_name fc now all_rows)).
Proof.
  revert s all_rows. induction fc as [| row fc IH]; intros s all_rows; simpl.
  - apply same_tables_refl.
  - eapply same_tables_trans; [apply save_forecast_same_tables | apply IH].
Qed.

Lemma save_models_same_tables (models : list (string * list ForecastPoint))
  (s : Session) (district : District.t) (now : Z)
  (all_rows : list ForecastRow) :
  same_tables s (fst (save_models s district models now all_rows)).
Proof.
  revert s all_rows.
  induction models as [| [m fc] models IH]; intros s all_rows; simpl.
  - apply same_tables_refl.
  - pose proof (save_rows_same_tables fc s district m now all_rows) as H.
    destruct (save_rows s district m fc now all_rows) as [s' rows'].
    eapply same_tables_trans; [exact H | apply IH].
Qed.

Lemma forecast_district_same_tables (s s' : Session) (district : District.t)
  (periods now : Z) (rows : list ForecastRow) :
  _forecast_district L s district periods now = Ok (rows, s') ->
  same_tables s s'.
Proof.
  unfold _forecast_district.
  destruct (_load_time_series s (District.id district)) as [ts |];
    [| discriminate].
  cbn [bind]. destruct (len ts <? 4).
  - intros [= _ <-]. apply same_tables_refl.
  - destruct (run_models L ts periods) as [[[lin sar] ens] |];
      [| discriminate].
    cbn [bind].
    pose proof (save_models_same_tables
                  [("linear"%string, lin); ("sarima"%string, sar);
                   ("ensemble"%string, ens)] s district now []) as H.
    destruct (save_models s district _ now []) as [s'' all_rows].
    intros [= _ <-]. exact H.
Qed.

Lemma forecast_each_same_tables (ds : list District.t) (s s' : Session)
  (periods now : Z) (results results' : list (string * list ForecastRow)) :
  forecast_each L s ds periods now results = Ok (results', s') ->
  same_tables s s'.
Proof.
  revert s results. induction ds as [| d ds IH]; intros s results; simpl.
  - intros [= _ <-]. apply same_tables_refl.
  - destruct (_forecast_district L s d periods now) as [[rows s1] |] eqn:E;
      [| discriminate].
    cbn [bind]. intros H.
    eapply same_tables_trans.
    + eapply forecast_district_same_tables. exact E.
    + eapply IH. exact H.
Qed.

End SaveFacts.

(** Flushing keeps the keys unique: the constraint rejects a duplicate. *)
Lemma insert_forecast_unique (now : Z) (table table' : list PriceForecast.t)
  (f : PriceForecast.t) :
  unique_keys table -> insert_forecast now table f = Ok table' ->
  unique_keys table'.
Proof.
  unfold insert_forecast, unique_keys. intros Hu.
  destruct (existsb _ table) eqn:E; [discriminate |].
  intros [= <-]. rewrite map_app. apply NoDup_app.
  - exact Hu.
  - simpl. constructor; [intros [] | constructor].
  - intros k Hk [Hk' | []]. rewrite stamp_key in Hk'. subst k.
    apply in_map_iff in Hk as (g & Hg & Hin).
    assert (Hex : existsb (fun g => PriceForecast.key_eqb
                                      (PriceForecast.key g)
                                      (PriceForecast.key f)) table = true).
    { apply existsb_exists. exists g. split; [exact Hin |].
      apply key_eqb_eq. exact Hg. }
    congruence.
Qed.

Lemma flush_unique (now : Z) (new : list PriceForecast.t)
  (table table' : list PriceForecast.t) :
  unique_keys table -> flush now table new = Ok table' -> unique_keys table'.
Proof.
  revert table. induction new as [| f new IH]; intros table Hu; simpl.
  - intros [= <-]. exact Hu.
  - destruct (insert_forecast now table f) as [t1 |] eqn:E; [| discriminate].
    cbn [bind]. apply IH. eapply insert_forecast_unique; eassumption.
Qed.

(** A session whose body keeps the forecast keys keeps them unique across
    the commit, whether it commits or rolls back. *)
Lemma db_session_unique {A : Type} (now : Z) (db : Database)
  (body : Session -> result (A * Session)) :
  (forall a s, body (begin db) = Ok (a, s) -> same_tables (begin db) s) ->
  unique_keys (price_forecasts db) ->
  unique_keys (price_forecasts (snd (db_session now body db))).
Proof.
  intros Hbody Hu. unfold db_session.
  destruct (body (begin db)) as [[a s] |] eqn:E; [| exact Hu].
  destruct (commit now s) as [db' |] eqn:Ec; [| exact Hu].
  unfold commit in Ec.
  destruct (flush now (price_forecasts (loaded s)) (pending s))
    as [table |] eqn:Ef; [| discriminate].
  cbn [bind] in Ec. injection Ec as <-. cbn [snd price_forecasts].
  eapply flush_unique; [| exact Ef].
  destruct (Hbody a s eq_refl) as (_ & _ & Hk). unfold unique_keys.
  unfold forecasts in Hk. rewrite Hk. exact Hu.
Qed.

Lemma unique_keys_inj (table : list PriceForecast.t) (a b : PriceForecast.t) :
  unique_keys table -> In a table -> In b table ->
  PriceForecast.key a = PriceForecast.key b -> a = b.
Proof.
  unfold unique_keys. induction table as [| h table IH]; simpl;
    [intros _ [] |].
  intros Hu Ha Hb Hk. apply NoDup_cons_iff in Hu as [Hnot Hu].
  destruct Ha as [-> | Ha], Hb as [-> | Hb].
  - reflexivity.
  - exfalso. apply Hnot. rewrite Hk. apply in_map, Hb.
  - exfalso. apply Hnot. rewrite <- Hk. apply in_map, Ha.
  - apply IH; assumption.
Qed.

(* ------------------------------------------------------------------ *)
(** * Regeneration is accepted by the unique constraint *)

(** The key under which [_save_forecast] stores a point. *)
Definition row_key (district_id : Z) (model_name : string)
  (row : ForecastPoint) : Z * string * Z * Z :=
  (district_id, model_name, year row, quarter row).

(** No key occurs twice among the stored rows and the rows waiting to be
    inserted: the flush at commit will be accepted. *)
Definition fresh (s : Session) : Prop :=
  NoDup (map PriceForecast.key (forecasts s)
         ++ map PriceForecast.key (pending s)).

Lemma NoDup_snoc {A : Type} (l : list A) (x : A) :
  NoDup l -> ~ In x l -> NoDup (l ++ [x]).
Proof.
  intros Hl Hx. apply NoDup_app.
  - exact Hl.
  - constructor; [intros [] | constructor].
  - intros y Hy [<- | []]. exact (Hx Hy).
Qed.

Lemma NoDup_map_inj {A B : Type} (f : A -> B) (l : list A) :
  (forall x y, In x l -> In y l -> f x = f y -> x = y) ->
  NoDup l -> NoDup (map f l).
Proof.
  induction l as [| a l IH]; intros Hinj Hl; simpl; [constructor |].
  apply NoDup_cons_iff in Hl as [Ha Hl]. constructor.
  - intros Hin. apply in_map_iff in Hin as (b & Hb & Hbl).
    assert (b = a) by (apply Hinj; simpl; auto). subst b. exact (Ha Hbl).
  - apply IH; [| exact Hl]. intros x y Hx Hy. apply Hinj; simpl; auto.
Qed.

Lemma flush_fresh (now : Z) (new table : list PriceForecast.t) :
  NoDup (map PriceForecast.key table ++ map PriceForecast.key new) ->
  exists table',
    flush now table new = Ok table'
    /\ map PriceForecast.key table'
       = map PriceForecast.key table ++ map PriceForecast.key new.
Proof.
  revert table. induction new as [| f new IH]; intros table Hnd; simpl.
  - exists table. rewrite app_nil_r. auto.
  - unfold insert_forecast.
    assert (Hf : ~ In (PriceForecast.key f) (map PriceForecast.key table)).
    { intros Hin. apply NoDup_remove_2 in Hnd. apply Hnd.
      apply in_or_app. left. exact Hin. }
    destruct (existsb _ table) eqn:E.
    + exfalso. apply existsb_exists in E as (g & Hg & Hk).
      apply key_eqb_eq in Hk. apply Hf. rewrite <- Hk. apply in_map, Hg.
    + cbn [bind].
      destruct (IH (table ++ [stamp now f])) as (table' & Hfl & Hk).
      { rewrite map_app. simpl. rewrite stamp_key, <- app_assoc. exact Hnd. }
      exists table'. split; [exact Hfl |].
      rewrite Hk, map_app. simpl. rewrite stamp_key, <- app_assoc.
      reflexivity.
Qed.

Section CommitFacts.

Variable L : Libraries.

(** Saving a point whose key is not waiting to be inserted keeps the
    session fresh, and adds at most that key to the waiting rows. *)
Lemma save_forecast_fresh (s : Session) (district_id : Z)
  (model_name : string) (row : ForecastPoint) (now : Z) :
  fresh s ->
  ~ In (row_key district_id model_name row)
       (map PriceForecast.key (pending s)) ->
  let s' := _save_forecast s district_id model_name row now in
  fresh s'
  /\ incl (map PriceForecast.key (pending s'))
          (map PriceForecast.key (pending s)
           ++ [row_key district_id model_name row]).
Proof.
  intros Hfr Hnew. unfold _save_forecast, fresh, forecasts in *.
  destruct (first (filter (matches district_id model_name row)
                          (price_forecasts (loaded s)))) eqn:E; simpl.
  - rewrite overwrite_first_keys. split; [exact Hfr |].
    apply incl_appl, incl_refl.
  - rewrite map_app. simpl. split; [| apply incl_refl].
    rewrite app_assoc. apply NoDup_snoc; [exact Hfr |].
    intros Hin. apply in_app_or in Hin as [Hin | Hin]; [| exact (Hnew Hin)].
    apply in_map_iff in Hin as (g & Hg & Hgin).
    pose proof (first_filter_None _ _ E g Hgin) as Hm.
    assert (Hm' : matches district_id model_name row g = true)
      by (apply matches_key; exact Hg).
    congruence.
Qed.

Lemma save_rows_fresh (district : District.t) (model_name : string)
  (now : Z) (fc : list ForecastPoint) (s : Session)
  (all_rows : list ForecastRow) :
  fresh s ->
  NoDup (periods_of fc) ->
  (forall r, In r fc ->
             ~ In (row_key (District.id district) model_name r)
                  (map PriceForecast.key (pending s))) ->
  let s' := fst (save_rows s district model_name fc now all_rows) in
  fresh s'
  /\ incl (map PriceForecast.key (pending s'))
          (map PriceForecast.key (pending s)
           ++ map (row_key (District.id district) model_name) fc).
Proof.
  revert s all_rows.
  induction fc as [| row fc IH]; intros s all_rows Hfr Hnd Hnew; simpl.
  - split; [exact Hfr |]. rewrite app_nil_r. apply incl_refl.
  - apply NoDup_cons_iff in Hnd as [Hrow Hnd].
    destruct (save_forecast_fresh s (District.id district) model_name row now
                Hfr (Hnew row (or_introl eq_refl))) as [Hfr1 Hincl1].
    destruct (IH (_save_forecast s (District.id district) model_name row now)
                (all_rows ++ [mkRow row model_name (District.code district)])
                Hfr1 Hnd) as [Hfr' Hincl'].
    { intros r Hr Hin. apply Hincl1 in Hin.
      apply in_app_or in Hin as [Hin | [Hin | []]].
      - exact (Hnew r (or_intror Hr) Hin).
      - apply Hrow. injection Hin as Hy Hq.
        apply in_map_iff. exists r. split; [| exact Hr]. congruence. }
    split; [exact Hfr' |].
    intros k Hk. apply Hincl' in Hk.
    apply in_app_or in Hk as [Hk | Hk].
    + apply Hincl1 in Hk. apply in_app_or in Hk as [Hk | [<- | []]].
      * apply in_or_app. left. exact Hk.
      * apply in_or_app. right. left. reflexivity.
    + apply in_or_app. right. right. exact Hk.
Qed.

Lemma save_models_fresh (district : District.t) (now : Z)
  (models : list (string * list ForecastPoint)) (s : Session)
  (all_rows : list ForecastRow) :
  fresh s ->
  NoDup (map fst models) ->
  (forall m fc, In (m, fc) models -> NoDup (periods_of fc)) ->
  (forall m fc r, In (m, fc) models -> In r fc ->
                  ~ In (row_key (District.id district) m r)
                       (map PriceForecast.key (pending s))) ->
  fresh (fst (save_models s district models now all_rows)).
Proof.
  revert s all_rows.
  induction models as [| [m fc] models IH];
    intros s all_rows Hfr Hnames Hper Hnew; simpl; [exact Hfr |].
  apply NoDup_cons_iff in Hnames as [Hm Hnames].
  destruct (save_rows_fresh district m now fc s all_rows Hfr
              (Hper m fc (or_introl eq_refl))
              (fun r Hr => Hnew m fc r (or_introl eq_refl) Hr))
    as [Hfr1 Hincl1].
  destruct (save_rows s district m fc now all_rows) as [s1 rows1].
  cbn [fst] in Hfr1, Hincl1.
  apply IH; [exact Hfr1 | exact Hnames | |].
  - intros m' fc' Hin. apply (Hper m' fc'). right. exact Hin.
  - intros m' fc' r Hin Hr Hk. apply Hincl1 in Hk.
    apply in_app_or in Hk as [Hk | Hk].
    + exact (Hnew m' fc' r (or_intror Hin) Hr Hk).
    + apply in_map_iff in Hk as (r0 & Hr0 & _). injection Hr0 as Hmm _ _.
      apply Hm. rewrite Hmm. apply (in_map fst _ _ Hin).
Qed.

Lemma period_pair_inj (a b : Period.t) :
  period_pair a = period_pair b -> a = b.
Proof.
  unfold period_pair. intros [= Hy Hq].
  exact (PeriodFacts.year_quarter_inj a b Hy Hq).
Qed.

(** The future periods are pairwise distinct quarters. *)
Lemma next_periods_NoDup (ts : TimeSeries) (n : Z) (ps : list Period.t) :
  _next_periods ts n = Ok ps -> NoDup (map period_pair ps).
Proof.
  unfold _next_periods. destruct (rev ts) as [| [p v] r]; [discriminate |].
  intros [= <-]. unfold range. rewrite !map_map.
  apply NoDup_map_inj; [| apply seq_NoDup].
  intros x y _ _ H. apply period_pair_inj in H. unfold Period.add in H. lia.
Qed.

(** The three forecasts of a run cover the same future periods. *)
Lemma run_models_periods_of (ts : TimeSeries) (periods : Z)
  (lin sar ens : list ForecastPoint) :
  run_models L ts periods = Ok (lin, sar, ens) ->
  exists ps,
    _next_periods ts periods = Ok ps
    /\ periods_of lin = map period_pair ps
    /\ periods_of sar = map period_pair ps
    /\ periods_of ens = map period_pair ps.
Proof.
  unfold run_models.
  destruct (_linear_forecast L ts periods) as [fc |] eqn:El; [| discriminate].
  cbn [bind].
  destruct (linear_forecast_inv L _ _ _ El) as (_ & _ & ps & Hps & _).
  pose proof (linear_forecast_periods_of L _ _ _ _ Hps El) as Hlin.
  assert (Hsar : forall fs,
             (if MIN_POINTS_SARIMA <=? len ts
              then _sarima_forecast L ts periods else Ok fc) = Ok fs ->
             periods_of fs = map period_pair ps).
  { intros fs. destruct (MIN_POINTS_SARIMA <=? len ts).
    - unfold _sarima_forecast.
      destruct (sarima_try L ts periods) as [ft |] eqn:Es.
      + intros [= <-]. exact (sarima_try_periods_of L _ _ _ _ Hps Es).
      + rewrite El. intros [= <-]. exact Hlin.
    - intros [= <-]. exact Hlin. }
  destruct (if MIN_POINTS_SARIMA <=? len ts
            then _sarima_forecast L ts periods else Ok fc) as [fs |];
    [| discriminate].
  cbn [bind]. intros [= <- <- <-]. exists ps.
  pose proof (Hsar fs eq_refl) as Hs.
  repeat split; try assumption.
  rewrite ensemble_periods_of; [exact Hlin |].
  rewrite <- (length_map (fun pt => (year pt, quarter pt)) fc).
  rewrite <- (length_map (fun pt => (year pt, quarter pt)) fs).
  fold (periods_of fc) (periods_of fs). congruence.
Qed.

(** Forecasting a district in a session with nothing waiting to be
    inserted leaves a session whose flush will be accepted. *)
Lemma forecast_district_fresh (s s' : Session) (district : District.t)
  (periods now : Z) (rows : list ForecastRow) :
  unique_keys (forecasts s) -> pending s = [] ->
  _forecast_district L s district periods now = Ok (rows, s') ->
  fresh s'.
Proof.
  intros Hu Hp.
  assert (Hfr : fresh s).
  { unfold fresh. rewrite Hp. simpl. rewrite app_nil_r. exact Hu. }
  unfold _forecast_district.
  destruct (_load_time_series s (District.id district)) as [ts |];
    [| discriminate].
  cbn [bind]. destruct (len ts <? 4).
  - intros [= _ <-]. exact Hfr.
  - destruct (run_models L ts periods) as [[[lin sar] ens] |] eqn:Er;
      [| discriminate].
    cbn [bind].
    destruct (run_models_periods_of _ _ _ _ _ Er)
      as (ps & Hps & Hlin & Hsar & Hens).
    pose proof (next_periods_NoDup _ _ _ Hps) as Hnd.
    pose proof (save_models_fresh district now
                  [("linear"%string, lin); ("sarima"%string, sar);
                   ("ensemble"%string, ens)] s [] Hfr) as H.
    destruct (save_models s district _ now []) as [s'' all_rows].
    intros [= _ <-]. apply H.
    + repeat constructor; simpl; intuition discriminate.
    + intros m fc [[= <- <-] | [[= <- <-] | [[= <- <-] | []]]]; congruence.
    + intros m fc r _ _. rewrite Hp. intros [].
Qed.

End CommitFacts.

(** A regeneration is never rejected at commit: when forecasting the
    district returns, [forecast_district] returns the same rows and the
    database holds the stored keys followed by the keys that were new. *)
Lemma forecast_district_commits (L : Libraries) (district_code : string)
  (periods now : Z) (db : Database) (district : District.t)
  (rows : list ForecastRow) (s : Session) :
  unique_keys (price_forecasts db) ->
  first (filter (fun d => String.eqb (District.code d) district_code)
                (districts db)) = Some district ->
  _forecast_district L (begin db) district periods now = Ok (rows, s) ->
  exists db',
    forecast_district L district_code periods now db = (Ok rows, db')
    /\ map PriceForecast.key (price_forecasts db')
       = map PriceForecast.key (price_forecasts db)
         ++ map PriceForecast.key (pending s).
Proof.
  intros Hu Hd Hfc.
  pose proof (forecast_district_fresh L (begin db) s district periods now rows
                Hu eq_refl Hfc) as Hfr.
  destruct (forecast_district_same_tables L _ _ _ _ _ _ Hfc) as (_ & _ & Hk).
  unfold fresh in Hfr.
  destruct (flush_fresh now (pending s) (forecasts s) Hfr) as (table & Hfl & Ht).
  unfold forecast_district, db_session. cbn [begin loaded]. rewrite Hd.
  rewrite Hfc. unfold commit. unfold forecasts in Hfl. rewrite Hfl.
  cbn [bind]. eexists. split; [reflexivity |].
  cbn [price_forecasts]. rewrite Ht, Hk. reflexivity.
Qed.

(** A forecast generation: one call of the public API that writes. *)
Inductive generation : Type :=
| ForecastDistrict (district_code : string) (periods now : Z)
| ForecastAll (periods now : Z).

(** The database after a generation, whether it returned or raised. *)
Definition generate (L : Libraries) (g : generation) (db : Database)
  : Database :=
  match g with
  | ForecastDistrict district_code periods now =>
      snd (forecast_district L district_code periods now db)
  | ForecastAll periods now =>
      snd (forecast_all_districts L periods now db)
  end.


Lemma generate_unique (L : Libraries) (g : generation) (db : Database) :
  unique_keys (price_forecasts db) ->
  unique_keys (price_forecasts (generate L g db)).
Proof.
  intros Hu. destruct g as [code periods now | periods now]; simpl.
  - unfold forecast_district. apply db_session_unique; [| exact Hu].
    intros rows s.
    destruct (first (filter _ (districts (loaded (begin db)))))
      as [district |].
    + apply forecast_district_same_tables.
    + intros [= _ <-]. apply same_tables_refl.
  - unfold forecast_all_districts. apply db_session_unique; [| exact Hu].
    intros rows s. apply forecast_each_same_tables.
Qed.


(** The stored forecasts of district "01" after a first generation at time
    100: two quarters for each of the three models. *)
Definition stored_db : Database :=
  generate reference (ForecastDistrict "01" 2 100) sample_db.

(** Regenerating the forecasts of a district at a later time goes through:
    the six stored rows are still six and all carry the later timestamp. *)
Example regenerate_overwrites :
  let db' := generate reference (ForecastDistrict "01" 2 200) stored_db in
  fst (forecast_district reference "01" 2 200 stored_db)
  = Ok [mkRow (mkPoint 2024 1 (inject_Z 3700) (inject_Z 3700) (inject_Z 3700)
                 CONFIDENCE) "ensemble" "01";
        mkRow (mkPoint 2024 2 (inject_Z 3750) (inject_Z 3750) (inject_Z 3750)
                 CONFIDENCE) "ensemble" "01"]
  /\ length (price_forecasts stored_db) = 6%nat
  /\ length (price_forecasts db') = 6%nat
  /\ map PriceForecast.generated_at (price_forecasts stored_db)
     = repeat (Some 100) 6
  /\ map PriceForecast.generated_at (price_forecasts db')
     = repeat (Some 200) 6.
Proof. vm_compute. repeat split. Qed.

Lemma get_stored_forecasts_unknown_district_witness :
  first (filter (fun d => String.eqb (District.code d) "99")
                (districts stored_db)) = None
  /\ get_stored_forecasts (Some "99"%string) "ensemble" 300 stored_db
     = get_stored_forecasts None "ensemble" 300 stored_db
  /\ fst (get_stored_forecasts (Some "99"%string) "ensemble" 300 stored_db)
     = Ok [mkStored 2024 1 (inject_Z 3700) (inject_Z 3700) (inject_Z 3700)
             CONFIDENCE (Some 100);
           mkStored 2024 2 (inject_Z 3750) (inject_Z 3750) (inject_Z 3750)
             CONFIDENCE (Some 100)].
Proof.
  split; [reflexivity |]. split.
  - apply (get_stored_forecasts_unknown_district "99" "ensemble" 300
             stored_db). reflexivity.
  - vm_compute. reflexivity.
Defined.

(* ------------------------------------------------------------------ *)
(** * Bulk generation *)

Section BulkFacts.

Variable L : Libraries.

Lemma load_time_series_ext (s s' : Session) (district_id : Z) :
  sale_prices (loaded s') = sale_prices (loaded s) ->
  _load_time_series s' district_id = _load_time_series s district_id.
Proof. unfold _load_time_series. intros ->. reflexivity. Qed.

(** Whether forecasting a district raises depends only on the sale prices,
    which a session never changes. *)
Lemma forecast_district_raise_ext (s s' : Session) (district : District.t)
  (periods now : Z) (e : exn) :
  sale_prices (loaded s') = sale_prices (loaded s) ->
  _forecast_district L s district periods now = Raise e ->
  _forecast_district L s' district periods now = Raise e.
Proof.
  intros Hsp. unfold _forecast_district.
  rewrite (load_time_series_ext s s' _ Hsp).
  destruct (_load_time_series s (District.id district)) as [ts |];
    [| trivial].
  cbn [bind]. destruct (len ts <? 4); [discriminate |].
  destruct (run_models L ts periods) as [[[lin sar] ens] |]; [| trivial].
  cbn [bind].
  destruct (save_models s district _ now []). discriminate.
Qed.

Lemma forecast_each_raises (ds : list District.t) (s : Session)
  (periods now : Z) (results : list (string * list ForecastRow))
  (d : District.t) (e : exn) :
  In d ds ->
  _forecast_district L s d periods now = Raise e ->
  exists e', forecast_each L s ds periods now results = Raise e'.
Proof.
  revert s results. induction ds as [| x ds IH]; intros s results Hin Hd;
    [destruct Hin |].
  simpl.
  destruct (_forecast_district L s x periods now) as [[rows s1] |] eqn:Ex;
    [| cbn [bind]; eexists; reflexivity].
  cbn [bind].
  destruct Hin as [-> | Hin]; [congruence |].
  apply IH; [exact Hin |].
  apply forecast_district_same_tables in Ex. destruct Ex as (_ & Hsp & _).
  apply (forecast_district_raise_ext s); [exact Hsp | exact Hd].
Qed.

End BulkFacts.

(** A database in which district "02" has a sale price recorded for
    quarter 5, which makes loading its series raise, while district "01"
    has four valid quarters. *)
Definition bad_quarter_db : Database :=
  {| districts := [District.mk 1 "01"; District.mk 2 "02"];
     sale_prices :=
       [SalePrice.mk 1 2023 1 (inject_Z 3500) "all";
        SalePrice.mk 1 2023 2 (inject_Z 3550) "all";
        SalePrice.mk 1 2023 3 (inject_Z 3600) "all";
        SalePrice.mk 1 2023 4 (inject_Z 3650) "all";
        SalePrice.mk 2 2023 5 (inject_Z 2500) "all"];
     price_forecasts := [] |}.

(** C2 (counterexample).  District "01" can be forecast on its own and its
    six rows are then stored; but when the bulk run meets the failure of
    district "02" it raises, returns no result for any district and leaves
    the forecast table empty: the rows of district "01" are rolled back. *)
Lemma bulk_failure_aborts_all :
  (exists rows db',
     forecast_district reference "01" 2 100 bad_quarter_db = (Ok rows, db')
     /\ length rows = 2%nat
     /\ length (price_forecasts db') = 6%nat)
  /\ (exists e,
        _forecast_district reference (begin bad_quarter_db)
          (District.mk 2 "02") 2 100 = Raise e)
  /\ forecast_all_districts reference 2 100 bad_quarter_db
     = (Raise ValueError, bad_quarter_db)
  /\ price_forecasts
       (snd (forecast_all_districts reference 2 100 bad_quarter_db)) = [].
Proof.
  split; [| split; [| split]].
  - eexists _, _. split; [vm_compute; reflexivity |]. split; reflexivity.
  - eexists. vm_compute. reflexivity.
  - vm_compute. reflexivity.
  - vm_compute. reflexivity.
Qed.

(** C2 (amended).  [forecast_all_districts] forecasts all districts inside
    one session: when forecasting any one district raises, the call raises
    and the database is left exactly as it was, so no district's results
    are committed. *)
Theorem forecast_all_districts_all_or_nothing (L : Libraries)
  (periods now : Z) (db : Database) (d : District.t) (e : exn) :
  In d (districts db) ->
  _forecast_district L (begin db) d periods now = Raise e ->
  exists e', forecast_all_districts L periods now db = (Raise e', db).
Proof.
  intros Hin Hd.
  destruct (forecast_each_raises L (districts db) (begin db) periods now []
              d e Hin Hd) as [e' He'].
  exists e'. unfold forecast_all_districts.
  apply db_session_raise. exact He'.
Qed.

Lemma forecast_all_districts_all_or_nothing_witness :
  exists e',
    forecast_all_districts reference 2 100 bad_quarter_db
    = (Raise e', bad_quarter_db).
Proof.
  apply (forecast_all_districts_all_or_nothing reference 2 100
           bad_quarter_db (District.mk 2 "02") ValueError).
  - right. left. reflexivity.
  - vm_compute. reflexivity.
Defined.

(* ------------------------------------------------------------------ *)
(** * Ordering by period *)

(** The order of [ORDER BY year, quarter] as a relation. *)
Definition period_le (a b : Z * Z) : Prop :=
  fst a < fst b \/ (fst a = fst b /\ snd a <= snd b).

Lemma period_leb_spec (a b : Z * Z) :
  period_leb a b = true <-> period_le a b.
Proof.
  unfold period_leb, period_le.
  rewrite orb_true_iff, andb_true_iff, Z.ltb_lt, Z.eqb_eq, Z.leb_le.
  reflexivity.
Qed.

Lemma period_leb_false (a b : Z * Z) :
  period_leb a b = false -> period_le b a.
Proof.
  intros H.
  assert (Hn : ~ period_le a b) by (rewrite <- period_leb_spec; congruence).
  unfold period_le in *. lia.
Qed.

Lemma period_le_trans (a b c : Z * Z) :
  period_le a b -> period_le b c -> period_le a c.
Proof. unfold period_le. lia. Qed.

Lemma StronglySorted_map {A B : Type} (R : A -> A -> Prop)
  (R' : B -> B -> Prop) (f : A -> B) (l : list A) :
  (forall x y, In x l -> In y l -> R x y -> R' (f x) (f y)) ->
  StronglySorted R l -> StronglySorted R' (map f l).
Proof.
  induction l as [| a l IH]; intros Hf Hs; simpl; [constructor |].
  apply StronglySorted_inv in Hs as [Hl Ha]. constructor.
  - apply IH; [| exact Hl]. intros x y Hx Hy. apply Hf; simpl; auto.
  - apply Forall_forall. intros y Hy.
    apply in_map_iff in Hy as (x & <- & Hx).
    apply Hf; simpl; auto.
    exact (proj1 (Forall_forall _ _) Ha x Hx).
Qed.

Section OrderBySorted.
Context {A : Type} (key : A -> Z * Z).

Definition by_period (x y : A) : Prop := period_le (key x) (key y).

Lemma insert_by_sorted (x : A) (xs : list A) :
  StronglySorted by_period xs ->
  StronglySorted by_period (insert_by key x xs).
Proof.
  induction xs as [| y ys IH]; intros Hs; simpl.
  - repeat constructor.
  - apply StronglySorted_inv in Hs as [Hys Hall].
    destruct (period_leb (key y) (key x)) eqn:E.
    + constructor; [apply IH, Hys |].
      apply Forall_forall. intros z Hz.
      apply insert_by_In in Hz as [-> | Hz].
      * apply period_leb_spec, E.
      * exact (proj1 (Forall_forall _ _) Hall z Hz).
    + apply period_leb_false in E.
      constructor; [constructor; assumption |].
      constructor; [exact E |].
      apply Forall_forall. intros z Hz.
      apply (period_le_trans _ (key y)); [exact E |].
      exact (proj1 (Forall_forall _ _) Hall z Hz).
Qed.

Lemma order_by_sorted (xs : list A) :
  StronglySorted by_period (order_by key xs).
Proof.
  unfold order_by.
  assert (H : forall acc, StronglySorted by_period acc ->
                StronglySorted by_period
                  (fold_left (fun acc x => insert_by key x acc) xs acc)).
  { induction xs as [| x xs IH]; intros acc Hacc; simpl; [exact Hacc |].
    apply IH, insert_by_sorted, Hacc. }
  apply H. constructor.
Qed.

End OrderBySorted.

(* ------------------------------------------------------------------ *)
(** * Loading a series *)

(** The rows selected by the query of [_load_time_series], before they
    are ordered. *)
Definition series_rows (db : Database) (district_id : Z)
  : list SalePrice.t :=
  filter (fun r => (SalePrice.district_id r =? district_id)
                   && String.eqb (SalePrice.property_type r) "all")
         (sale_prices db).

Definition row_period (r : SalePrice.t) : result Period.t :=
  Period.make (SalePrice.year r) (SalePrice.quarter r).

Lemma combine_map_map {A B C : Type} (f : A -> B) (g : A -> C) (l : list A) :
  combine (map f l) (map g l) = map (fun x => (f x, g x)) l.
Proof. induction l as [| a l IH]; simpl; [| rewrite IH]; reflexivity. Qed.

Lemma make_valid (y q : Z) :
  1 <= q <= 4 -> Period.make y q = Ok ((y - 1970) * 4 + (q - 1)).
Proof.
  intros H. unfold Period.make.
  replace ((1 <=? q) && (q <=? 4)) with true; [reflexivity |].
  symmetry. apply andb_true_iff. split; apply Z.leb_le; lia.
Qed.

Lemma make_invalid (y q : Z) :
  ~ (1 <= q <= 4) -> Period.make y q = Raise ValueError.
Proof.
  intros H. unfold Period.make.
  destruct (Z.leb_spec 1 q), (Z.leb_spec q 4); simpl; try reflexivity.
  lia.
Qed.

Lemma traverse_row_period (rows : list SalePrice.t) :
  (forall r, In r rows -> 1 <= SalePrice.quarter r <= 4) ->
  traverse row_period rows
  = Ok (map (fun r => (SalePrice.year r - 1970) * 4
                      + (SalePrice.quarter r - 1)) rows).
Proof.
  induction rows as [| r rows IH]; intros H; simpl; [reflexivity |].
  unfold row_period at 1. rewrite make_valid by (apply H; simpl; auto).
  cbn [bind]. rewrite IH by (intros x Hx; apply H; simpl; auto).
  reflexivity.
Qed.

Lemma traverse_row_period_raise (rows : list SalePrice.t) (r : SalePrice.t) :
  In r rows -> ~ (1 <= SalePrice.quarter r <= 4) ->
  traverse row_period rows = Raise ValueError.
Proof.
  induction rows as [| x rows IH]; intros Hin Hbad; [destruct Hin |].
  simpl. unfold row_period at 1.
  destruct (Z.leb_spec 1 (SalePrice.quarter x)) as [H1 | H1];
    [destruct (Z.leb_spec (SalePrice.quarter x) 4) as [H4 | H4] |].
  - rewrite make_valid by lia. cbn [bind].
    destruct Hin as [-> | Hin]; [lia |].
    rewrite (IH Hin Hbad). reflexivity.
  - rewrite make_invalid by lia. reflexivity.
  - rewrite make_invalid by lia. reflexivity.
Qed.

Lemma load_time_series_unfold (s : Session) (district_id : Z) :
  _load_time_series s district_id
  = let rows := order_by (fun r => (SalePrice.year r, SalePrice.quarter r))
                  (series_rows (loaded s) district_id) in
    match rows with
    | [] => Ok []
    | _ => index <- traverse row_period rows ;;
           Ok (combine index (map SalePrice.price_per_m2 rows))
    end.
Proof. reflexivity. Qed.

Lemma load_time_series_valid (s : Session) (district_id : Z) :
  (forall r, In r (series_rows (loaded s) district_id) ->
             1 <= SalePrice.quarter r <= 4) ->
  _load_time_series s district_id
  = Ok (map (fun r => ((SalePrice.year r - 1970) * 4
                       + (SalePrice.quarter r - 1),
                       SalePrice.price_per_m2 r))
            (order_by (fun r => (SalePrice.year r, SalePrice.quarter r))
               (series_rows (loaded s) district_id))).
Proof.
  intros Hq. rewrite load_time_series_unfold. cbv zeta.
  assert (Hrows : forall r,
             In r (order_by (fun r => (SalePrice.year r, SalePrice.quarter r))
                     (series_rows (loaded s) district_id)) ->
             1 <= SalePrice.quarter r <= 4).
  { intros r Hr. apply Hq. apply order_by_In in Hr. exact Hr. }
  destruct (order_by _ (series_rows (loaded s) district_id))
    as [| r0 rows']; [reflexivity |].
  rewrite (traverse_row_period _ Hrows). cbn [bind].
  rewrite combine_map_map. reflexivity.
Qed.

Lemma load_time_series_invalid (s : Session) (district_id : Z)
  (r : SalePrice.t) :
  In r (series_rows (loaded s) district_id) ->
  ~ (1 <= SalePrice.quarter r <= 4) ->
  _load_time_series s district_id = Raise ValueError.
Proof.
  intros Hin Hbad. rewrite load_time_series_unfold. cbv zeta.
  assert (Hr : In r (order_by (fun r => (SalePrice.year r,
                                          SalePrice.quarter r))
                       (series_rows (loaded s) district_id)))
    by (apply order_by_In; exact Hin).
  destruct (order_by _ (series_rows (loaded s) district_id))
    as [| r0 rows']; [destruct Hr |].
  rewrite (traverse_row_period_raise _ r Hr Hbad). reflexivity.
Qed.

(** X1. When every "all" sale price of the district has a quarter in 1..4,
    the series is loaded without error: it has one observation per such
    row, its periods are in non-decreasing order, and its observations are
    exactly the rows' periods paired with their prices. *)
Theorem load_time_series_sorted (s : Session) (district_id : Z) :
  (forall r, In r (series_rows (loaded s) district_id) ->
             1 <= SalePrice.quarter r <= 4) ->
  exists ts,
    _load_time_series s district_id = Ok ts
    /\ length ts = length (series_rows (loaded s) district_id)
    /\ StronglySorted Z.le (map fst ts)
    /\ forall p v,
         In (p, v) ts <->
         exists r, In r (series_rows (loaded s) district_id)
                   /\ row_period r = Ok p
                   /\ v = SalePrice.price_per_m2 r.
Proof.
  intros Hq. eexists. split; [apply load_time_series_valid, Hq |].
  split; [rewrite length_map, order_by_length; reflexivity |]. split.
  - rewrite map_map. cbn [fst].
    apply (StronglySorted_map
             (by_period (fun r => (SalePrice.year r, SalePrice.quarter r)))).
    + intros x y Hx Hy Hxy.
      apply order_by_In in Hx. apply order_by_In in Hy.
      apply Hq in Hx. apply Hq in Hy.
      unfold by_period, period_le in Hxy. cbn [fst snd] in Hxy. lia.
    + apply order_by_sorted.
  - intros p v. rewrite in_map_iff. split.
    + intros (r & [= <- <-] & Hr). apply order_by_In in Hr.
      exists r. split; [exact Hr |]. split; [| reflexivity].
      unfold row_period. apply make_valid, Hq, Hr.
    + intros (r & Hr & Hp & ->). exists r.
      split; [| apply order_by_In; exact Hr].
      unfold row_period in Hp. rewrite make_valid in Hp by (apply Hq, Hr).
      injection Hp as <-. reflexivity.
Qed.

Lemma load_time_series_sorted_witness :
  exists ts,
    _load_time_series (begin sample_db) 1 = Ok ts
    /\ length ts = length (series_rows (loaded (begin sample_db)) 1)
    /\ StronglySorted Z.le (map fst ts)
    /\ forall p v,
         In (p, v) ts <->
         exists r, In r (series_rows (loaded (begin sample_db)) 1)
                   /\ row_period r = Ok p
                   /\ v = SalePrice.price_per_m2 r.
Proof.
  apply (load_time_series_sorted (begin sample_db) 1).
  intros r Hr. vm_compute in Hr.
  destruct Hr as [<- | [<- | [<- | [<- | []]]]]; simpl; lia.
Defined.

(** X2. A stored "all" sale price of the district whose quarter is outside
    1..4 makes loading the series raise [ValueError]; [forecast_district]
    then raises it too and leaves the database as it was, whatever the
    other rows and the horizon. *)
Theorem forecast_district_invalid_quarter (L : Libraries)
  (district_code : string) (periods now : Z) (db : Database)
  (district : District.t) (r : SalePrice.t) :
  first (filter (fun d => String.eqb (District.code d) district_code)
                (districts db)) = Some district ->
  In r (series_rows db (District.id district)) ->
  ~ (1 <= SalePrice.quarter r <= 4) ->
  _load_time_series (begin db) (District.id district) = Raise ValueError
  /\ forecast_district L district_code periods now db
     = (Raise ValueError, db).
Proof.
  intros Hd Hr Hbad.
  pose proof (load_time_series_invalid (begin db) (District.id district) r
                Hr Hbad) as Hload.
  split; [exact Hload |].
  unfold forecast_district. apply db_session_raise.
  cbn [begin loaded]. rewrite Hd.
  unfold _forecast_district. rewrite Hload. reflexivity.
Qed.

Lemma forecast_district_invalid_quarter_witness :
  _load_time_series (begin bad_quarter_db) 2 = Raise ValueError
  /\ forecast_district reference "02" 8 100 bad_quarter_db
     = (Raise ValueError, bad_quarter_db).
Proof.
  apply (forecast_district_invalid_quarter reference "02" 8 100
           bad_quarter_db (District.mk 2 "02")
           (SalePrice.mk 2 2023 5 (inject_Z 2500) "all")).
  - reflexivity.
  - vm_compute. auto.
  - simpl. lia.
Defined.

(* ------------------------------------------------------------------ *)
(** * Reading stored forecasts, in general *)

(** The rows left by the optional district filter of
    [get_stored_forecasts]. *)
Definition district_scope (db : Database) (district_code : option string)
  : list PriceForecast.t :=
  match district_code with
  | Some c =>
      if truthy district_code then
        match first (filter (fun d => String.eqb (District.code d) c)
                            (districts db)) with
        | Some district =>
            filter (fun f => PriceForecast.district_id f
                             =? District.id district) (price_forecasts db)
        | None => price_forecasts db
        end
      else price_forecasts db
  | None => price_forecasts db
  end.

Definition forecast_period (f : PriceForecast.t) : Z * Z :=
  (PriceForecast.forecast_year f, PriceForecast.forecast_quarter f).

Definition stored_period (x : StoredForecast) : Z * Z :=
  (st_year x, st_quarter x).

Lemma get_stored_forecasts_unfold (district_code : option string)
  (model_name : string) (now : Z) (db : Database) :
  get_stored_forecasts district_code model_name now db
  = (Ok (map _forecast_to_dict
           (order_by forecast_period
              (filter (fun f => String.eqb (PriceForecast.model_name f)
                                           model_name)
                      (district_scope db district_code)))), db).
Proof.
  unfold get_stored_forecasts.
  rewrite (db_session_read_only now db). reflexivity.
Qed.

Lemma district_scope_incl (db : Database) (district_code : option string)
  (f : PriceForecast.t) :
  In f (district_scope db district_code) -> In f (price_forecasts db).
Proof.
  unfold district_scope. destruct district_code as [c |]; [| auto].
  destruct (truthy (Some c)); [| auto].
  destruct (first _) as [d |]; [| auto].
  intros H. apply filter_In in H. tauto.
Qed.

Lemma truthy_nonempty (c : string) : c <> ""%string -> truthy (Some c) = true.
Proof.
  intros H. unfold truthy. destruct (String.eqb_spec c ""); [contradiction |].
  reflexivity.
Qed.

Lemma district_scope_known (db : Database) (c : string) (d : District.t) :
  c <> ""%string ->
  first (filter (fun d => String.eqb (District.code d) c) (districts db))
  = Some d ->
  district_scope db (Some c)
  = filter (fun f => PriceForecast.district_id f =? District.id d)
           (price_forecasts db).
Proof.
  intros Hc Hd. unfold district_scope.
  rewrite (truthy_nonempty c Hc), Hd. reflexivity.
Qed.

(** X3. [get_stored_forecasts] never raises and never changes the
    database; the rows it returns are in ascending (year, quarter) order
    and each of them is the dict of a stored forecast of the requested
    model. *)
Theorem get_stored_forecasts_read_only (district_code : option string)
  (model_name : string) (now : Z) (db : Database) :
  exists rows,
    get_stored_forecasts district_code model_name now db = (Ok rows, db)
    /\ StronglySorted (fun a b => period_le (stored_period a)
                                            (stored_period b)) rows
    /\ forall x, In x rows ->
         exists f, In f (price_forecasts db)
                   /\ PriceForecast.model_name f = model_name
                   /\ x = _forecast_to_dict f.
Proof.
  eexists. split; [apply get_stored_forecasts_unfold |]. split.
  - apply (StronglySorted_map (by_period forecast_period)).
    + intros x y _ _ H. exact H.
    + apply order_by_sorted.
  - intros x Hx. apply in_map_iff in Hx as (f & <- & Hf).
    apply order_by_In, filter_In in Hf as [Hf Hm].
    exists f. split; [eapply district_scope_incl; exact Hf |].
    split; [apply String.eqb_eq, Hm | reflexivity].
Qed.

(** X4. For a non-empty code of a known district, [get_stored_forecasts]
    returns exactly the dicts of the stored forecasts of that district and
    model, one per stored row; when the district has no stored forecast of
    that model the result is the empty list, not an error. *)
Theorem get_stored_forecasts_known_district (district_code : string)
  (model_name : string) (now : Z) (db : Database) (district : District.t) :
  district_code <> ""%string ->
  first (filter (fun d => String.eqb (District.code d) district_code)
                (districts db)) = Some district ->
  exists rows,
    get_stored_forecasts (Some district_code) model_name now db
    = (Ok rows, db)
    /\ length rows
       = length (filter (fun f =>
                           (PriceForecast.district_id f
                            =? District.id district)
                           && String.eqb (PriceForecast.model_name f)
                                         model_name)
                        (price_forecasts db))
    /\ (forall x, In x rows <->
          exists f, In f (price_forecasts db)
                    /\ PriceForecast.district_id f = District.id district
                    /\ PriceForecast.model_name f = model_name
                    /\ x = _forecast_to_dict f)
    /\ ((forall f, In f (price_forecasts db) ->
                   PriceForecast.district_id f = District.id district ->
                   PriceForecast.model_name f <> model_name) ->
        rows = []).
Proof.
  intros Hc Hd. eexists. split; [apply get_stored_forecasts_unfold |].
  rewrite (district_scope_known db district_code district Hc Hd).
  assert (Hlen : length (map _forecast_to_dict
                   (order_by forecast_period
                      (filter (fun f => String.eqb
                                          (PriceForecast.model_name f)
                                          model_name)
                         (filter (fun f => PriceForecast.district_id f
                                           =? District.id district)
                                 (price_forecasts db)))))
                 = length (filter (fun f =>
                             (PriceForecast.district_id f
                              =? District.id district)
                             && String.eqb (PriceForecast.model_name f)
                                           model_name)
                          (price_forecasts db))).
  { rewrite length_map, order_by_length. f_equal.
    induction (price_forecasts db) as [| f l IH]; simpl; [reflexivity |].
    destruct (PriceForecast.district_id f =? District.id district); simpl;
      [destruct (String.eqb _ _); simpl; rewrite IH; reflexivity | exact IH]. }
  split; [exact Hlen |].
  assert (Hin : forall x,
             In x (map _forecast_to_dict
                     (order_by forecast_period
                        (filter (fun f => String.eqb
                                            (PriceForecast.model_name f)
                                            model_name)
                           (filter (fun f => PriceForecast.district_id f
                                             =? District.id district)
                                   (price_forecasts db))))) <->
             exists f, In f (price_forecasts db)
                       /\ PriceForecast.district_id f = District.id district
                       /\ PriceForecast.model_name f = model_name
                       /\ x = _forecast_to_dict f).
  { intros x. rewrite in_map_iff. split.
    - intros (f & <- & Hf).
      apply order_by_In, filter_In in Hf as [Hf Hm].
      apply filter_In in Hf as [Hf Hid].
      exists f. repeat split; [exact Hf | apply Z.eqb_eq, Hid |
                               apply String.eqb_eq, Hm].
    - intros (f & Hf & Hid & Hm & ->). exists f. split; [reflexivity |].
      apply order_by_In, filter_In. split.
      + apply filter_In. split; [exact Hf | apply Z.eqb_eq, Hid].
      + apply String.eqb_eq, Hm. }
  split; [exact Hin |].
  intros Hnone.
  destruct (map _forecast_to_dict _) as [| x rows]; [reflexivity |].
  exfalso. destruct (proj1 (Hin x) (or_introl eq_refl))
    as (f & Hf & Hid & Hm & _).
  exact (Hnone f Hf Hid Hm).
Qed.

Lemma get_stored_forecasts_known_district_witness :
  exists rows,
    get_stored_forecasts (Some "02"%string) "ensemble" 300 stored_db
    = (Ok rows, stored_db)
    /\ rows = [].
Proof.
  destruct (get_stored_forecasts_known_district "02" "ensemble" 300
              stored_db (District.mk 2 "02")) as (rows & Hg & _ & _ & Hnil).
  - discriminate.
  - reflexivity.
  - exists rows. split; [exact Hg |]. apply Hnil.
    intros f Hf Hid. vm_compute in Hf.
    repeat (destruct Hf as [<- | Hf]; [discriminate Hid |]).
    destruct Hf.
Defined.

(** X5. For a code that matches no district, [forecast_district] returns
    the empty list without raising and leaves the database as it was,
    whatever the horizon. *)
Theorem forecast_district_unknown_district (L : Libraries)
  (district_code : string) (periods now : Z) (db : Database) :
  first (filter (fun d => String.eqb (District.code d) district_code)
                (districts db)) = None ->
  forecast_district L district_code periods now db = (Ok [], db).
Proof.
  intros Hd. unfold forecast_district, db_session.
  cbn [begin loaded]. rewrite Hd. rewrite commit_begin. reflexivity.
Qed.

Lemma forecast_district_unknown_district_witness :
  forecast_district reference "99" 0 100 sample_db = (Ok [], sample_db).
Proof.
  apply (forecast_district_unknown_district reference "99" 0 100 sample_db).
  reflexivity.
Defined.

(* ------------------------------------------------------------------ *)
(** * Forecasting a district with enough data *)

Section RunFacts.

Variable L : Libraries.

Lemma sarima_forecast_total (ts : TimeSeries) (periods : Z) :
  ts <> [] -> 1 <= periods ->
  exists fc, _sarima_forecast L ts periods = Ok fc.
Proof.
  intros Hts Hp. unfold _sarima_forecast.
  destruct (sarima_try L ts periods) as [fc |]; [eauto |].
  apply linear_forecast_nonempty; assumption.
Qed.

Lemma run_models_total (ts : TimeSeries) (periods : Z) :
  ts <> [] -> 1 <= periods ->
  exists lin sar ens, run_models L ts periods = Ok (lin, sar, ens).
Proof.
  intros Hts Hp. unfold run_models.
  destruct (linear_forecast_nonempty L ts periods Hts Hp) as [lin ->].
  cbn [bind]. destruct (MIN_POINTS_SARIMA <=? len ts).
  - destruct (sarima_forecast_total ts periods Hts Hp) as [sar ->].
    cbn [bind]. eauto.
  - cbn [bind]. eauto.
Qed.

Lemma run_models_length (ts : TimeSeries) (periods : Z)
  (lin sar ens : list ForecastPoint) :
  run_models L ts periods = Ok (lin, sar, ens) ->
  1 <= periods
  /\ Z.of_nat (length lin) = periods
  /\ Z.of_nat (length sar) = periods
  /\ Z.of_nat (length ens) = periods.
Proof.
  intros H.
  destruct (run_models_periods_of L _ _ _ _ _ H)
    as (ps & Hps & Hlin & Hsar & Hens).
  assert (Hp : 1 <= periods).
  { unfold run_models in H.
    destruct (_linear_forecast L ts periods) as [fc |] eqn:El;
      [| discriminate].
    apply linear_forecast_inv in El. tauto. }
  pose proof (next_periods_length _ _ _ Hps) as Hlen.
  assert (Hl : forall fc, periods_of fc = map period_pair ps ->
                          Z.of_nat (length fc) = periods).
  { intros fc Hfc.
    rewrite <- (length_map (fun pt => (year pt, quarter pt)) fc).
    fold (periods_of fc). rewrite Hfc, length_map, Hlen. lia. }
  auto.
Qed.

End RunFacts.

(** The dict appended to [all_rows] for a point. *)
Definition tag (model_name : string) (district : District.t)
  (row : ForecastPoint) : ForecastRow :=
  mkRow row model_name (District.code district).

Lemma save_rows_rows (district : District.t) (model_name : string) (now : Z)
  (fc : list ForecastPoint) (s : Session) (all_rows : list ForecastRow) :
  snd (save_rows s district model_name fc now all_rows)
  = all_rows ++ map (tag model_name district) fc.
Proof.
  revert s all_rows. induction fc as [| row fc IH]; intros s all_rows; simpl.
  - rewrite app_nil_r. reflexivity.
  - rewrite IH, <- app_assoc. reflexivity.
Qed.

Lemma save_models_rows (district : District.t) (now : Z)
  (models : list (string * list ForecastPoint)) (s : Session)
  (all_rows : list ForecastRow) :
  snd (save_models s district models now all_rows)
  = all_rows
    ++ flat_map (fun mf => map (tag (fst mf) district) (snd mf)) models.
Proof.
  revert s all_rows.
  induction models as [| [m fc] models IH]; intros s all_rows; simpl.
  - rewrite app_nil_r. reflexivity.
  - pose proof (save_rows_rows district m now fc s all_rows) as H.
    destruct (save_rows s district m fc now all_rows) as [s1 rows1].
    cbn [snd] in H. rewrite IH, H, <- app_assoc. reflexivity.
Qed.

Lemma filter_tag (model_name : string) (district : District.t)
  (fc : list ForecastPoint) :
  filter (fun r => String.eqb (model r) "ensemble")
         (map (tag model_name district) fc)
  = if String.eqb model_name "ensemble"
    then map (tag model_name district) fc else [].
Proof.
  induction fc as [| row fc IH]; simpl.
  - destruct (String.eqb model_name "ensemble"); reflexivity.
  - rewrite IH. destruct (String.eqb model_name "ensemble"); reflexivity.
Qed.

Section StepFacts.

Variable L : Libraries.

(** What [_forecast_district] returns once the series is loaded and long
    enough and the models have run. *)
Lemma forecast_district_run (s : Session) (district : District.t)
  (periods now : Z) (ts : TimeSeries) (lin sar ens : list ForecastPoint) :
  _load_time_series s (District.id district) = Ok ts ->
  4 <= len ts ->
  run_models L ts periods = Ok (lin, sar, ens) ->
  _forecast_district L s district periods now
  = Ok (map (tag "ensemble" district) ens,
        fst (save_models s district
               [("linear"%string, lin); ("sarima"%string, sar);
                ("ensemble"%string, ens)] now [])).
Proof.
  intros Hts Hlen Hrun. unfold _forecast_district.
  rewrite Hts. cbn [bind].
  replace (len ts <? 4) with false by (symmetry; apply Z.ltb_ge; lia).
  rewrite Hrun. cbn [bind].
  pose proof (save_models_rows district now
                [("linear"%string, lin); ("sarima"%string, sar);
                 ("ensemble"%string, ens)] s []) as Hrows.
  destruct (save_models s district _ now []) as [s' all_rows].
  cbn [fst snd] in *. rewrite Hrows. cbn [flat_map fst snd app].
  rewrite !filter_app, !filter_tag. rewrite app_nil_r. reflexivity.
Qed.

Lemma forecast_district_short (s : Session) (district : District.t)
  (periods now : Z) (ts : TimeSeries) :
  _load_time_series s (District.id district) = Ok ts ->
  len ts < 4 ->
  _forecast_district L s district periods now = Ok ([], s).
Proof.
  intros Hts Hlen. unfold _forecast_district. rewrite Hts. cbn [bind].
  replace (len ts <? 4) with true by (symmetry; apply Z.ltb_lt; lia).
  reflexivity.
Qed.

End StepFacts.

(** The district of a unique-constraint key. *)
Definition key_district (k : Z * string * Z * Z) : Z :=
  let '(d, _, _, _) := k in d.

Lemma save_forecast_pending_district (s : Session) (district_id : Z)
  (model_name : string) (row : ForecastPoint) (now : Z)
  (k : Z * string * Z * Z) :
  In k (map PriceForecast.key
          (pending (_save_forecast s district_id model_name row now))) ->
  In k (map PriceForecast.key (pending s)) \/ key_district k = district_id.
Proof.
  unfold _save_forecast.
  destruct (first (filter (matches district_id model_name row)
                          (price_forecasts (loaded s)))); simpl; [auto |].
  rewrite map_app. intros H. apply in_app_or in H as [H | [<- | []]]; auto.
Qed.

Lemma save_rows_pending_district (district : District.t)
  (model_name : string) (now : Z) (fc : list ForecastPoint) (s : Session)
  (all_rows : list ForecastRow) (k : Z * string * Z * Z) :
  In k (map PriceForecast.key
          (pending (fst (save_rows s district model_name fc now all_rows)))) ->
  In k (map PriceForecast.key (pending s))
  \/ key_district k = District.id district.
Proof.
  revert s all_rows. induction fc as [| row fc IH]; intros s all_rows; simpl;
    [auto |].
  intros H. apply IH in H as [H | H]; [| auto].
  apply save_forecast_pending_district in H. exact H.
Qed.

Lemma save_models_pending_district (district : District.t) (now : Z)
  (models : list (string * list ForecastPoint)) (s : Session)
  (all_rows : list ForecastRow) (k : Z * string * Z * Z) :
  In k (map PriceForecast.key
          (pending (fst (save_models s district models now all_rows)))) ->
  In k (map PriceForecast.key (pending s))
  \/ key_district k = District.id district.
Proof.
  revert s all_rows.
  induction models as [| [m fc] models IH]; intros s all_rows; simpl;
    [auto |].
  pose proof (save_rows_pending_district district m now fc s all_rows k) as H1.
  destruct (save_rows s district m fc now all_rows) as [s1 rows1].
  cbn [fst] in H1. intros H. apply IH in H as [H | H]; auto.
Qed.

Section DistrictStep.

Variable L : Libraries.

(** One district of a generation on well-formed data: it returns, either
    with no row (fewer than four observations) or with one ensemble row
    per requested quarter, and the session stays acceptable to the unique
    constraint. *)
Lemma forecast_district_step (s : Session) (district : District.t)
  (periods now : Z) :
  (forall r, In r (series_rows (loaded s) (District.id district)) ->
             1 <= SalePrice.quarter r <= 4) ->
  1 <= periods ->
  fresh s ->
  (forall k, In k (map PriceForecast.key (pending s)) ->
             key_district k <> District.id district) ->
  exists ts rows s',
    _load_time_series s (District.id district) = Ok ts
    /\ _forecast_district L s district periods now = Ok (rows, s')
    /\ same_tables s s'
    /\ fresh s'
    /\ (forall k, In k (map PriceForecast.key (pending s')) ->
                  In k (map PriceForecast.key (pending s))
                  \/ key_district k = District.id district)
    /\ ((len ts < 4 /\ rows = [] /\ s' = s)
        \/ (4 <= len ts
            /\ exists lin sar ens,
                 run_models L ts periods = Ok (lin, sar, ens)
                 /\ rows = map (tag "ensemble" district) ens
                 /\ Z.of_nat (length ens) = periods)).
Proof.
  intros Hq Hp Hfr Hpend.
  pose proof (load_time_series_valid s (District.id district) Hq) as Hts.
  set (ts := map _ _) in Hts.
  exists ts. destruct (Z.lt_ge_cases (len ts) 4) as [Hlt | Hge].
  - exists [], s. split; [exact Hts |].
    split; [apply (forecast_district_short L _ _ _ _ ts); assumption |].
    split; [apply same_tables_refl |]. split; [exact Hfr |].
    split; [auto |]. left. auto.
  - assert (Hne : ts <> []).
    { intros E. rewrite E in Hge. unfold len in Hge. simpl in Hge. lia. }
    destruct (run_models_total L ts periods Hne Hp)
      as (lin & sar & ens & Hrun).
    pose proof (forecast_district_run L s district periods now ts lin sar ens
                  Hts Hge Hrun) as Hfd.
    eexists _, _. split; [exact Hts |]. split; [exact Hfd |].
    split; [eapply forecast_district_same_tables; exact Hfd |].
    destruct (run_models_periods_of L _ _ _ _ _ Hrun)
      as (ps & Hps & Hlin & Hsar & Hens).
    pose proof (next_periods_NoDup _ _ _ Hps) as Hnd.
    split; [| split].
    + apply save_models_fresh; [exact Hfr | | |].
      * repeat constructor; simpl; intuition discriminate.
      * intros m fc [[= <- <-] | [[= <- <-] | [[= <- <-] | []]]];
          congruence.
      * intros m fc r _ _ Hin. exact (Hpend _ Hin eq_refl).
    + apply save_models_pending_district.
    + right. split; [exact Hge |]. exists lin, sar, ens.
      split; [exact Hrun |]. split; [reflexivity |].
      apply (run_models_length L _ _ _ _ _ Hrun).
Qed.

End DistrictStep.

Lemma flush_app (now : Z) (new table table' : list PriceForecast.t) :
  flush now table new = Ok table' ->
  table' = table ++ map (stamp now) new.
Proof.
  revert table. induction new as [| f new IH]; intros table; simpl.
  - intros [= <-]. rewrite app_nil_r. reflexivity.
  - unfold insert_forecast. destruct (existsb _ table); [discriminate |].
    cbn [bind]. intros H. apply IH in H. rewrite H, <- app_assoc.
    reflexivity.
Qed.

Lemma commit_fresh (now : Z) (s : Session) :
  fresh s ->
  commit now s
  = Ok {| districts := districts (loaded s);
          sale_prices := sale_prices (loaded s);
          price_forecasts := forecasts s ++ map (stamp now) (pending s) |}.
Proof.
  intros Hfr. unfold commit.
  destruct (flush_fresh now (pending s) (forecasts s) Hfr)
    as (table & Hfl & _).
  unfold forecasts in *. rewrite Hfl. cbn [bind].
  apply flush_app in Hfl. rewrite Hfl. reflexivity.
Qed.

Lemma fresh_begin (db : Database) :
  unique_keys (price_forecasts db) -> fresh (begin db).
Proof.
  intros Hu. unfold fresh, begin, forecasts. simpl. rewrite app_nil_r.
  exact Hu.
Qed.

Lemma first_filter_code (c : string) (ds : list District.t) (d : District.t) :
  first (filter (fun d => String.eqb (District.code d) c) ds) = Some d ->
  In d ds /\ District.code d = c.
Proof.
  intros H.
  assert (Hin : In d (filter (fun d => String.eqb (District.code d) c) ds)).
  { destruct (filter _ ds) as [| x xs]; [discriminate |].
    injection H as ->. simpl. auto. }
  apply filter_In in Hin as [Hin Hc]. split; [exact Hin |].
  apply String.eqb_eq, Hc.
Qed.

(** A generation for a district with enough data goes through: the
    commit is accepted and the tagged ensemble forecast is returned. *)
Lemma forecast_district_generates (L : Libraries)
  (district_code : string) (periods now : Z) (db : Database)
  (district : District.t) (ts : TimeSeries)
  (lin sar ens : list ForecastPoint) :
  unique_keys (price_forecasts db) ->
  first (filter (fun d => String.eqb (District.code d) district_code)
                (districts db)) = Some district ->
  _load_time_series (begin db) (District.id district) = Ok ts ->
  4 <= len ts ->
  run_models L ts periods = Ok (lin, sar, ens) ->
  exists s',
    _forecast_district L (begin db) district periods now
    = Ok (map (tag "ensemble" district) ens, s')
    /\ forecast_district L district_code periods now db
       = (Ok (map (fun r => mkRow r "ensemble" district_code) ens),
          {| districts := districts (loaded s');
             sale_prices := sale_prices (loaded s');
             price_forecasts :=
               forecasts s' ++ map (stamp now) (pending s') |}).
Proof.
  intros Hu Hd Hts Hlen Hrun.
  pose proof (forecast_district_run L (begin db) district periods now ts
                lin sar ens Hts Hlen Hrun) as Hfd.
  pose proof (forecast_district_fresh L (begin db) _ _ _ _ _ Hu eq_refl Hfd)
    as Hfr.
  eexists. split; [exact Hfd |].
  unfold forecast_district, db_session. cbn [begin loaded]. rewrite Hd.
  fold (begin db). rewrite Hfd, (commit_fresh now _ Hfr).
  destruct (first_filter_code _ _ _ Hd) as [_ Hcode].
  unfold tag. rewrite Hcode. reflexivity.
Qed.

(** X6. For a known district whose "all" sale prices have valid quarters
    and number at least four, a horizon [h >= 1] and a forecast table with
    at most one row per key, [forecast_district] does not raise: it
    returns exactly [h] rows, which are the ensemble forecast of the
    district's series tagged with the model name "ensemble" and the
    district code, and the districts and sale prices are left as they
    were. *)
Theorem forecast_district_returns_ensemble (L : Libraries)
  (district_code : string) (periods now : Z) (db : Database)
  (district : District.t) (ts : TimeSeries) :
  unique_keys (price_forecasts db) ->
  first (filter (fun d => String.eqb (District.code d) district_code)
                (districts db)) = Some district ->
  _load_time_series (begin db) (District.id district) = Ok ts ->
  4 <= len ts ->
  1 <= periods ->
  exists lin sar ens db',
    run_models L ts periods = Ok (lin, sar, ens)
    /\ forecast_district L district_code periods now db
       = (Ok (map (fun r => mkRow r "ensemble" district_code) ens), db')
    /\ Z.of_nat (length ens) = periods
    /\ districts db' = districts db
    /\ sale_prices db' = sale_prices db.
Proof.
  intros Hu Hd Hts Hlen Hp.
  assert (Hne : ts <> []).
  { intros E. rewrite E in Hlen. unfold len in Hlen. simpl in Hlen. lia. }
  destruct (run_models_total L ts periods Hne Hp) as (lin & sar & ens & Hrun).
  destruct (forecast_district_generates L district_code periods now db
              district ts lin sar ens Hu Hd Hts Hlen Hrun)
    as (s' & Hfd & Hcall).
  destruct (forecast_district_same_tables L _ _ _ _ _ _ Hfd)
    as (Hds & Hsp & _).
  exists lin, sar, ens. eexists. split; [exact Hrun |].
  split; [exact Hcall |].
  split; [apply (run_models_length L _ _ _ _ _ Hrun) |].
  cbn [districts sale_prices]. split; assumption.
Qed.

Lemma forecast_district_returns_ensemble_witness :
  exists lin sar ens db',
    run_models reference rising_series 4 = Ok (lin, sar, ens)
    /\ forecast_district reference "01" 4 100 sample_db
       = (Ok (map (fun r => mkRow r "ensemble" "01") ens), db')
    /\ Z.of_nat (length ens) = 4
    /\ districts db' = districts sample_db
    /\ sale_prices db' = sale_prices sample_db.
Proof.
  apply (forecast_district_returns_ensemble reference "01" 4 100 sample_db
           (District.mk 1 "01") rising_series).
  - constructor.
  - reflexivity.
  - reflexivity.
  - vm_compute. discriminate.
  - lia.
Defined.

(* ------------------------------------------------------------------ *)
(** * What a generation leaves in the table *)

(** A stored row that holds the point [row] of a model for a district. *)
Definition carries (f : PriceForecast.t) (district_id : Z)
  (model_name : string) (row : ForecastPoint) : Prop :=
  PriceForecast.key f = row_key district_id model_name row
  /\ PriceForecast.predicted_price_m2 f = predicted_price_m2 row
  /\ PriceForecast.lower_bound f = lower_bound row
  /\ PriceForecast.upper_bound f = upper_bound row.

(** The point has been saved in the session at time [now]: either a loaded
    row was overwritten with it, or a new row is waiting to be inserted. *)
Definition recorded (s : Session) (district_id : Z) (model_name : string)
  (row : ForecastPoint) (now : Z) : Prop :=
  (exists f, In f (forecasts s)
             /\ carries f district_id model_name row
             /\ PriceForecast.generated_at f = Some now)
  \/ (exists f, In f (pending s)
                /\ carries f district_id model_name row
                /\ PriceForecast.generated_at f = None).

Lemma first_filter_In {A : Type} (p : A -> bool) (xs : list A) (y : A) :
  first (filter p xs) = Some y -> In y xs /\ p y = true.
Proof.
  intros H. apply filter_In.
  destruct (filter p xs) as [| x l]; [discriminate |].
  injection H as ->. simpl. auto.
Qed.

Lemma save_forecast_recorded (s : Session) (district_id : Z)
  (model_name : string) (row : ForecastPoint) (now : Z) :
  recorded (_save_forecast s district_id model_name row now)
    district_id model_name row now.
Proof.
  unfold _save_forecast, recorded, forecasts.
  destruct (first (filter (matches district_id model_name row)
                          (price_forecasts (loaded s)))) as [y |] eqn:E;
    simpl.
  - left. apply first_filter_In in E as [Hy Hm].
    destruct (overwrite_first_hit district_id model_name row now _ y Hy Hm)
      as (g & _ & Hgm & Hga).
    exists (assign g row now). split; [exact Hga |].
    split; [| reflexivity].
    unfold carries. rewrite assign_key.
    split; [apply matches_key, Hgm |]. auto.
  - right. eexists. split; [apply in_or_app; right; left; reflexivity |].
    split; [| reflexivity]. repeat split.
Qed.

Lemma save_forecast_keeps (s : Session) (district_id : Z)
  (model_name : string) (row : ForecastPoint) (now : Z)
  (district_id' : Z) (model_name' : string) (row' : ForecastPoint) :
  row_key district_id' model_name' row'
  <> row_key district_id model_name row ->
  recorded s district_id' model_name' row' now ->
  recorded (_save_forecast s district_id model_name row now)
    district_id' model_name' row' now.
Proof.
  intros Hk Hrec. unfold _save_forecast, recorded, forecasts in *.
  destruct (first (filter (matches district_id model_name row)
                          (price_forecasts (loaded s)))) as [y |]; simpl.
  - destruct Hrec as [(f & Hf & Hc & Hg) | Hrec]; [left | right; exact Hrec].
    exists f. split; [| auto].
    apply overwrite_first_others; [| exact Hf].
    destruct (matches district_id model_name row f) eqn:Em; [| reflexivity].
    apply matches_key in Em. destruct Hc as [Hc _]. unfold row_key in *.
    congruence.
  - destruct Hrec as [Hrec | (f & Hf & Hc & Hg)]; [left; exact Hrec | right].
    exists f. split; [apply in_or_app; left; exact Hf | auto].
Qed.

Lemma save_rows_keeps (district : District.t) (model_name : string)
  (now : Z) (district_id' : Z) (model_name' : string) (row' : ForecastPoint)
  (fc : list ForecastPoint) (s : Session) (all_rows : list ForecastRow) :
  (forall r, In r fc ->
             row_key district_id' model_name' row'
             <> row_key (District.id district) model_name r) ->
  recorded s district_id' model_name' row' now ->
  recorded (fst (save_rows s district model_name fc now all_rows))
    district_id' model_name' row' now.
Proof.
  revert s all_rows. induction fc as [| row fc IH]; intros s all_rows Hk Hrec;
    simpl; [exact Hrec |].
  apply IH; [intros r Hr; apply Hk; simpl; auto |].
  apply save_forecast_keeps; [apply Hk; simpl; auto | exact Hrec].
Qed.

Lemma save_rows_recorded (district : District.t) (model_name : string)
  (now : Z) (fc : list ForecastPoint) (s : Session)
  (all_rows : list ForecastRow) :
  NoDup (periods_of fc) ->
  forall r, In r fc ->
    recorded (fst (save_rows s district model_name fc now all_rows))
      (District.id district) model_name r now.
Proof.
  revert s all_rows. induction fc as [| row fc IH]; intros s all_rows Hnd r Hr;
    [destruct Hr |].
  apply NoDup_cons_iff in Hnd as [Hrow Hnd]. simpl.
  destruct Hr as [<- | Hr]; [| apply IH; assumption].
  apply save_rows_keeps; [| apply save_forecast_recorded].
  intros r Hr Hk. apply Hrow. injection Hk as Hy Hq.
  apply in_map_iff. exists r. split; [| exact Hr]. congruence.
Qed.

Lemma save_models_keeps (district : District.t) (now : Z)
  (district_id' : Z) (model_name' : string) (row' : ForecastPoint)
  (models : list (string * list ForecastPoint)) (s : Session)
  (all_rows : list ForecastRow) :
  ~ In model_name' (map fst models) ->
  recorded s district_id' model_name' row' now ->
  recorded (fst (save_models s district models now all_rows))
    district_id' model_name' row' now.
Proof.
  revert s all_rows.
  induction models as [| [m fc] models IH]; intros s all_rows Hm Hrec; simpl;
    [exact Hrec |].
  pose proof (save_rows_keeps district m now district_id' model_name' row'
                fc s all_rows) as H1.
  destruct (save_rows s district m fc now all_rows) as [s1 rows1].
  cbn [fst] in H1. apply IH; [simpl in Hm; tauto |].
  apply H1; [| exact Hrec].
  intros r _ Hk. injection Hk as _ Hmm _ _. apply Hm. simpl. auto.
Qed.

Lemma save_models_recorded (district : District.t) (now : Z)
  (models : list (string * list ForecastPoint)) (s : Session)
  (all_rows : list ForecastRow) :
  NoDup (map fst models) ->
  (forall m fc, In (m, fc) models -> NoDup (periods_of fc)) ->
  forall m fc r, In (m, fc) models -> In r fc ->
    recorded (fst (save_models s district models now all_rows))
      (District.id district) m r now.
Proof.
  revert s all_rows.
  induction models as [| [m0 fc0] models IH];
    intros s all_rows Hnames Hper m fc r Hin Hr; [destruct Hin |].
  apply NoDup_cons_iff in Hnames as [Hm0 Hnames]. simpl.
  pose proof (save_rows_recorded district m0 now fc0 s all_rows
                (Hper m0 fc0 (or_introl eq_refl))) as H1.
  destruct (save_rows s district m0 fc0 now all_rows) as [s1 rows1].
  cbn [fst] in H1.
  destruct Hin as [[= <- <-] | Hin].
  - apply save_models_keeps; [exact Hm0 | apply H1, Hr].
  - apply (IH s1 rows1 Hnames
             (fun m' fc' H' => Hper m' fc' (or_intror H')) m fc r Hin Hr).
Qed.

(** Every row returned by [_forecast_district] has been saved in the
    session under the model name "ensemble". *)
Lemma forecast_district_recorded (L : Libraries) (s s' : Session)
  (district : District.t) (periods now : Z) (rows : list ForecastRow) :
  _forecast_district L s district periods now = Ok (rows, s') ->
  forall r, In r rows ->
    recorded s' (District.id district) "ensemble" (point r) now.
Proof.
  intros H r Hr.
  destruct (_load_time_series s (District.id district)) as [ts |] eqn:Hts;
    [| unfold _forecast_district in H; rewrite Hts in H; discriminate].
  destruct (Z.lt_ge_cases (len ts) 4) as [Hlt | Hge].
  - rewrite (forecast_district_short L _ _ _ _ ts Hts Hlt) in H.
    injection H as <- _. destruct Hr.
  - destruct (run_models L ts periods) as [[[lin sar] ens] |] eqn:Hrun.
    + rewrite (forecast_district_run L _ _ _ _ ts lin sar ens Hts Hge Hrun)
        in H.
      injection H as <- <-.
      apply in_map_iff in Hr as (pt & <- & Hpt). cbn [tag point].
      destruct (run_models_periods_of L _ _ _ _ _ Hrun)
        as (ps & Hps & Hlin & Hsar & Hens).
      pose proof (next_periods_NoDup _ _ _ Hps) as Hnd.
      apply (save_models_recorded district now
               [("linear"%string, lin); ("sarima"%string, sar);
                ("ensemble"%string, ens)] s [])
        with (fc := ens).
      * repeat constructor; simpl; intuition discriminate.
      * intros m fc [[= <- <-] | [[= <- <-] | [[= <- <-] | []]]];
          congruence.
      * simpl. auto.
      * exact Hpt.
    + unfold _forecast_district in H. rewrite Hts in H. cbn [bind] in H.
      replace (len ts <? 4) with false in H
        by (symmetry; apply Z.ltb_ge; lia).
      rewrite Hrun in H. discriminate.
Qed.

Lemma stamp_carries (now : Z) (f : PriceForecast.t) (district_id : Z)
  (model_name : string) (row : ForecastPoint) :
  carries f district_id model_name row ->
  PriceForecast.generated_at f = None ->
  carries (stamp now f) district_id model_name row
  /\ PriceForecast.generated_at (stamp now f) = Some now.
Proof.
  intros Hc Hg. unfold stamp. rewrite Hg. unfold carries in *.
  cbn. tauto.
Qed.

Lemma commit_recorded (now : Z) (s : Session) (db' : Database)
  (district_id : Z) (model_name : string) (row : ForecastPoint) :
  commit now s = Ok db' ->
  recorded s district_id model_name row now ->
  exists f, In f (price_forecasts db')
            /\ carries f district_id model_name row
            /\ PriceForecast.generated_at f = Some now.
Proof.
  unfold commit. intros H Hrec.
  destruct (flush now (price_forecasts (loaded s)) (pending s))
    as [table |] eqn:Hfl; [| discriminate].
  cbn [bind] in H. injection H as <-. cbn [price_forecasts].
  apply flush_app in Hfl. subst table.
  destruct Hrec as [(f & Hf & Hc & Hg) | (f & Hf & Hc & Hg)].
  - exists f. split; [apply in_or_app; left; exact Hf | auto].
  - exists (stamp now f).
    split; [apply in_or_app; right; apply in_map; exact Hf |].
    apply stamp_carries; assumption.
Qed.

Lemma commit_tables (now : Z) (s : Session) (db' : Database) :
  commit now s = Ok db' ->
  districts db' = districts (loaded s)
  /\ sale_prices db' = sale_prices (loaded s).
Proof.
  unfold commit.
  destruct (flush now (price_forecasts (loaded s)) (pending s));
    [| discriminate].
  cbn [bind]. intros [= <-]. auto.
Qed.

(** What a returning [forecast_district] has done. *)
Lemma forecast_district_inv (L : Libraries) (district_code : string)
  (periods now : Z) (db db' : Database) (rows : list ForecastRow) :
  forecast_district L district_code periods now db = (Ok rows, db') ->
  (first (filter (fun d => String.eqb (District.code d) district_code)
                 (districts db)) = None
   /\ rows = [] /\ db' = db)
  \/ exists district s',
       first (filter (fun d => String.eqb (District.code d) district_code)
                     (districts db)) = Some district
       /\ _forecast_district L (begin db) district periods now
          = Ok (rows, s')
       /\ commit now s' = Ok db'.
Proof.
  unfold forecast_district, db_session. cbn [begin loaded].
  destruct (first (filter _ (districts db))) as [d |] eqn:Hd.
  - fold (begin db).
    destruct (_forecast_district L (begin db) d periods now)
      as [[rows0 s'] |] eqn:Hfd; [| discriminate].
    destruct (commit now s') as [db0 |] eqn:Hc; [| discriminate].
    intros [= <- <-]. right. exists d, s'. auto.
  - fold (begin db). rewrite commit_begin. intros [= <- <-]. left. auto.
Qed.

(** The stored row that a later lookup finds for a returned row. *)
Lemma generated_rows_found (L : Libraries) (district_code : string)
  (periods now : Z) (db db' : Database) (rows : list ForecastRow)
  (r : ForecastRow) :
  district_code <> ""%string ->
  forecast_district L district_code periods now db = (Ok rows, db') ->
  In r rows ->
  exists district f,
    district_scope db' (Some district_code)
    = filter (fun f => PriceForecast.district_id f =? District.id district)
             (price_forecasts db')
    /\ In f (price_forecasts db')
    /\ carries f (District.id district) "ensemble" (point r)
    /\ PriceForecast.generated_at f = Some now.
Proof.
  intros Hc Hfd Hr.
  apply forecast_district_inv in Hfd
    as [(_ & -> & _) | (d & s' & Hd & Hfd & Hcommit)]; [destruct Hr |].
  pose proof (forecast_district_recorded L _ _ _ _ _ _ Hfd r Hr) as Hrec.
  destruct (commit_recorded now s' db' _ _ _ Hcommit Hrec)
    as (f & Hf & Hcar & Hg).
  destruct (forecast_district_same_tables L _ _ _ _ _ _ Hfd) as (Hds & _ & _).
  destruct (commit_tables now s' db' Hcommit) as [Hds' _].
  assert (Hd' : first (filter (fun d => String.eqb (District.code d)
                                                   district_code)
                              (districts db')) = Some d).
  { rewrite Hds', Hds. exact Hd. }
  exists d, f. split; [apply district_scope_known; assumption | auto].
Qed.

Lemma ensemble_scope (db : Database) (district_id : Z) (g : PriceForecast.t) :
  In g (order_by forecast_period
          (filter (fun f => String.eqb (PriceForecast.model_name f)
                                       "ensemble")
             (filter (fun f => PriceForecast.district_id f =? district_id)
                     (price_forecasts db)))) <->
  In g (price_forecasts db)
  /\ PriceForecast.district_id g = district_id
  /\ PriceForecast.model_name g = "ensemble"%string.
Proof.
  rewrite order_by_In, !filter_In, Z.eqb_eq, String.eqb_eq. tauto.
Qed.

(** X7. After [forecast_district] has returned rows, looking the district
    up with [get_stored_forecasts] (model "ensemble") finds every returned
    row: a stored row of the same year and quarter with the same
    predicted, lower and upper values and the timestamp of the
    generation, and it is the only stored row of that period. *)
Theorem forecast_district_then_stored (L : Libraries)
  (district_code : string) (periods now now' : Z) (db db' : Database)
  (rows : list ForecastRow) :
  unique_keys (price_forecasts db) ->
  district_code <> ""%string ->
  forecast_district L district_code periods now db = (Ok rows, db') ->
  exists stored,
    get_stored_forecasts (Some district_code) "ensemble" now' db'
    = (Ok stored, db')
    /\ forall r, In r rows ->
         exists x,
           In x stored
           /\ st_year x = year (point r)
           /\ st_quarter x = quarter (point r)
           /\ st_predicted_price_m2 x = predicted_price_m2 (point r)
           /\ st_lower_bound x = lower_bound (point r)
           /\ st_upper_bound x = upper_bound (point r)
           /\ st_generated_at x = Some now
           /\ forall x', In x' stored ->
                         stored_period x' = stored_period x -> x' = x.
Proof.
  intros Hu Hc Hfd. eexists.
  split; [apply get_stored_forecasts_unfold |].
  intros r Hr.
  assert (Hu' : unique_keys (price_forecasts db')).
  { pose proof (generate_unique L (ForecastDistrict district_code periods now)
                  db Hu) as H.
    simpl in H. rewrite Hfd in H. exact H. }
  destruct (generated_rows_found L district_code periods now db db' rows r
              Hc Hfd Hr)
    as (d & f & Hscope & Hf & (Hk & Hp & Hlo & Hup) & Hg).
  rewrite Hscope. injection Hk as Hkd Hkm Hky Hkq.
  exists (_forecast_to_dict f).
  split; [apply in_map, ensemble_scope; auto |].
  cbn [_forecast_to_dict st_year st_quarter st_predicted_price_m2
       st_lower_bound st_upper_bound st_generated_at].
  repeat (split; [assumption |]).
  intros x' Hx' Hper. apply in_map_iff in Hx' as (g & <- & Hg').
  apply ensemble_scope in Hg' as (Hgin & Hgd & Hgm).
  f_equal. apply (unique_keys_inj (price_forecasts db')); try assumption.
  unfold stored_period, _forecast_to_dict in Hper.
  cbn [st_year st_quarter] in Hper. injection Hper as Hy Hq.
  unfold PriceForecast.key. congruence.
Qed.

Lemma forecast_district_then_stored_witness :
  exists stored,
    get_stored_forecasts (Some "01"%string) "ensemble" 300 stored_db
    = (Ok stored, stored_db)
    /\ forall r,
         In r [mkRow (mkPoint 2024 1 (inject_Z 3700) (inject_Z 3700)
                        (inject_Z 3700) CONFIDENCE) "ensemble" "01";
               mkRow (mkPoint 2024 2 (inject_Z 3750) (inject_Z 3750)
                        (inject_Z 3750) CONFIDENCE) "ensemble" "01"] ->
         exists x,
           In x stored
           /\ st_year x = year (point r)
           /\ st_quarter x = quarter (point r)
           /\ st_predicted_price_m2 x = predicted_price_m2 (point r)
           /\ st_lower_bound x = lower_bound (point r)
           /\ st_upper_bound x = upper_bound (point r)
           /\ st_generated_at x = Some 100
           /\ forall x', In x' stored ->
                         stored_period x' = stored_period x -> x' = x.
Proof.
  apply (forecast_district_then_stored reference "01" 2 100 300 sample_db
           stored_db).
  - constructor.
  - discriminate.
  - vm_compute. reflexivity.
Defined.

(* ------------------------------------------------------------------ *)
(** * All three forecast sets are persisted *)

(** X25. A generation stores the forecast of each of the three models,
    not only the ensemble rows it returns: for a known district with at
    least four valid observations and a horizon [h >= 1], after
    [forecast_district] every point of the trend, seasonal and ensemble
    forecasts has a stored row under the model name "linear", "sarima" or
    "ensemble" with its year, quarter, predicted, lower and upper values
    and the timestamp of the generation. *)
Theorem forecast_district_persists_all (L : Libraries)
  (district_code : string) (periods now : Z) (db : Database)
  (district : District.t) (ts : TimeSeries) :
  unique_keys (price_forecasts db) ->
  first (filter (fun d => String.eqb (District.code d) district_code)
                (districts db)) = Some district ->
  _load_time_series (begin db) (District.id district) = Ok ts ->
  4 <= len ts ->
  1 <= periods ->
  exists lin sar ens rows db',
    run_models L ts periods = Ok (lin, sar, ens)
    /\ forecast_district L district_code periods now db = (Ok rows, db')
    /\ forall m fc r,
         In (m, fc) [("linear"%string, lin); ("sarima"%string, sar);
                     ("ensemble"%string, ens)] ->
         In r fc ->
         exists f,
           In f (price_forecasts db')
           /\ PriceForecast.key f
              = (District.id district, m, year r, quarter r)
           /\ PriceForecast.predicted_price_m2 f = predicted_price_m2 r
           /\ PriceForecast.lower_bound f = lower_bound r
           /\ PriceForecast.upper_bound f = upper_bound r
           /\ PriceForecast.generated_at f = Some now.
Proof.
  intros Hu Hd Hts Hlen Hp.
  assert (Hne : ts <> []).
  { intros E. rewrite E in Hlen. unfold len in Hlen. simpl in Hlen. lia. }
  destruct (run_models_total L ts periods Hne Hp) as (lin & sar & ens & Hrun).
  destruct (forecast_district_generates L district_code periods now db
              district ts lin sar ens Hu Hd Hts Hlen Hrun)
    as (s' & Hfd & Hcall).
  exists lin, sar, ens. eexists _, _. split; [exact Hrun |].
  split; [exact Hcall |].
  intros m fc r Hin Hr.
  rewrite (forecast_district_run L _ _ _ _ ts lin sar ens Hts Hlen Hrun)
    in Hfd.
  assert (Hs' : fst (save_models (begin db) district
                       [("linear"%string, lin); ("sarima"%string, sar);
                        ("ensemble"%string, ens)] now []) = s')
    by congruence.
  destruct (run_models_periods_of L _ _ _ _ _ Hrun)
    as (ps & Hps & Hlin & Hsar & Hens).
  pose proof (next_periods_NoDup _ _ _ Hps) as Hnd.
  assert (Hrec : recorded s' (District.id district) m r now).
  { rewrite <- Hs'.
    apply (save_models_recorded district now
             [("linear"%string, lin); ("sarima"%string, sar);
              ("ensemble"%string, ens)] (begin db) [])
      with (fc := fc); try assumption.
    - repeat constructor; simpl; intuition discriminate.
    - intros m' fc' [[= <- <-] | [[= <- <-] | [[= <- <-] | []]]];
        congruence. }
  cbn [price_forecasts].
  destruct Hrec as [(f & Hf & (Hk & Hv) & Hg) | (f & Hf & Hc & Hg)].
  - exists f. split; [apply in_or_app; left; exact Hf |].
    split; [exact Hk |]. tauto.
  - destruct (stamp_carries now f _ _ _ Hc Hg) as [(Hk & Hv) Hg'].
    exists (stamp now f).
    split; [apply in_or_app; right; apply in_map; exact Hf |].
    split; [exact Hk |]. tauto.
Qed.

Lemma forecast_district_persists_all_witness :
  exists lin sar ens rows db',
    run_models reference rising_series 2 = Ok (lin, sar, ens)
    /\ forecast_district reference "01" 2 100 sample_db = (Ok rows, db')
    /\ forall m fc r,
         In (m, fc) [("linear"%string, lin); ("sarima"%string, sar);
                     ("ensemble"%string, ens)] ->
         In r fc ->
         exists f,
           In f (price_forecasts db')
           /\ PriceForecast.key f
              = (District.id (District.mk 1 "01"), m, year r, quarter r)
           /\ PriceForecast.predicted_price_m2 f = predicted_price_m2 r
           /\ PriceForecast.lower_bound f = lower_bound r
           /\ PriceForecast.upper_bound f = upper_bound r
           /\ PriceForecast.generated_at f = Some 100.
Proof.
  apply (forecast_district_persists_all reference "01" 2 100 sample_db
           (District.mk 1 "01") rising_series).
  - constructor.
  - reflexivity.
  - reflexivity.
  - vm_compute. discriminate.
  - lia.
Defined.

(* ------------------------------------------------------------------ *)
(** * Overwriting on regeneration *)





(* ------------------------------------------------------------------ *)
(** * The forecast route ([app/api/routes.py]) *)

(** What the route hands back: the stored dicts, or the rows that were
    just generated. *)
Inductive ForecastResponse : Type :=
| StoredRows (rows : list StoredForecast)
| GeneratedRows (rows : list ForecastRow).

Module Routes.

(** [forecast_district], the handler of [GET /forecast/{district_code}]:
    the stored forecasts of the requested model if there are any
    ([if stored:]), otherwise a generation. *)
Definition forecast_district (L : Libraries) (district_code : string)
  (periods : Z) (model : string) (now : Z) (db : Database)
  : result ForecastResponse * Database :=
  let (stored, db1) :=
    get_stored_forecasts (Some district_code) model now db in
  match stored with
  | Raise e => (Raise e, db1)
  | Ok stored =>
      match stored with
      | _ :: _ => (Ok (StoredRows stored), db1)
      | [] =>
          let (rows, db2) :=
            forecast_district L district_code periods now db1 in
          match rows with
          | Raise e => (Raise e, db2)
          | Ok rows => (Ok (GeneratedRows rows), db2)
          end
      end
  end.

End Routes.

(** X8. Once [forecast_district] has returned rows for a district, the
    route serves the stored ensemble forecasts of that district: it does
    not generate again and leaves the database as it is, whatever horizon
    is requested, and every generated row is among the stored rows it
    returns. *)
Theorem route_serves_stored (L : Libraries) (district_code : string)
  (periods periods' now now' : Z) (db db' : Database)
  (rows : list ForecastRow) :
  district_code <> ""%string ->
  forecast_district L district_code periods now db = (Ok rows, db') ->
  rows <> [] ->
  exists stored,
    Routes.forecast_district L district_code periods' "ensemble" now' db'
    = (Ok (StoredRows stored), db')
    /\ get_stored_forecasts (Some district_code) "ensemble" now' db'
       = (Ok stored, db')
    /\ forall r, In r rows ->
         exists x, In x stored
                   /\ stored_period x = (year (point r), quarter (point r))
                   /\ st_predicted_price_m2 x = predicted_price_m2 (point r)
                   /\ st_generated_at x = Some now.
Proof.
  intros Hc Hfd Hne.
  assert (Hall : forall r, In r rows ->
             exists x,
               In x (map _forecast_to_dict
                       (order_by forecast_period
                          (filter (fun f => String.eqb
                                              (PriceForecast.model_name f)
                                              "ensemble")
                                  (district_scope db' (Some district_code)))))
               /\ stored_period x = (year (point r), quarter (point r))
               /\ st_predicted_price_m2 x = predicted_price_m2 (point r)
               /\ st_generated_at x = Some now).
  { intros r Hr.
    destruct (generated_rows_found L district_code periods now db db' rows r
                Hc Hfd Hr)
      as (d & f & Hscope & Hf & (Hk & Hp & _ & _) & Hg).
    rewrite Hscope. injection Hk as Hkd Hkm Hky Hkq.
    exists (_forecast_to_dict f).
    split; [apply in_map, ensemble_scope; auto |].
    unfold stored_period.
    cbn [_forecast_to_dict st_year st_quarter st_predicted_price_m2
         st_generated_at].
    repeat split; congruence. }
  eexists. split; [| split; [apply get_stored_forecasts_unfold | exact Hall]].
  unfold Routes.forecast_district. rewrite get_stored_forecasts_unfold.
  destruct rows as [| r rows]; [congruence |].
  destruct (Hall r (or_introl eq_refl)) as (x & Hx & _).
  destruct (map _forecast_to_dict _) as [| y stored];
    [destruct Hx | reflexivity].
Qed.

Lemma route_serves_stored_witness :
  exists stored,
    Routes.forecast_district reference "01" 20 "ensemble" 300 stored_db
    = (Ok (StoredRows stored), stored_db)
    /\ get_stored_forecasts (Some "01"%string) "ensemble" 300 stored_db
       = (Ok stored, stored_db)
    /\ forall r,
         In r [mkRow (mkPoint 2024 1 (inject_Z 3700) (inject_Z 3700)
                        (inject_Z 3700) CONFIDENCE) "ensemble" "01";
               mkRow (mkPoint 2024 2 (inject_Z 3750) (inject_Z 3750)
                        (inject_Z 3750) CONFIDENCE) "ensemble" "01"] ->
         exists x, In x stored
                   /\ stored_period x = (year (point r), quarter (point r))
                   /\ st_predicted_price_m2 x = predicted_price_m2 (point r)
                   /\ st_generated_at x = Some 100.
Proof.
  apply (route_serves_stored reference "01" 2 20 100 300 sample_db
           stored_db).
  - discriminate.
  - vm_compute. reflexivity.
  - discriminate.
Defined.

(** X9. When the district has no stored forecast of the requested model,
    the route generates: for a district with at least four valid
    observations and a horizon [h >= 1] it returns the [h] rows of the
    ensemble forecast, tagged "ensemble", whichever model was requested
    ("linear" and "sarima" included). *)
Theorem route_generates_ensemble (L : Libraries) (district_code : string)
  (periods : Z) (model : string) (now : Z) (db : Database)
  (district : District.t) (ts : TimeSeries) :
  unique_keys (price_forecasts db) ->
  district_code <> ""%string ->
  first (filter (fun d => String.eqb (District.code d) district_code)
                (districts db)) = Some district ->
  (forall f, In f (price_forecasts db) ->
             PriceForecast.district_id f = District.id district ->
             PriceForecast.model_name f <> model) ->
  _load_time_series (begin db) (District.id district) = Ok ts ->
  4 <= len ts ->
  1 <= periods ->
  exists lin sar ens db',
    run_models L ts periods = Ok (lin, sar, ens)
    /\ Routes.forecast_district L district_code periods model now db
       = (Ok (GeneratedRows
                (map (fun r => mkRow r "ensemble" district_code) ens)), db')
    /\ Z.of_nat (length ens) = periods.
Proof.
  intros Hu Hc Hd Hnone Hts Hlen Hp.
  assert (Hne : ts <> []).
  { intros E. rewrite E in Hlen. unfold len in Hlen. simpl in Hlen. lia. }
  destruct (run_models_total L ts periods Hne Hp) as (lin & sar & ens & Hrun).
  destruct (forecast_district_generates L district_code periods now db
              district ts lin sar ens Hu Hd Hts Hlen Hrun)
    as (s' & _ & Hfd).
  exists lin, sar, ens. eexists. split; [exact Hrun |].
  split; [| apply (run_models_length L _ _ _ _ _ Hrun)].
  unfold Routes.forecast_district.
  rewrite get_stored_forecasts_unfold.
  rewrite (district_scope_known db district_code district Hc Hd).
  assert (Hempty : filter (fun f => String.eqb (PriceForecast.model_name f)
                                               model)
                     (filter (fun f => PriceForecast.district_id f
                                       =? District.id district)
                             (price_forecasts db)) = []).
  { destruct (filter _ (filter _ _)) as [| f l] eqn:E; [reflexivity |].
    exfalso.
    assert (Hf : In f (filter (fun f => String.eqb
                                          (PriceForecast.model_name f) model)
                         (filter (fun f => PriceForecast.district_id f
                                           =? District.id district)
                                 (price_forecasts db))))
      by (rewrite E; simpl; auto).
    apply filter_In in Hf as [Hf Hm]. apply filter_In in Hf as [Hf Hid].
    apply (Hnone f Hf); [apply Z.eqb_eq, Hid | apply String.eqb_eq, Hm]. }
  rewrite Hempty. cbn [order_by fold_left map]. rewrite Hfd. reflexivity.
Qed.

Lemma route_generates_ensemble_witness :
  exists lin sar ens db',
    run_models reference rising_series 2 = Ok (lin, sar, ens)
    /\ Routes.forecast_district reference "01" 2 "linear" 100 sample_db
       = (Ok (GeneratedRows
                (map (fun r => mkRow r "ensemble" "01") ens)), db')
    /\ Z.of_nat (length ens) = 2.
Proof.
  apply (route_generates_ensemble reference "01" 2 "linear" 100 sample_db
           (District.mk 1 "01") rising_series).
  - constructor.
  - discriminate.
  - reflexivity.
  - intros f [].
  - reflexivity.
  - vm_compute. discriminate.
  - lia.
Defined.

(** X10. For a code that matches no district the route reports no error
    and changes nothing: it returns the stored forecasts of the requested
    model for all districts when there are any, and an empty list
    otherwise. *)
Theorem route_unknown_district (L : Libraries) (district_code : string)
  (periods : Z) (model : string) (now : Z) (db : Database) :
  first (filter (fun d => String.eqb (District.code d) district_code)
                (districts db)) = None ->
  exists resp,
    Routes.forecast_district L district_code periods model now db
    = (Ok resp, db)
    /\ ((resp = GeneratedRows []
         /\ forall f, In f (price_forecasts db) ->
                      PriceForecast.model_name f <> model)
        \/ exists stored,
             resp = StoredRows stored
             /\ stored <> []
             /\ forall f, In f (price_forecasts db) ->
                          PriceForecast.model_name f = model ->
                          In (_forecast_to_dict f) stored).
Proof.
  intros Hd. unfold Routes.forecast_district.
  rewrite get_stored_forecasts_unfold.
  assert (Hscope : district_scope db (Some district_code)
                   = price_forecasts db).
  { unfold district_scope. rewrite Hd.
    destruct (truthy (Some district_code)); reflexivity. }
  rewrite Hscope.
  assert (Hin : forall f, In f (price_forecasts db) ->
                  PriceForecast.model_name f = model ->
                  In (_forecast_to_dict f)
                     (map _forecast_to_dict
                        (order_by forecast_period
                           (filter (fun f => String.eqb
                                               (PriceForecast.model_name f)
                                               model)
                                   (price_forecasts db))))).
  { intros f Hf Hm. apply in_map, order_by_In, filter_In.
    split; [exact Hf | apply String.eqb_eq, Hm]. }
  destruct (map _forecast_to_dict _) as [| x stored] eqn:E.
  - unfold forecast_district, db_session. cbn [begin loaded]. rewrite Hd.
    fold (begin db). rewrite commit_begin.
    eexists. split; [reflexivity |]. left. split; [reflexivity |].
    intros f Hf Hm. exact (Hin f Hf Hm).
  - eexists. split; [reflexivity |]. right.
    exists (x :: stored). split; [reflexivity |]. split; [discriminate |].
    exact Hin.
Qed.

Lemma route_unknown_district_witness :
  exists resp,
    Routes.forecast_district reference "99" 4 "ensemble" 300 stored_db
    = (Ok resp, stored_db)
    /\ ((resp = GeneratedRows []
         /\ forall f, In f (price_forecasts stored_db) ->
                      PriceForecast.model_name f <> "ensemble"%string)
        \/ exists stored,
             resp = StoredRows stored
             /\ stored <> []
             /\ forall f, In f (price_forecasts stored_db) ->
                          PriceForecast.model_name f = "ensemble"%string ->
                          In (_forecast_to_dict f) stored).
Proof.
  apply (route_unknown_district reference "99" 4 "ensemble" 300 stored_db).
  reflexivity.
Defined.

(* ------------------------------------------------------------------ *)
(** * A bulk generation on well-formed data *)

(** Every "all" sale price has a quarter in 1..4. *)
Definition valid_quarters (db : Database) : Prop :=
  forall r, In r (sale_prices db) ->
            SalePrice.property_type r = "all"%string ->
            1 <= SalePrice.quarter r <= 4.

Lemma valid_quarters_series (db : Database) (district_id : Z) :
  valid_quarters db ->
  forall r, In r (series_rows db district_id) ->
            1 <= SalePrice.quarter r <= 4.
Proof.
  intros Hv r Hr. apply filter_In in Hr as [Hin Hc].
  apply andb_true_iff in Hc as [_ Hc]. apply String.eqb_eq in Hc.
  exact (Hv r Hin Hc).
Qed.

(** The rows [_forecast_district] returns for a district, which depend on
    the sale prices only. *)
Definition district_rows (L : Libraries) (db : Database)
  (district : District.t) (periods : Z) : list ForecastRow :=
  match _load_time_series (begin db) (District.id district) with
  | Ok ts =>
      if len ts <? 4 then []
      else match run_models L ts periods with
           | Ok (_, _, ensemble_fc) => map (tag "ensemble" district) ensemble_fc
           | Raise _ => []
           end
  | Raise _ => []
  end.

Lemma forecast_district_rows (L : Libraries) (db : Database) (s s' : Session)
  (district : District.t) (periods now : Z) (rows : list ForecastRow) :
  sale_prices (loaded s) = sale_prices db ->
  _forecast_district L s district periods now = Ok (rows, s') ->
  rows = district_rows L db district periods.
Proof.
  intros Hsp H. unfold district_rows.
  rewrite (load_time_series_ext s (begin db) (District.id district))
    by (symmetry; exact Hsp).
  destruct (_load_time_series s (District.id district)) as [ts |] eqn:Hts;
    [| unfold _forecast_district in H; rewrite Hts in H; discriminate].
  destruct (Z.ltb_spec (len ts) 4) as [Hlt | Hge].
  - rewrite (forecast_district_short L _ _ _ _ ts Hts Hlt) in H.
    injection H as <- _. reflexivity.
  - destruct (run_models L ts periods) as [[[lin sar] ens] |] eqn:Hrun.
    + rewrite (forecast_district_run L _ _ _ _ ts lin sar ens Hts Hge Hrun)
        in H.
      injection H as <- _. reflexivity.
    + unfold _forecast_district in H. rewrite Hts in H. cbn [bind] in H.
      replace (len ts <? 4) with false in H
        by (symmetry; apply Z.ltb_ge; lia).
      rewrite Hrun in H. discriminate.
Qed.

Lemma dict_set_fresh {V : Type} (k : string) (v : V)
  (d : list (string * V)) :
  ~ In k (map fst d) -> dict_set k v d = d ++ [(k, v)].
Proof.
  induction d as [| [k' v'] d IH]; intros Hk; simpl; [reflexivity |].
  destruct (String.eqb_spec k' k) as [-> | Hne].
  - exfalso. apply Hk. simpl. auto.
  - rewrite IH; [reflexivity |]. intros Hin. apply Hk. simpl. auto.
Qed.

Lemma first_filter_unique (ds : list District.t) (d : District.t) :
  NoDup (map District.code ds) -> In d ds ->
  first (filter (fun x => String.eqb (District.code x) (District.code d)) ds)
  = Some d.
Proof.
  induction ds as [| x ds IH]; intros Hnd Hin; [destruct Hin |].
  apply NoDup_cons_iff in Hnd as [Hx Hnd]. simpl.
  destruct (String.eqb_spec (District.code x) (District.code d)) as [E | E].
  - simpl. destruct Hin as [-> | Hin]; [reflexivity |].
    exfalso. apply Hx. rewrite E. apply in_map, Hin.
  - destruct Hin as [-> | Hin]; [congruence |]. apply IH; assumption.
Qed.

Section BulkSuccess.

Variables (L : Libraries) (db : Database) (periods now : Z).

Hypothesis Hvalid : valid_quarters db.
Hypothesis Hperiods : 1 <= periods.

Lemma forecast_each_ok (ds : list District.t) (s : Session)
  (results : list (string * list ForecastRow)) :
  sale_prices (loaded s) = sale_prices db ->
  fresh s ->
  NoDup (map District.id ds) ->
  NoDup (map District.code ds) ->
  (forall k, In k (map PriceForecast.key (pending s)) ->
             ~ In (key_district k) (map District.id ds)) ->
  (forall d, In d ds -> ~ In (District.code d) (map fst results)) ->
  exists s',
    forecast_each L s ds periods now results
    = Ok (results
          ++ map (fun d => (District.code d, district_rows L db d periods)) ds,
          s')
    /\ same_tables s s'
    /\ fresh s'.
Proof.
  revert s results.
  induction ds as [| d ds IH];
    intros s results Hsp Hfr Hids Hcodes Hpend Hres; simpl.
  - exists s. rewrite app_nil_r.
    split; [reflexivity |]. split; [apply same_tables_refl | exact Hfr].
  - apply NoDup_cons_iff in Hids as [Hid Hids].
    apply NoDup_cons_iff in Hcodes as [Hcode Hcodes].
    destruct (forecast_district_step L s d periods now)
      as (ts & rows & s1 & _ & Hfd & Hsame & Hfr1 & Hpend1 & _).
    { apply valid_quarters_series. unfold valid_quarters. rewrite Hsp.
      exact Hvalid. }
    { exact Hperiods. }
    { exact Hfr. }
    { intros k Hk E. apply (Hpend k Hk). simpl. auto. }
    rewrite Hfd. cbn [bind].
    pose proof (forecast_district_rows L db s s1 d periods now rows Hsp Hfd)
      as Hrows.
    destruct Hsame as (Hds1 & Hsp1 & Hk1).
    rewrite dict_set_fresh by (apply Hres; simpl; auto).
    destruct (IH s1 (results ++ [(District.code d, rows)]))
      as (s' & Heach & Hsame' & Hfr').
    + congruence.
    + exact Hfr1.
    + exact Hids.
    + exact Hcodes.
    + intros k Hk Hin. apply Hpend1 in Hk as [Hk | Hk].
      * apply (Hpend k Hk). simpl. auto.
      * apply Hid. rewrite <- Hk. exact Hin.
    + intros x Hx Hin. rewrite map_app in Hin.
      apply in_app_or in Hin as [Hin | [Hin | []]].
      * apply (Hres x); simpl; auto.
      * apply Hcode. cbn [fst] in Hin. rewrite Hin. apply in_map, Hx.
    + exists s'. rewrite Heach, <- app_assoc, Hrows.
      split; [reflexivity |]. split; [| exact Hfr'].
      eapply same_tables_trans; [| exact Hsame'].
      repeat split; assumption.
Qed.

End BulkSuccess.

(** X11. On a database whose forecast table has at most one row per key,
    whose districts have distinct ids and distinct codes and whose "all"
    sale prices have quarters in 1..4, [forecast_all_districts] with a
    horizon [h >= 1] does not raise: it returns one entry per district, in
    the order of the districts, the entry of a district being the rows
    [forecast_district] returns for it, and the table still has at most
    one row per key. *)
Theorem forecast_all_districts_succeeds (L : Libraries) (periods now : Z)
  (db : Database) :
  unique_keys (price_forecasts db) ->
  NoDup (map District.id (districts db)) ->
  NoDup (map District.code (districts db)) ->
  valid_quarters db ->
  1 <= periods ->
  exists results db',
    forecast_all_districts L periods now db = (Ok results, db')
    /\ map fst results = map District.code (districts db)
    /\ (forall d, In d (districts db) ->
          exists rows,
            In (District.code d, rows) results
            /\ fst (forecast_district L (District.code d) periods now db)
               = Ok rows)
    /\ districts db' = districts db
    /\ sale_prices db' = sale_prices db
    /\ unique_keys (price_forecasts db').
Proof.
  intros Hu Hids Hcodes Hvalid Hp.
  destruct (forecast_each_ok L db periods now Hvalid Hp (districts db)
              (begin db) [])
    as (s' & Heach & (Hds & Hsp & Hk) & Hfr).
  { reflexivity. }
  { apply fresh_begin, Hu. }
  { exact Hids. }
  { exact Hcodes. }
  { intros k []. }
  { intros d _ []. }
  cbn [app] in Heach.
  eexists _, _. split.
  { unfold forecast_all_districts, db_session. cbn [begin loaded].
    fold (begin db). rewrite Heach, (commit_fresh now _ Hfr). reflexivity. }
  split; [rewrite map_map; reflexivity |]. split; [| split; [| split]].
  - intros d Hd. exists (district_rows L db d periods).
    split; [apply in_map_iff; exists d; auto |].
    destruct (forecast_district_step L (begin db) d periods now)
      as (ts & rows & s1 & _ & Hfd & _ & Hfr1 & _ & _).
    { apply valid_quarters_series, Hvalid. }
    { exact Hp. }
    { apply fresh_begin, Hu. }
    { intros k []. }
    rewrite (forecast_district_rows L db (begin db) s1 d periods now rows
               eq_refl Hfd) in Hfd.
    unfold forecast_district, db_session. cbn [begin loaded].
    rewrite (first_filter_unique _ d Hcodes Hd). fold (begin db).
    rewrite Hfd, (commit_fresh now _ Hfr1). reflexivity.
  - exact Hds.
  - exact Hsp.
  - cbn [price_forecasts]. unfold fresh in Hfr. unfold unique_keys.
    rewrite map_app, map_map.
    rewrite (map_ext _ PriceForecast.key (stamp_key now)). exact Hfr.
Qed.

Lemma forecast_all_districts_succeeds_witness :
  exists results db',
    forecast_all_districts reference 2 100 sample_db = (Ok results, db')
    /\ map fst results = map District.code (districts sample_db)
    /\ (forall d, In d (districts sample_db) ->
          exists rows,
            In (District.code d, rows) results
            /\ fst (forecast_district reference (District.code d) 2 100
                      sample_db)
               = Ok rows)
    /\ districts db' = districts sample_db
    /\ sale_prices db' = sale_prices sample_db
    /\ unique_keys (price_forecasts db').
Proof.
  apply (forecast_all_districts_succeeds reference 2 100 sample_db).
  - constructor.
  - repeat constructor; simpl; intuition discriminate.
  - repeat constructor; simpl; intuition discriminate.
  - intros r Hr _. vm_compute in Hr.
    repeat (destruct Hr as [<- | Hr]; [simpl; lia |]). destruct Hr.
  - lia.
Defined.

(* ------------------------------------------------------------------ *)
(** * More on the three models *)

(** X12. Every point of the trend forecast has its lower bound at or
    below the prediction; the prediction exceeds the upper bound only in
    one way: the upper bound is negative while prediction and lower bound
    have both been clamped to 0. *)
Theorem linear_forecast_order_or_clamped (L : Libraries) (ts : TimeSeries)
  (periods : Z) (fc : list ForecastPoint) :
  _linear_forecast L ts periods = Ok fc ->
  Forall (fun pt =>
            (lower_bound pt <= predicted_price_m2 pt)%Q
            /\ (ordered_point pt
                \/ (predicted_price_m2 pt = 0%Q
                    /\ lower_bound pt = 0%Q
                    /\ (upper_bound pt < 0)%Q))) fc.
Proof.
  intros H. apply linear_forecast_inv in H as (_ & _ & ps & _ & ->).
  apply Forall_map, Forall_forall.
  intros [i p] _. unfold ordered_point, linear_point.
  cbn [lower_bound predicted_price_m2 upper_bound].
  set (pred := lr_predict L (ts_values ts) (len ts + i)).
  set (sigma := np_std L _).
  assert (Hs : (0 <= sigma)%Q) by apply np_std_nonneg.
  assert (Hlo : (round2 (py_max 0 (pred - z95 * sigma))
                 <= round2 (py_max 0 pred))%Q).
  { apply NumFacts.round2_mono, NumFacts.py_max_0_mono. unfold z95. nra. }
  split; [exact Hlo |].
  destruct (Qlt_le_dec (round2 (pred + z95 * sigma)) 0) as [Hneg | Hpos].
  - right.
    assert (Hraw : (pred + z95 * sigma < 0)%Q).
    { destruct (Qlt_le_dec (pred + z95 * sigma) 0) as [Hlt | Hge];
        [exact Hlt |].
      apply NumFacts.round2_nonneg in Hge. lra. }
    assert (Hp : (pred <= 0)%Q) by (unfold z95 in Hraw; nra).
    assert (Hl : (pred - z95 * sigma <= 0)%Q) by (unfold z95 in *; nra).
    rewrite (NumFacts.py_max_0_neg pred Hp).
    rewrite (NumFacts.py_max_0_neg _ Hl).
    rewrite NumFacts.round2_0. auto.
  - left. split; [exact Hlo |].
    destruct (Qlt_le_dec pred 0) as [Hn | Hp].
    + rewrite NumFacts.py_max_0_neg by lra. rewrite NumFacts.round2_0.
      exact Hpos.
    + apply NumFacts.round2_mono.
      rewrite (NumFacts.py_max_0_pos pred Hp). unfold z95. nra.
Qed.

Lemma linear_forecast_order_or_clamped_witness :
  Forall (fun pt =>
            (lower_bound pt <= predicted_price_m2 pt)%Q
            /\ (ordered_point pt
                \/ (predicted_price_m2 pt = 0%Q
                    /\ lower_bound pt = 0%Q
                    /\ (upper_bound pt < 0)%Q)))
         [mkPoint 2024 1 0 0 0 CONFIDENCE;
          mkPoint 2024 2 0 0 (inject_Z (-1000)) CONFIDENCE].
Proof.
  apply (linear_forecast_order_or_clamped reference falling_series 2).
  vm_compute. reflexivity.
Defined.

Lemma blend_ordered (lin sar : ForecastPoint) :
  ordered_point lin -> ordered_point sar ->
  ordered_point (blend W_SARIMA lin sar).
Proof.
  intros [Hl1 Hl2] [Hs1 Hs2]. unfold ordered_point, blend, W_SARIMA.
  cbn [predicted_price_m2 lower_bound upper_bound].
  split; apply NumFacts.round2_mono; nra.
Qed.

(** X13. The ensemble keeps the order of the bounds: when every trend
    point and every seasonal point has lower <= predicted <= upper, so
    has every ensemble point. *)
Theorem ensemble_preserves_order (lin sar : list ForecastPoint) :
  Forall ordered_point lin -> Forall ordered_point sar ->
  Forall ordered_point (_ensemble_forecast lin sar).
Proof.
  unfold _ensemble_forecast, _ensemble_forecast_w. intros Hl. revert sar.
  induction Hl as [| l lin Hl _ IH]; intros sar Hs; [constructor |].
  destruct Hs as [| s sar Hs Hs']; [constructor |].
  simpl. constructor; [apply blend_ordered; assumption | apply IH, Hs'].
Qed.

Lemma ensemble_preserves_order_witness :
  let lin := [mkPoint 2024 1 (inject_Z 100) (inject_Z 90) (inject_Z 110)
                CONFIDENCE] in
  let sar := [mkPoint 2024 1 (inject_Z 120) (inject_Z 80) (inject_Z 130)
                CONFIDENCE] in
  Forall ordered_point (_ensemble_forecast lin sar).
Proof.
  intros lin sar. apply (ensemble_preserves_order lin sar).
  - repeat constructor; vm_compute; discriminate.
  - repeat constructor; vm_compute; discriminate.
Defined.

Lemma round2_between (a b c : Q) :
  round2 a = a -> round2 b = b ->
  (Qmin a b <= c)%Q -> (c <= Qmax a b)%Q ->
  (Qmin a b <= round2 c)%Q /\ (round2 c <= Qmax a b)%Q.
Proof.
  intros Ha Hb.
  assert (Hlo : forall x, round2 x = x -> (x <= c)%Q -> (x <= round2 c)%Q).
  { intros x Hx H. rewrite <- Hx. apply NumFacts.round2_mono, H. }
  assert (Hhi : forall x, round2 x = x -> (c <= x)%Q -> (round2 c <= x)%Q).
  { intros x Hx H. rewrite <- Hx. apply NumFacts.round2_mono, H. }
  unfold Qmin, Qmax, GenericMinMax.gmin, GenericMinMax.gmax.
  destruct (Qcompare a b); intros H1 H2; split; auto.
Qed.

Lemma weighted_between (a b : Q) :
  (Qmin a b <= (1 - W_SARIMA) * a + W_SARIMA * b)%Q
  /\ ((1 - W_SARIMA) * a + W_SARIMA * b <= Qmax a b)%Q.
Proof.
  unfold W_SARIMA.
  pose proof (Q.le_min_l a b). pose proof (Q.le_min_r a b).
  pose proof (Q.le_max_l a b). pose proof (Q.le_max_r a b).
  split; nra.
Qed.

(** X14. Each field of an ensemble point lies between the corresponding
    fields of the trend point and the seasonal point it blends, when these
    are two-decimal values (as the models emit them): blending never
    leaves the range spanned by the two forecasts. *)
Theorem ensemble_between (lin sar : list ForecastPoint) (i : nat)
  (pl ps : ForecastPoint) :
  nth_error lin i = Some pl -> nth_error sar i = Some ps ->
  rounded_point pl -> rounded_point ps ->
  exists pe,
    nth_error (_ensemble_forecast lin sar) i = Some pe
    /\ (Qmin (predicted_price_m2 pl) (predicted_price_m2 ps)
        <= predicted_price_m2 pe
        <= Qmax (predicted_price_m2 pl) (predicted_price_m2 ps))%Q
    /\ (Qmin (lower_bound pl) (lower_bound ps)
        <= lower_bound pe
        <= Qmax (lower_bound pl) (lower_bound ps))%Q
    /\ (Qmin (upper_bound pl) (upper_bound ps)
        <= upper_bound pe
        <= Qmax (upper_bound pl) (upper_bound ps))%Q.
Proof.
  intros Hl Hs (Hl1 & Hl2 & Hl3) (Hs1 & Hs2 & Hs3).
  exists (blend W_SARIMA pl ps).
  split; [apply ensemble_nth; assumption |].
  unfold blend. cbn [predicted_price_m2 lower_bound upper_bound].
  repeat split;
    try (apply round2_between; try assumption; apply weighted_between).
Qed.

Lemma ensemble_between_witness :
  let pl := mkPoint 2024 1 (inject_Z 100) (inject_Z 90) (inject_Z 110)
              CONFIDENCE in
  let ps := mkPoint 2024 1 (10001 # 100) (inject_Z 80) (inject_Z 130)
              CONFIDENCE in
  exists pe,
    nth_error (_ensemble_forecast [pl] [ps]) 0 = Some pe
    /\ (Qmin (predicted_price_m2 pl) (predicted_price_m2 ps)
        <= predicted_price_m2 pe
        <= Qmax (predicted_price_m2 pl) (predicted_price_m2 ps))%Q
    /\ (Qmin (lower_bound pl) (lower_bound ps)
        <= lower_bound pe
        <= Qmax (lower_bound pl) (lower_bound ps))%Q
    /\ (Qmin (upper_bound pl) (upper_bound ps)
        <= upper_bound pe
        <= Qmax (upper_bound pl) (upper_bound ps))%Q.
Proof.
  intros pl ps. apply (ensemble_between [pl] [ps] 0 pl ps).
  - reflexivity.
  - reflexivity.
  - repeat split; vm_compute; reflexivity.
  - repeat split; vm_compute; reflexivity.
Defined.

(** X15. [_ensemble_forecast] pairs the two sequences with [zip]: given
    sequences of different lengths it raises nothing and blends only the
    common prefix, so the result has the length of the shorter one and the
    periods of the first points of the trend sequence. *)
Theorem ensemble_truncates (lin sar : list ForecastPoint) :
  length (_ensemble_forecast lin sar) = Nat.min (length lin) (length sar)
  /\ periods_of (_ensemble_forecast lin sar)
     = firstn (length sar) (periods_of lin)
  /\ _ensemble_forecast lin sar
     = _ensemble_forecast (firstn (length sar) lin)
                          (firstn (length lin) sar).
Proof.
  unfold _ensemble_forecast, _ensemble_forecast_w, periods_of.
  split; [rewrite length_map, length_combine; reflexivity |]. split.
  - revert sar. induction lin as [| l lin IH]; intros [| s sar]; simpl;
      try reflexivity.
    f_equal. apply IH.
  - f_equal. revert sar.
    induction lin as [| l lin IH]; intros [| s sar]; simpl; try reflexivity.
    f_equal. apply IH.
Qed.

(** X16. The three forecasts of a run are aligned: the seasonal and the
    ensemble sequences cover the same periods as the trend sequence, in the
    same order; these periods are pairwise distinct and there are as many
    as the horizon.  The ensemble is thus always given sequences of equal
    length. *)
Theorem run_models_aligned (L : Libraries) (ts : TimeSeries) (periods : Z)
  (lin sar ens : list ForecastPoint) :
  run_models L ts periods = Ok (lin, sar, ens) ->
  periods_of sar = periods_of lin
  /\ periods_of ens = periods_of lin
  /\ NoDup (periods_of lin)
  /\ length sar = length lin
  /\ Z.of_nat (length lin) = periods.
Proof.
  intros H.
  destruct (run_models_periods_of L _ _ _ _ _ H)
    as (ps & Hps & Hlin & Hsar & Hens).
  destruct (run_models_length L _ _ _ _ _ H) as (_ & Hl & Hs & _).
  split; [congruence |]. split; [congruence |].
  split; [rewrite Hlin; eapply next_periods_NoDup; exact Hps |].
  split; [lia | exact Hl].
Qed.

Lemma run_models_aligned_witness :
  exists lin sar ens,
    run_models reference rising_series 4 = Ok (lin, sar, ens)
    /\ periods_of sar = periods_of lin
    /\ periods_of ens = periods_of lin
    /\ NoDup (periods_of lin)
    /\ length sar = length lin
    /\ Z.of_nat (length lin) = 4.
Proof.
  destruct (run_models reference rising_series 4) as [[[lin sar] ens] |]
    eqn:E; [| vm_compute in E; discriminate].
  exists lin, sar, ens. split; [reflexivity |].
  apply (run_models_aligned reference rising_series 4 lin sar ens E).
Defined.

Lemma sarima_try_rounded (L : Libraries) (ts : TimeSeries) (periods : Z)
  (fc : list ForecastPoint) :
  sarima_try L ts periods = Ok fc ->
  Forall (fun pt => rounded_point pt /\ confidence_level pt = CONFIDENCE) fc.
Proof.
  unfold sarima_try.
  destruct (sarimax L (ts_values ts) periods) as [[means ci] |];
    [| discriminate].
  destruct (_next_periods ts periods) as [ps |]; [| discriminate].
  simpl. intros H. apply traverse_Forall2 in H.
  induction H as [| [i p] pt xs ys Hxy _ IH]; constructor; [| exact IH].
  destruct (getitem means i); [| discriminate].
  destruct (getitem ci i) as [[lo hi] |]; [| discriminate].
  injection Hxy as <-.
  split; [repeat split; apply NumFacts.round2_idem | reflexivity].
Qed.

Lemma linear_forecast_rounded_conf (L : Libraries) (ts : TimeSeries) (periods : Z)
  (fc : list ForecastPoint) :
  _linear_forecast L ts periods = Ok fc ->
  Forall (fun pt => rounded_point pt /\ confidence_level pt = CONFIDENCE) fc.
Proof.
  intros H. apply linear_forecast_inv in H as (_ & _ & ps & _ & ->).
  apply Forall_map, Forall_forall. intros [i p] _.
  split; [repeat split; apply NumFacts.round2_idem | reflexivity].
Qed.

Lemma ensemble_rounded_conf (lin sar : list ForecastPoint) :
  Forall (fun pt => rounded_point pt /\ confidence_level pt = CONFIDENCE)
         lin ->
  Forall (fun pt => rounded_point pt /\ confidence_level pt = CONFIDENCE)
         (_ensemble_forecast lin sar).
Proof.
  unfold _ensemble_forecast, _ensemble_forecast_w. intros Hl. revert sar.
  induction Hl as [| l lin [_ Hc] _ IH]; intros [| s sar]; simpl;
    constructor; [| apply IH].
  split; [repeat split; apply NumFacts.round2_idem | exact Hc].
Qed.

(** X17. Every point emitted by a run of the three models carries the
    confidence level 0.95, and its predicted, lower and upper values are
    two-decimal values (unchanged by [round(_, 2)]). *)
Theorem run_models_rounded (L : Libraries) (ts : TimeSeries) (periods : Z)
  (lin sar ens : list ForecastPoint) :
  run_models L ts periods = Ok (lin, sar, ens) ->
  Forall (fun pt => rounded_point pt /\ confidence_level pt = CONFIDENCE)
         (lin ++ sar ++ ens).
Proof.
  unfold run_models.
  destruct (_linear_forecast L ts periods) as [fc |] eqn:El; [| discriminate].
  cbn [bind].
  pose proof (linear_forecast_rounded_conf L _ _ _ El) as Hlin.
  assert (Hsar : forall fs,
             (if MIN_POINTS_SARIMA <=? len ts
              then _sarima_forecast L ts periods else Ok fc) = Ok fs ->
             Forall (fun pt => rounded_point pt
                               /\ confidence_level pt = CONFIDENCE) fs).
  { intros fs. destruct (MIN_POINTS_SARIMA <=? len ts).
    - unfold _sarima_forecast.
      destruct (sarima_try L ts periods) as [ft |] eqn:Es.
      + intros [= <-]. exact (sarima_try_rounded L _ _ _ Es).
      + rewrite El. intros [= <-]. exact Hlin.
    - intros [= <-]. exact Hlin. }
  destruct (if MIN_POINTS_SARIMA <=? len ts
            then _sarima_forecast L ts periods else Ok fc) as [fs |];
    [| discriminate].
  cbn [bind]. intros [= <- <- <-].
  apply Forall_app. split; [exact Hlin |].
  apply Forall_app. split; [exact (Hsar fs eq_refl) |].
  apply ensemble_rounded_conf, Hlin.
Qed.

Lemma run_models_rounded_witness :
  exists lin sar ens,
    run_models reference falling_series 2 = Ok (lin, sar, ens)
    /\ Forall (fun pt => rounded_point pt
                         /\ confidence_level pt = CONFIDENCE)
              (lin ++ sar ++ ens).
Proof.
  destruct (run_models reference falling_series 2) as [[[lin sar] ens] |]
    eqn:E; [| vm_compute in E; discriminate].
  exists lin, sar, ens. split; [reflexivity |].
  apply (run_models_rounded reference falling_series 2 lin sar ens E).
Defined.

Lemma traverse_total {A B : Type} (f : A -> result B) (xs : list A) :
  (forall x, In x xs -> exists y, f x = Ok y) ->
  exists ys, traverse f xs = Ok ys.
Proof.
  induction xs as [| x xs IH]; intros H; simpl; [eauto |].
  destruct (H x (or_introl eq_refl)) as [y ->].
  destruct IH as [ys ->]; [intros z Hz; apply H; simpl; auto |].
  simpl. eauto.
Qed.

Lemma Forall2_nth_error {A B : Type} (R : A -> B -> Prop) (xs : list A)
  (ys : list B) :
  Forall2 R xs ys ->
  forall i x, nth_error xs i = Some x ->
              exists y, nth_error ys i = Some y /\ R x y.
Proof.
  induction 1 as [| x0 y0 xs ys Hxy _ IH]; intros i x Hi.
  - destruct i; discriminate.
  - destruct i as [| i]; simpl in *.
    + injection Hi as <-. eauto.
    + apply IH, Hi.
Qed.

Lemma getitem_nth {A : Type} (xs : list A) (i : nat) :
  getitem xs (Z.of_nat i) = nth_error xs i.
Proof.
  unfold getitem.
  replace (Z.of_nat i <? 0) with false by (symmetry; apply Z.ltb_ge; lia).
  rewrite Nat2Z.id. reflexivity.
Qed.

(** X18. When the seasonal fit returns means and bounds for at least the
    requested number of quarters, the seasonal model returns its own
    forecast (no fallback): one point per future period, with the mean
    and the lower bound clamped at 0, all three values rounded to two
    decimals, and the confidence level 0.95. *)
Theorem sarima_forecast_native (L : Libraries) (ts : TimeSeries) (periods : Z)
  (means : list Q) (ci : list (Q * Q)) :
  ts <> [] ->
  sarimax L (ts_values ts) periods = Some (means, ci) ->
  periods <= Z.of_nat (length means) ->
  periods <= Z.of_nat (length ci) ->
  exists ps fc,
    _next_periods ts periods = Ok ps
    /\ _sarima_forecast L ts periods = Ok fc
    /\ length fc = length ps
    /\ forall i p, nth_error ps i = Some p ->
         exists m lo hi,
           nth_error means i = Some m
           /\ nth_error ci i = Some (lo, hi)
           /\ nth_error fc i
              = Some {| year := Period.year p;
                        quarter := Period.quarter p;
                        predicted_price_m2 := round2 (py_max 0 m);
                        lower_bound := round2 (py_max 0 lo);
                        upper_bound := round2 hi;
                        confidence_level := CONFIDENCE |}.
Proof.
  intros Hts Hsx Hm Hc.
  destruct (next_periods_nonempty ts periods Hts) as [ps Hps].
  pose proof (next_periods_length _ _ _ Hps) as Hlen.
  set (body := fun ip : Z * Period.t =>
                 let (i, p) := ip in
                 match getitem means i, getitem ci i with
                 | Some m, Some (lo, hi) =>
                     Ok {| year := Period.year p;
                           quarter := Period.quarter p;
                           predicted_price_m2 := round2 (py_max 0 m);
                           lower_bound := round2 (py_max 0 lo);
                           upper_bound := round2 hi;
                           confidence_level := CONFIDENCE |}
                 | _, _ => Raise IndexError
                 end).
  assert (Hin : forall i p, nth_error ps i = Some p ->
                  exists m lo hi,
                    nth_error means i = Some m
                    /\ nth_error ci i = Some (lo, hi)).
  { intros i p Hi.
    assert (i < length ps)%nat by (apply nth_error_Some; congruence).
    destruct (nth_error means i) as [m |] eqn:Em;
      [| apply nth_error_None in Em; lia].
    destruct (nth_error ci i) as [[lo hi] |] eqn:Ec;
      [| apply nth_error_None in Ec; lia].
    eauto. }
  destruct (traverse_total body (enumerate ps)) as [fc Hfc].
  { intros [i p] Hx. apply In_nth_error in Hx as [n Hn].
    assert (Hn' : (n < length (enumerate ps))%nat)
      by (apply nth_error_Some; congruence).
    rewrite enumerate_length in Hn'.
    destruct (nth_error ps n) as [p' |] eqn:Ep;
      [| apply nth_error_None in Ep; lia].
    rewrite (nth_error_enumerate ps n p' Ep) in Hn. injection Hn as <- <-.
    destruct (Hin n p' Ep) as (m & lo & hi & Em & Ec).
    unfold body. rewrite !getitem_nth, Em, Ec. eauto. }
  assert (Htry : sarima_try L ts periods = Ok fc).
  { unfold sarima_try. rewrite Hsx, Hps. cbn [bind]. exact Hfc. }
  exists ps, fc. split; [exact Hps |].
  split; [unfold _sarima_forecast; rewrite Htry; reflexivity |].
  apply traverse_Forall2 in Hfc.
  split.
  - rewrite <- (Forall2_length Hfc). apply enumerate_length.
  - intros i p Hi. destruct (Hin i p Hi) as (m & lo & hi & Em & Ec).
    exists m, lo, hi. split; [exact Em |]. split; [exact Ec |].
    destruct (Forall2_nth_error _ _ _ Hfc i _ (nth_error_enumerate ps i p Hi))
      as (pt & Hpt & Hbody).
    rewrite Hpt. unfold body in Hbody. rewrite !getitem_nth, Em, Ec in Hbody.
    injection Hbody as <-. reflexivity.
Qed.

(** A stand-in for a seasonal fit that returns: it repeats the last
    observed value, with bounds 100 below and above. *)
Definition sarimax_naive (y : list Q) (steps : Z)
  : option (list Q * list (Q * Q)) :=
  let m := last y 0%Q in
  Some (repeat m (Z.to_nat steps),
        repeat ((m - inject_Z 100)%Q, (m + inject_Z 100)%Q) (Z.to_nat steps)).

Definition reference_seasonal : Libraries :=
  {| lr_predict := Reference.lr_predict;
     np_std := Reference.np_std;
     np_std_nonneg := reference_np_std_nonneg;
     sarimax := sarimax_naive |}.

Lemma sarima_forecast_native_witness :
  exists ps fc,
    _next_periods long_series 2 = Ok ps
    /\ _sarima_forecast reference_seasonal long_series 2 = Ok fc
    /\ length fc = length ps
    /\ forall i p, nth_error ps i = Some p ->
         exists m lo hi,
           nth_error (repeat (inject_Z 3550) 2) i = Some m
           /\ nth_error (repeat (inject_Z 3450, inject_Z 3650) 2) i
              = Some (lo, hi)
           /\ nth_error fc i
              = Some {| year := Period.year p;
                        quarter := Period.quarter p;
                        predicted_price_m2 := round2 (py_max 0 m);
                        lower_bound := round2 (py_max 0 lo);
                        upper_bound := round2 hi;
                        confidence_level := CONFIDENCE |}.
Proof.
  apply (sarima_forecast_native reference_seasonal long_series 2
           (repeat (inject_Z 3550) 2)
           (repeat (inject_Z 3450, inject_Z 3650) 2)).
  - discriminate.
  - vm_compute. reflexivity.
  - simpl. lia.
  - simpl. lia.
Defined.

(* ------------------------------------------------------------------ *)
(** * What a generation can raise *)

Lemma traverse_raise_inv {A B : Type} (f : A -> result B) (xs : list A)
  (e : exn) :
  traverse f xs = Raise e -> exists x, In x xs /\ f x = Raise e.
Proof.
  induction xs as [| x xs IH]; simpl; [discriminate |].
  destruct (f x) as [y |] eqn:Ef; cbn [bind].
  - destruct (traverse f xs) as [ys |]; cbn [bind]; [discriminate |].
    intros [= <-]. destruct (IH eq_refl) as (z & Hz & Hfz).
    exists z. simpl. auto.
  - intros [= <-]. exists x. simpl. auto.
Qed.

(** With [autoflush] off, nothing is flushed while a district is
    forecast: the unique constraint is checked at the commit only, and no
    step of [_forecast_district] raises [IntegrityError]. *)
Lemma load_time_series_no_integrity_error (s : Session) (district_id : Z)
  (e : exn) :
  _load_time_series s district_id = Raise e -> e <> IntegrityError.
Proof.
  rewrite load_time_series_unfold. cbv zeta.
  destruct (order_by _ (series_rows (loaded s) district_id))
    as [| r0 rows]; [discriminate |].
  destruct (traverse row_period (r0 :: rows)) as [idx |] eqn:E;
    [discriminate |].
  cbn [bind]. intros [= <-].
  apply traverse_raise_inv in E as (r & _ & Hf).
  unfold row_period, Period.make in Hf.
  destruct ((1 <=? SalePrice.quarter r) && (SalePrice.quarter r <=? 4));
    [discriminate |].
  injection Hf as <-. discriminate.
Qed.

Section RaiseFacts.

Variable L : Libraries.

Lemma linear_forecast_no_integrity_error (ts : TimeSeries) (periods : Z)
  (e : exn) :
  _linear_forecast L ts periods = Raise e -> e <> IntegrityError.
Proof.
  rewrite linear_forecast_eq.
  destruct (Z.ltb_spec 0 (len ts)) as [Hn | Hn]; cbn [andb];
    [| intros [= <-]; discriminate].
  destruct (0 <? periods); [| intros [= <-]; discriminate].
  apply len_pos in Hn.
  destruct (next_periods_nonempty ts periods Hn) as [ps ->]. discriminate.
Qed.

Lemma run_models_no_integrity_error (ts : TimeSeries) (periods : Z)
  (e : exn) :
  run_models L ts periods = Raise e -> e <> IntegrityError.
Proof.
  unfold run_models.
  destruct (_linear_forecast L ts periods) as [lin |] eqn:El; cbn [bind].
  - destruct (MIN_POINTS_SARIMA <=? len ts); [| discriminate].
    unfold _sarima_forecast.
    destruct (sarima_try L ts periods); [discriminate |].
    rewrite El. discriminate.
  - intros [= <-]. eapply linear_forecast_no_integrity_error. exact El.
Qed.

Lemma forecast_district_no_integrity_error (s : Session)
  (district : District.t) (periods now : Z) (e : exn) :
  _forecast_district L s district periods now = Raise e ->
  e <> IntegrityError.
Proof.
  unfold _forecast_district.
  destruct (_load_time_series s (District.id district)) as [ts |] eqn:Hts;
    cbn [bind].
  - destruct (len ts <? 4); [discriminate |].
    destruct (run_models L ts periods) as [[[lin sar] ens] |] eqn:Hrun;
      cbn [bind].
    + destruct (save_models s district _ now []). discriminate.
    + intros [= <-]. eapply run_models_no_integrity_error. exact Hrun.
  - intros [= <-]. eapply load_time_series_no_integrity_error. exact Hts.
Qed.

End RaiseFacts.

(** A returning [_forecast_district] keeps the session acceptable to the
    unique constraint, provided no row of the district was waiting. *)
Lemma forecast_district_keeps_fresh (L : Libraries) (s s' : Session)
  (district : District.t) (periods now : Z) (rows : list ForecastRow) :
  fresh s ->
  (forall k, In k (map PriceForecast.key (pending s)) ->
             key_district k <> District.id district) ->
  _forecast_district L s district periods now = Ok (rows, s') ->
  fresh s'
  /\ forall k, In k (map PriceForecast.key (pending s')) ->
               In k (map PriceForecast.key (pending s))
               \/ key_district k = District.id district.
Proof.
  intros Hfr Hpend H.
  destruct (_load_time_series s (District.id district)) as [ts |] eqn:Hts;
    [| unfold _forecast_district in H; rewrite Hts in H; discriminate].
  destruct (Z.lt_ge_cases (len ts) 4) as [Hlt | Hge].
  - rewrite (forecast_district_short L _ _ _ _ ts Hts Hlt) in H.
    injection H as _ <-. auto.
  - destruct (run_models L ts periods) as [[[lin sar] ens] |] eqn:Hrun.
    + rewrite (forecast_district_run L _ _ _ _ ts lin sar ens Hts Hge Hrun)
        in H.
      assert (Hs' : fst (save_models s district
                           [("linear"%string, lin); ("sarima"%string, sar);
                            ("ensemble"%string, ens)] now []) = s')
        by congruence.
      rewrite <- Hs'. clear H Hs'.
      destruct (run_models_periods_of L _ _ _ _ _ Hrun)
        as (ps & Hps & Hlin & Hsar & Hens).
      pose proof (next_periods_NoDup _ _ _ Hps) as Hnd.
      split; [| intros k Hk; eapply save_models_pending_district; exact Hk].
      apply save_models_fresh; [exact Hfr | | |].
      * repeat constructor; simpl; intuition discriminate.
      * intros m fc [[= <- <-] | [[= <- <-] | [[= <- <-] | []]]];
          congruence.
      * intros m fc r _ _ Hin. exact (Hpend _ Hin eq_refl).
    + unfold _forecast_district in H. rewrite Hts in H. cbn [bind] in H.
      replace (len ts <? 4) with false in H
        by (symmetry; apply Z.ltb_ge; lia).
      rewrite Hrun in H. discriminate.
Qed.

Lemma forecast_each_keeps_fresh (L : Libraries) (periods now : Z)
  (ds : list District.t) (s s' : Session)
  (results results' : list (string * list ForecastRow)) :
  fresh s ->
  NoDup (map District.id ds) ->
  (forall k, In k (map PriceForecast.key (pending s)) ->
             ~ In (key_district k) (map District.id ds)) ->
  forecast_each L s ds periods now results = Ok (results', s') ->
  fresh s'.
Proof.
  revert s results.
  induction ds as [| d ds IH]; intros s results Hfr Hids Hpend; simpl.
  - intros [= _ <-]. exact Hfr.
  - apply NoDup_cons_iff in Hids as [Hid Hids].
    destruct (_forecast_district L s d periods now) as [[rows s1] |] eqn:Hfd;
      [| discriminate].
    cbn [bind].
    destruct (forecast_district_keeps_fresh L s s1 d periods now rows Hfr)
      as [Hfr1 Hpend1]; [| exact Hfd |].
    { intros k Hk E. apply (Hpend k Hk). simpl. auto. }
    apply IH; [exact Hfr1 | exact Hids |].
    intros k Hk Hin. apply Hpend1 in Hk as [Hk | Hk].
    + apply (Hpend k Hk). simpl. auto.
    + apply Hid. rewrite <- Hk. exact Hin.
Qed.

Lemma forecast_each_raise_inv (L : Libraries) (periods now : Z)
  (ds : list District.t) (s : Session)
  (results : list (string * list ForecastRow)) (e : exn) :
  forecast_each L s ds periods now results = Raise e ->
  exists d s0,
    In d ds
    /\ sale_prices (loaded s0) = sale_prices (loaded s)
    /\ _forecast_district L s0 d periods now = Raise e.
Proof.
  revert s results. induction ds as [| d ds IH]; intros s results; simpl;
    [discriminate |].
  destruct (_forecast_district L s d periods now) as [[rows s1] |] eqn:Hfd;
    cbn [bind].
  - intros H. destruct (IH _ _ H) as (x & s0 & Hx & Hsp & Hr).
    exists x, s0. split; [auto |]. split; [| exact Hr].
    destruct (forecast_district_same_tables L _ _ _ _ _ _ Hfd)
      as (_ & Hsp1 & _).
    congruence.
  - intros [= <-]. exists d, s. auto.
Qed.

Lemma series_rows_ext (db db' : Database) (district_id : Z) :
  sale_prices db' = sale_prices db ->
  series_rows db' district_id = series_rows db district_id.
Proof. unfold series_rows. intros ->. reflexivity. Qed.

(** X19. On a table with at most one row per key, [forecast_district]
    never fails at the commit: what a generation has saved is never
    rejected by the unique constraint.  A call raises only when
    forecasting the district itself raises (while loading the series or
    running the models, for a known district): the exception is then that
    one, never [IntegrityError], and the database is left as it was.  And
    whenever forecasting the district returns, the call returns its rows. *)
Theorem forecast_district_commit_accepted (L : Libraries)
  (district_code : string) (periods now : Z) (db : Database) :
  unique_keys (price_forecasts db) ->
  (forall e db',
     forecast_district L district_code periods now db = (Raise e, db') ->
     e <> IntegrityError
     /\ db' = db
     /\ exists district,
          first (filter (fun d => String.eqb (District.code d) district_code)
                        (districts db)) = Some district
          /\ _forecast_district L (begin db) district periods now = Raise e)
  /\ (forall district rows s,
        first (filter (fun d => String.eqb (District.code d) district_code)
                      (districts db)) = Some district ->
        _forecast_district L (begin db) district periods now = Ok (rows, s) ->
        exists db',
          forecast_district L district_code periods now db = (Ok rows, db')
          /\ unique_keys (price_forecasts db')).
Proof.
  intros Hu. split.
  - unfold forecast_district, db_session. cbn [begin loaded].
    destruct (first (filter _ (districts db))) as [d |] eqn:Hd;
      fold (begin db).
    + destruct (_forecast_district L (begin db) d periods now)
        as [[rows s'] | e0] eqn:Hfd.
      * pose proof (forecast_district_fresh L (begin db) s' d periods now
                      rows Hu eq_refl Hfd) as Hfr.
        rewrite (commit_fresh now s' Hfr). discriminate.
      * intros e db' [= <- <-].
        split; [exact (forecast_district_no_integrity_error L _ _ _ _ _ Hfd) |].
        split; [reflexivity |]. exists d. auto.
    + rewrite commit_begin. discriminate.
  - intros d rows s Hd Hfd.
    destruct (forecast_district_commits L district_code periods now db d rows
                s Hu Hd Hfd) as (db' & Hcall & _).
    exists db'. split; [exact Hcall |].
    pose proof (generate_unique L (ForecastDistrict district_code periods now)
                  db Hu) as H.
    simpl in H. rewrite Hcall in H. exact H.
Qed.

Lemma forecast_district_commit_accepted_witness :
  ValueError <> IntegrityError
  /\ sample_db = sample_db
  /\ exists district,
       first (filter (fun d => String.eqb (District.code d) "01")
                     (districts sample_db)) = Some district
       /\ _forecast_district reference (begin sample_db) district 0 100
          = Raise ValueError.
Proof.
  assert (Hu : unique_keys (price_forecasts sample_db)) by constructor.
  destruct (forecast_district_commit_accepted reference "01" 0 100 sample_db
              Hu) as [H _].
  apply (H ValueError sample_db). vm_compute. reflexivity.
Defined.

(** X20. When the districts have distinct ids and the table at most one
    row per key, [forecast_all_districts] never fails at the commit
    either.  A call raises only when forecasting some district raises:
    the exception is then that one, never [IntegrityError], and the
    database is left as it was.  And whenever the loop over the districts
    returns, the call returns its results. *)
Theorem forecast_all_districts_commit_accepted (L : Libraries)
  (periods now : Z) (db : Database) :
  unique_keys (price_forecasts db) ->
  NoDup (map District.id (districts db)) ->
  (forall e db',
     forecast_all_districts L periods now db = (Raise e, db') ->
     e <> IntegrityError
     /\ db' = db
     /\ exists district,
          In district (districts db)
          /\ _forecast_district L (begin db) district periods now = Raise e)
  /\ (forall results s,
        forecast_each L (begin db) (districts db) periods now []
        = Ok (results, s) ->
        exists db',
          forecast_all_districts L periods now db = (Ok results, db')
          /\ unique_keys (price_forecasts db')).
Proof.
  intros Hu Hids.
  assert (Hok : forall results s,
             forecast_each L (begin db) (districts db) periods now []
             = Ok (results, s) ->
             fresh s).
  { intros results s Heach.
    eapply (forecast_each_keeps_fresh L periods now (districts db)
              (begin db)); [apply fresh_begin, Hu | exact Hids | |
                             exact Heach].
    intros k []. }
  split.
  - unfold forecast_all_districts, db_session. cbn [begin loaded].
    fold (begin db).
    destruct (forecast_each L (begin db) (districts db) periods now [])
      as [[results s'] | e0] eqn:Heach.
    + rewrite (commit_fresh now s' (Hok results s' eq_refl)). discriminate.
    + intros e db' [= <- <-].
      apply forecast_each_raise_inv in Heach as (d & s0 & Hd & Hsp & Hr).
      split; [exact (forecast_district_no_integrity_error L _ _ _ _ _ Hr) |].
      split; [reflexivity |]. exists d. split; [exact Hd |].
      apply (forecast_district_raise_ext L s0); [| exact Hr].
      symmetry. exact Hsp.
  - intros results s Heach.
    pose proof (Hok results s Heach) as Hfr.
    eexists. split.
    + unfold forecast_all_districts, db_session. cbn [begin loaded].
      fold (begin db). rewrite Heach, (commit_fresh now s Hfr). reflexivity.
    + cbn [price_forecasts]. unfold fresh in Hfr. unfold unique_keys.
      rewrite map_app, map_map.
      rewrite (map_ext _ PriceForecast.key (stamp_key now)). exact Hfr.
Qed.

Lemma forecast_all_districts_commit_accepted_witness :
  ValueError <> IntegrityError
  /\ bad_quarter_db = bad_quarter_db
  /\ exists district,
       In district (districts bad_quarter_db)
       /\ _forecast_district reference (begin bad_quarter_db) district 2 100
          = Raise ValueError.
Proof.
  assert (Hu : unique_keys (price_forecasts bad_quarter_db)) by constructor.
  assert (Hids : NoDup (map District.id (districts bad_quarter_db)))
    by (repeat constructor; simpl; intuition discriminate).
  destruct (forecast_all_districts_commit_accepted reference 2 100
              bad_quarter_db Hu Hids) as [H _].
  apply (H ValueError bad_quarter_db). vm_compute. reflexivity.
Defined.

(* ------------------------------------------------------------------ *)
(** * Regenerating with unchanged data *)

(** Everything in a stored row but its timestamp. *)
Definition fields (f : PriceForecast.t)
  : Z * string * Z * Z * Q * Q * Q * Q :=
  (PriceForecast.key f, PriceForecast.predicted_price_m2 f,
   PriceForecast.lower_bound f, PriceForecast.upper_bound f,
   PriceForecast.confidence_level f).

Lemma fields_key (table table' : list PriceForecast.t) :
  map fields table' = map fields table ->
  map PriceForecast.key table' = map PriceForecast.key table.
Proof.
  intros H.
  assert (E : forall l, map PriceForecast.key l
                        = map (fun x => fst (fst (fst (fst x))))
                              (map fields l))
    by (intros l; rewrite map_map; reflexivity).
  rewrite !E, H. reflexivity.
Qed.

Lemma fields_carries (table table' : list PriceForecast.t)
  (district_id : Z) (model_name : string) (row : ForecastPoint) :
  map fields table' = map fields table ->
  (exists f, In f table /\ carries f district_id model_name row) ->
  exists f, In f table' /\ carries f district_id model_name row.
Proof.
  intros H (f & Hf & Hk & Hp & Hl & Hu).
  assert (Hin : In (fields f) (map fields table')).
  { rewrite H. apply in_map, Hf. }
  apply in_map_iff in Hin as (g & Hg & Hgin).
  exists g. split; [exact Hgin |].
  pose proof (f_equal (fun x => fst (fst (fst (fst x)))) Hg) as Hk'.
  pose proof (f_equal (fun x => snd (fst (fst (fst x)))) Hg) as Hp'.
  pose proof (f_equal (fun x => snd (fst (fst x))) Hg) as Hl'.
  pose proof (f_equal (fun x => snd (fst x)) Hg) as Hu'.
  unfold fields in Hk', Hp', Hl', Hu'. cbn [fst snd] in Hk', Hp', Hl', Hu'.
  unfold carries. repeat split; congruence.
Qed.

Lemma overwrite_first_fields (district_id : Z) (model_name : string)
  (row : ForecastPoint) (now : Z) (table : list PriceForecast.t) :
  (forall g, In g table -> matches district_id model_name row g = true ->
             carries g district_id model_name row) ->
  map fields (overwrite_first district_id model_name row now table)
  = map fields table.
Proof.
  induction table as [| f table IH]; intros H; simpl; [reflexivity |].
  destruct (matches district_id model_name row f) eqn:Em; simpl.
  - f_equal. destruct (H f (or_introl eq_refl) Em) as (_ & Hp & Hl & Hu).
    unfold fields. rewrite assign_key. cbn. congruence.
  - f_equal. apply IH. intros g Hg. apply H. simpl. auto.
Qed.

(** Saving a point that is already stored with the same values changes
    nothing but the timestamp of its row. *)
Lemma save_forecast_same_fields (s : Session) (district_id : Z)
  (model_name : string) (row : ForecastPoint) (now : Z) :
  unique_keys (forecasts s) ->
  (exists f, In f (forecasts s) /\ carries f district_id model_name row) ->
  let s' := _save_forecast s district_id model_name row now in
  pending s' = pending s
  /\ map fields (forecasts s') = map fields (forecasts s).
Proof.
  intros Hu (f & Hf & Hc). unfold _save_forecast, forecasts in *.
  assert (Hm : matches district_id model_name row f = true)
    by (apply matches_key; apply Hc).
  destruct (first_filter_Some _ _ f Hf Hm) as [y ->]. simpl.
  split; [reflexivity |].
  apply overwrite_first_fields. intros g Hg Hgm.
  assert (g = f); [| subst g; exact Hc].
  apply (unique_keys_inj (price_forecasts (loaded s))); try assumption.
  apply matches_key in Hgm. destruct Hc as [Hk _]. unfold row_key in Hk.
  congruence.
Qed.

Lemma save_rows_same_fields (district : District.t) (model_name : string)
  (now : Z) (fc : list ForecastPoint) (s : Session)
  (all_rows : list ForecastRow) :
  unique_keys (forecasts s) ->
  (forall r, In r fc ->
     exists f, In f (forecasts s)
               /\ carries f (District.id district) model_name r) ->
  let s' := fst (save_rows s district model_name fc now all_rows) in
  pending s' = pending s
  /\ map fields (forecasts s') = map fields (forecasts s).
Proof.
  revert s all_rows.
  induction fc as [| row fc IH]; intros s all_rows Hu Hall; simpl; [auto |].
  destruct (save_forecast_same_fields s (District.id district) model_name
              row now Hu (Hall row (or_introl eq_refl))) as [Hp Hf].
  destruct (IH (_save_forecast s (District.id district) model_name row now)
              (all_rows ++ [mkRow row model_name (District.code district)]))
    as [Hp' Hf'].
  - unfold unique_keys. rewrite (fields_key _ _ Hf). exact Hu.
  - intros r Hr. apply (fields_carries (forecasts s)); [exact Hf |].
    apply Hall. simpl. auto.
  - split; congruence.
Qed.

Lemma save_models_same_fields (district : District.t) (now : Z)
  (models : list (string * list ForecastPoint)) (s : Session)
  (all_rows : list ForecastRow) :
  unique_keys (forecasts s) ->
  (forall m fc r, In (m, fc) models -> In r fc ->
     exists f, In f (forecasts s) /\ carries f (District.id district) m r) ->
  let s' := fst (save_models s district models now all_rows) in
  pending s' = pending s
  /\ map fields (forecasts s') = map fields (forecasts s).
Proof.
  revert s all_rows.
  induction models as [| [m fc] models IH]; intros s all_rows Hu Hall; simpl;
    [auto |].
  pose proof (save_rows_same_fields district m now fc s all_rows Hu
                (fun r Hr => Hall m fc r (or_introl eq_refl) Hr)) as H1.
  destruct (save_rows s district m fc now all_rows) as [s1 rows1].
  cbn [fst] in H1. destruct H1 as [Hp Hf].
  destruct (IH s1 rows1) as [Hp' Hf'].
  - unfold unique_keys. rewrite (fields_key _ _ Hf). exact Hu.
  - intros m' fc' r Hin Hr. apply (fields_carries (forecasts s)); [exact Hf |].
    apply (Hall m' fc' r); simpl; auto.
  - split; congruence.
Qed.

(** X21. Regenerating is idempotent: when [forecast_district] has returned
    rows and is called again for the same district and horizon on the
    resulting database, it returns the same rows, inserts nothing, and
    leaves every stored row as it is except for its timestamp. *)
Theorem forecast_district_idempotent (L : Libraries) (district_code : string)
  (periods now now' : Z) (db db1 : Database) (rows : list ForecastRow) :
  unique_keys (price_forecasts db) ->
  forecast_district L district_code periods now db = (Ok rows, db1) ->
  exists db2,
    forecast_district L district_code periods now' db1 = (Ok rows, db2)
    /\ districts db2 = districts db1
    /\ sale_prices db2 = sale_prices db1
    /\ map fields (price_forecasts db2) = map fields (price_forecasts db1).
Proof.
  intros Hu Hfd.
  assert (Hu1 : unique_keys (price_forecasts db1)).
  { pose proof (generate_unique L (ForecastDistrict district_code periods now)
                  db Hu) as H.
    simpl in H. rewrite Hfd in H. exact H. }
  apply forecast_district_inv in Hfd
    as [(Hd & -> & ->) | (d & s1 & Hd & Hfd & Hcommit)].
  { exists db. split; [| auto].
    unfold forecast_district, db_session. cbn [begin loaded]. rewrite Hd.
    fold (begin db). rewrite commit_begin. reflexivity. }
  destruct (forecast_district_same_tables L _ _ _ _ _ _ Hfd)
    as (Hds & Hsp & _).
  destruct (commit_tables now s1 db1 Hcommit) as [Hds1 Hsp1].
  assert (Hd1 : first (filter (fun d => String.eqb (District.code d)
                                                   district_code)
                              (districts db1)) = Some d).
  { rewrite Hds1, Hds. exact Hd. }
  assert (Hload : _load_time_series (begin db1) (District.id d)
                  = _load_time_series (begin db) (District.id d)).
  { apply load_time_series_ext. cbn [begin loaded] in *. congruence. }
  destruct (_load_time_series (begin db) (District.id d)) as [ts |] eqn:Hts;
    [| unfold _forecast_district in Hfd; rewrite Hts in Hfd; discriminate].
  destruct (Z.lt_ge_cases (len ts) 4) as [Hlt | Hge].
  { rewrite (forecast_district_short L _ _ _ _ ts Hts Hlt) in Hfd.
    assert (rows = [] /\ s1 = begin db) as [-> ->] by (split; congruence).
    rewrite commit_begin in Hcommit. injection Hcommit as <-.
    exists db. split; [| auto].
    unfold forecast_district, db_session. cbn [begin loaded]. rewrite Hd.
    fold (begin db).
    rewrite (forecast_district_short L _ _ _ _ ts Hts Hlt), commit_begin.
    reflexivity. }
  destruct (run_models L ts periods) as [[[lin sar] ens] |] eqn:Hrun.
  2:{ unfold _forecast_district in Hfd. rewrite Hts in Hfd.
      cbn [bind] in Hfd.
      replace (len ts <? 4) with false in Hfd
        by (symmetry; apply Z.ltb_ge; lia).
      rewrite Hrun in Hfd. discriminate. }
  set (models := [("linear"%string, lin); ("sarima"%string, sar);
                  ("ensemble"%string, ens)]) in *.
  rewrite (forecast_district_run L _ _ _ _ ts lin sar ens Hts Hge Hrun)
    in Hfd.
  fold models in Hfd.
  assert (Hrows : rows = map (tag "ensemble" d) ens) by congruence.
  assert (Hs1 : fst (save_models (begin db) d models now []) = s1)
    by congruence.
  clear Hfd.
  assert (Hstored : forall m fc r, In (m, fc) models -> In r fc ->
             exists f, In f (forecasts (begin db1))
                       /\ carries f (District.id d) m r).
  { intros m fc r Hin Hr.
    destruct (run_models_periods_of L _ _ _ _ _ Hrun)
      as (ps & Hps & Hlin & Hsar & Hens).
    pose proof (next_periods_NoDup _ _ _ Hps) as Hnd.
    assert (Hrec : recorded s1 (District.id d) m r now).
    { rewrite <- Hs1. apply (save_models_recorded d now models (begin db) [])
        with (fc := fc); try assumption.
      - repeat constructor; simpl; intuition discriminate.
      - intros m' fc' [[= <- <-] | [[= <- <-] | [[= <- <-] | []]]];
          congruence. }
    destruct (commit_recorded now s1 db1 _ _ _ Hcommit Hrec)
      as (f & Hf & Hc & _).
    exists f. auto. }
  rewrite <- Hts in Hload.
  rewrite Hts in Hload.
  pose proof (forecast_district_run L (begin db1) d periods now' ts lin sar
                ens Hload Hge Hrun) as Hfd2.
  fold models in Hfd2.
  destruct (save_models_same_fields d now' models (begin db1) [] Hu1 Hstored)
    as [Hp2 Hf2].
  set (s2 := fst (save_models (begin db1) d models now' [])) in *.
  assert (Hc2 : commit now' s2
                = Ok {| districts := districts (loaded s2);
                        sale_prices := sale_prices (loaded s2);
                        price_forecasts := forecasts s2 |}).
  { unfold commit. rewrite Hp2. reflexivity. }
  destruct (save_models_same_tables models (begin db1) d now' [])
    as (Hds2 & Hsp2 & _).
  fold s2 in Hds2, Hsp2.
  eexists. split; [| split; [| split]].
  - unfold forecast_district, db_session. cbn [begin loaded]. rewrite Hd1.
    fold (begin db1). rewrite Hfd2, Hc2, Hrows. reflexivity.
  - exact Hds2.
  - exact Hsp2.
  - exact Hf2.
Qed.

Lemma forecast_district_idempotent_witness :
  exists db2,
    forecast_district reference "01" 2 200 stored_db
    = (Ok [mkRow (mkPoint 2024 1 (inject_Z 3700) (inject_Z 3700)
                    (inject_Z 3700) CONFIDENCE) "ensemble" "01";
           mkRow (mkPoint 2024 2 (inject_Z 3750) (inject_Z 3750)
                    (inject_Z 3750) CONFIDENCE) "ensemble" "01"], db2)
    /\ districts db2 = districts stored_db
    /\ sale_prices db2 = sale_prices stored_db
    /\ map fields (price_forecasts db2)
       = map fields (price_forecasts stored_db).
Proof.
  apply (forecast_district_idempotent reference "01" 2 100 200 sample_db
           stored_db).
  - constructor.
  - vm_compute. reflexivity.
Defined.

(* ------------------------------------------------------------------ *)
(** * Rows added within one session *)

(** X22. [_save_forecast] looks for an existing row with a query, and the
    session does not flush before queries: a point saved under a key that
    is not stored yet is not seen by a second save under the same key in
    the same session.  Both are queued as inserts, the commit is rejected
    by the unique constraint, and the session leaves the database as it
    was. *)
Theorem save_forecast_twice_rejected (district_id : Z) (model_name : string)
  (row row' : ForecastPoint) (now : Z) (db : Database) :
  (forall f, In f (price_forecasts db) ->
             PriceForecast.key f <> row_key district_id model_name row) ->
  year row' = year row ->
  quarter row' = quarter row ->
  let body := fun s =>
    Ok (tt, _save_forecast
              (_save_forecast s district_id model_name row now)
              district_id model_name row' now) in
  length (pending (_save_forecast
                     (_save_forecast (begin db) district_id model_name row
                        now)
                     district_id model_name row' now)) = 2%nat
  /\ db_session now body db = (Raise IntegrityError, db).
Proof.
  intros Hnew Hy Hq body.
  assert (Hnone : forall r, year r = year row -> quarter r = quarter row ->
             first (filter (matches district_id model_name r)
                           (price_forecasts db)) = None).
  { intros r Hry Hrq.
    destruct (first (filter (matches district_id model_name r)
                            (price_forecasts db))) as [y |] eqn:E;
      [| reflexivity].
    apply first_filter_In in E as [Hin Hm]. apply matches_key in Hm.
    exfalso. apply (Hnew y Hin). unfold row_key. congruence. }
  assert (Hs : _save_forecast
                 (_save_forecast (begin db) district_id model_name row now)
                 district_id model_name row' now
               = {| loaded := db;
                    pending :=
                      [PriceForecast.mk district_id model_name (year row)
                         (quarter row) (predicted_price_m2 row)
                         (lower_bound row) (upper_bound row)
                         (confidence_level row) None;
                       PriceForecast.mk district_id model_name (year row')
                         (quarter row') (predicted_price_m2 row')
                         (lower_bound row') (upper_bound row')
                         (confidence_level row') None] |}).
  { unfold _save_forecast at 2. cbn [begin loaded pending].
    rewrite (Hnone row eq_refl eq_refl). cbn [app].
    unfold _save_forecast. cbn [loaded pending].
    rewrite (Hnone row' Hy Hq). reflexivity. }
  split; [rewrite Hs; reflexivity |].
  unfold db_session, body. rewrite Hs. unfold commit. cbn [loaded pending].
  cbn [flush]. unfold insert_forecast at 1.
  replace (existsb _ (price_forecasts db)) with false.
  2:{ symmetry. apply not_true_is_false. intros E.
      apply existsb_exists in E as (g & Hg & Hk). apply key_eqb_eq in Hk.
      exact (Hnew g Hg Hk). }
  cbn [bind]. unfold insert_forecast.
  replace (existsb _ (price_forecasts db ++ _)) with true; [reflexivity |].
  symmetry. apply existsb_exists. eexists.
  split; [apply in_or_app; right; left; reflexivity |].
  apply key_eqb_eq. rewrite stamp_key. unfold PriceForecast.key. cbn.
  congruence.
Qed.

Lemma save_forecast_twice_rejected_witness :
  let row := mkPoint 2024 1 (inject_Z 3700) (inject_Z 3690) (inject_Z 3710)
               CONFIDENCE in
  let body := fun s =>
    Ok (tt, _save_forecast (_save_forecast s 1 "ensemble" row 100)
              1 "ensemble" row 100) in
  length (pending (_save_forecast
                     (_save_forecast (begin sample_db) 1 "ensemble" row 100)
                     1 "ensemble" row 100)) = 2%nat
  /\ db_session 100 body sample_db = (Raise IntegrityError, sample_db).
Proof.
  intros row.
  apply (save_forecast_twice_rejected 1 "ensemble" row row 100 sample_db).
  - intros f [].
  - reflexivity.
  - reflexivity.
Defined.

(* ------------------------------------------------------------------ *)
(** * Period helpers of a sale price ([app/models/housing.py]) *)

(** Python's [datetime], at midnight.  The constructor first converts
    its arguments to C [int]s, raising [OverflowError] for one that does
    not fit, and then checks the year against [MINYEAR..MAXYEAR], the
    month and the day, raising [ValueError]. *)
Module Datetime.

Record t : Type := mk { year : Z; month : Z; day : Z }.

Definition is_leap (y : Z) : bool :=
  (y mod 4 =? 0) && (negb (y mod 100 =? 0) || (y mod 400 =? 0)).

Definition days_in_month (y m : Z) : Z :=
  if m =? 2 then (if is_leap y then 29 else 28)
  else if (m =? 4) || (m =? 6) || (m =? 9) || (m =? 11) then 30
  else 31.

(** Does [n] fit a C [int]? *)
Definition c_int (n : Z) : bool := (- 2 ^ 31 <=? n) && (n <? 2 ^ 31).

Definition make (y m d : Z) : result t :=
  if negb (c_int y && c_int m && c_int d) then Raise OverflowError
  else if (1 <=? y) && (y <=? 9999) && (1 <=? m) && (m <=? 12)
          && (1 <=? d) && (d <=? days_in_month y m)
  then Ok (mk y m d)
  else Raise ValueError.

(** [a < b] on datetimes. *)
Definition lt (a b : t) : Prop :=
  year a < year b
  \/ (year a = year b
      /\ (month a < month b \/ (month a = month b /\ day a < day b))).

End Datetime.

(** [str(n)] for an [int]. *)
Definition str (n : Z) : string :=
  DecimalString.NilZero.string_of_int (Z.to_int n).

Module SalePriceProperties.

(** [period_label]: [f"{self.year} Q{self.quarter}"]. *)
Definition period_label (r : SalePrice.t) : string :=
  (str (SalePrice.year r) ++ " Q" ++ str (SalePrice.quarter r))%string.

(** [period_date]. *)
Definition period_date (r : SalePrice.t) : result Datetime.t :=
  let month := (SalePrice.quarter r - 1) * 3 + 1 in
  Datetime.make (SalePrice.year r) month 1.

End SalePriceProperties.

Import SalePriceProperties.

Lemma days_in_month_pos (y m : Z) : 28 <= Datetime.days_in_month y m.
Proof.
  unfold Datetime.days_in_month.
  destruct (m =? 2); [destruct (Datetime.is_leap y); lia |].
  destruct ((m =? 4) || (m =? 6) || (m =? 9) || (m =? 11)); lia.
Qed.

Lemma datetime_make_first (y m : Z) :
  Datetime.make y m 1
  = if negb (Datetime.c_int y && Datetime.c_int m) then Raise OverflowError
    else if (1 <=? y) && (y <=? 9999) && (1 <=? m) && (m <=? 12)
    then Ok (Datetime.mk y m 1) else Raise ValueError.
Proof.
  unfold Datetime.make.
  replace (Datetime.c_int 1) with true by reflexivity.
  rewrite andb_true_r.
  replace (1 <=? Datetime.days_in_month y m) with true
    by (symmetry; apply Z.leb_le; pose proof (days_in_month_pos y m); lia).
  change (1 <=? 1) with true. rewrite !andb_true_r. reflexivity.
Qed.

Lemma c_int_spec (n : Z) :
  Datetime.c_int n = true <-> - 2 ^ 31 <= n < 2 ^ 31.
Proof.
  unfold Datetime.c_int. rewrite andb_true_iff, Z.leb_le, Z.ltb_lt.
  reflexivity.
Qed.

(** X23. [period_date] returns the first day of the first month of the
    quarter (month 1, 4, 7 or 10) when the quarter is in 1..4 and the year
    in 1..9999.  Otherwise it raises: [OverflowError] when the year or the
    month computed from the quarter does not fit a C [int], and
    [ValueError] when they fit.  On rows where it returns, a later
    (year, quarter) gives a later date. *)
Theorem period_date_spec (r : SalePrice.t) :
  let month := (SalePrice.quarter r - 1) * 3 + 1 in
  (1 <= SalePrice.year r <= 9999 /\ 1 <= SalePrice.quarter r <= 4 ->
   period_date r
   = Ok (Datetime.mk (SalePrice.year r) (3 * SalePrice.quarter r - 2) 1)
   /\ In (3 * SalePrice.quarter r - 2) [1; 4; 7; 10])
  /\ (~ (- 2 ^ 31 <= SalePrice.year r < 2 ^ 31
         /\ - 2 ^ 31 <= month < 2 ^ 31) ->
      period_date r = Raise OverflowError)
  /\ (- 2 ^ 31 <= SalePrice.year r < 2 ^ 31 ->
      - 2 ^ 31 <= month < 2 ^ 31 ->
      ~ (1 <= SalePrice.year r <= 9999 /\ 1 <= SalePrice.quarter r <= 4) ->
      period_date r = Raise ValueError)
  /\ forall r' d d',
       period_date r = Ok d -> period_date r' = Ok d' ->
       (Datetime.lt d d' <->
        SalePrice.year r < SalePrice.year r'
        \/ (SalePrice.year r = SalePrice.year r'
            /\ SalePrice.quarter r < SalePrice.quarter r')).
Proof.
  intros month.
  assert (Hdate : forall x,
             period_date x
             = if negb (Datetime.c_int (SalePrice.year x)
                        && Datetime.c_int ((SalePrice.quarter x - 1) * 3 + 1))
               then Raise OverflowError
               else if (1 <=? SalePrice.year x) && (SalePrice.year x <=? 9999)
                       && (1 <=? SalePrice.quarter x)
                       && (SalePrice.quarter x <=? 4)
               then Ok (Datetime.mk (SalePrice.year x)
                          (3 * SalePrice.quarter x - 2) 1)
               else Raise ValueError).
  { intros x. unfold period_date. cbv zeta. rewrite datetime_make_first.
    destruct (negb _); [reflexivity |].
    replace ((SalePrice.quarter x - 1) * 3 + 1)
      with (3 * SalePrice.quarter x - 2) by lia.
    destruct (Z.leb_spec 1 (SalePrice.year x)),
             (Z.leb_spec (SalePrice.year x) 9999),
             (Z.leb_spec 1 (3 * SalePrice.quarter x - 2)),
             (Z.leb_spec (3 * SalePrice.quarter x - 2) 12),
             (Z.leb_spec 1 (SalePrice.quarter x)),
             (Z.leb_spec (SalePrice.quarter x) 4);
      cbn [andb]; try reflexivity; lia. }
  assert (Hfit : forall x,
             1 <= SalePrice.year x <= 9999 ->
             1 <= SalePrice.quarter x <= 4 ->
             Datetime.c_int (SalePrice.year x)
             && Datetime.c_int ((SalePrice.quarter x - 1) * 3 + 1) = true).
  { intros x Hy Hq. apply andb_true_iff.
    split; apply c_int_spec; change (2 ^ 31) with 2147483648; lia. }
  split; [| split; [| split]].
  - intros [Hy Hq]. rewrite Hdate, (Hfit r Hy Hq). cbn [negb].
    replace ((1 <=? SalePrice.year r) && (SalePrice.year r <=? 9999)
             && (1 <=? SalePrice.quarter r) && (SalePrice.quarter r <=? 4))
      with true
      by (symmetry; rewrite !andb_true_iff, !Z.leb_le; lia).
    split; [reflexivity |]. cbn [In]. lia.
  - intros Hbad. rewrite Hdate.
    destruct (Datetime.c_int (SalePrice.year r)
              && Datetime.c_int ((SalePrice.quarter r - 1) * 3 + 1)) eqn:E;
      [| reflexivity].
    exfalso. apply Hbad. apply andb_true_iff in E as [E1 E2].
    apply c_int_spec in E1, E2. auto.
  - intros Hy Hm Hbad. rewrite Hdate.
    replace (Datetime.c_int (SalePrice.year r)
             && Datetime.c_int ((SalePrice.quarter r - 1) * 3 + 1))
      with true
      by (symmetry; apply andb_true_iff; split; apply c_int_spec; assumption).
    cbn [negb].
    destruct (Z.leb_spec 1 (SalePrice.year r)),
             (Z.leb_spec (SalePrice.year r) 9999),
             (Z.leb_spec 1 (SalePrice.quarter r)),
             (Z.leb_spec (SalePrice.quarter r) 4);
      cbn [andb]; try reflexivity.
    exfalso. apply Hbad. lia.
  - intros r' d d'. rewrite !Hdate.
    remember (3 * SalePrice.quarter r - 2) as m eqn:Hm.
    remember (3 * SalePrice.quarter r' - 2) as m' eqn:Hm'.
    destruct (negb _); [discriminate |].
    destruct (negb _); [discriminate |].
    destruct ((1 <=? SalePrice.year r) && (SalePrice.year r <=? 9999)
              && (1 <=? SalePrice.quarter r) && (SalePrice.quarter r <=? 4));
      [| discriminate].
    destruct ((1 <=? SalePrice.year r') && (SalePrice.year r' <=? 9999)
              && (1 <=? SalePrice.quarter r')
              && (SalePrice.quarter r' <=? 4));
      [| discriminate].
    intros [= <-] [= <-]. unfold Datetime.lt.
    cbn [Datetime.year Datetime.month Datetime.day]. lia.
Qed.

Example period_date_example :
  period_date (SalePrice.mk 1 2023 4 (inject_Z 3650) "all")
  = Ok (Datetime.mk 2023 10 1)
  /\ period_date (SalePrice.mk 1 2023 5 (inject_Z 3650) "all")
     = Raise ValueError
  /\ period_date (SalePrice.mk 1 2147483648 1 (inject_Z 3650) "all")
     = Raise OverflowError.
Proof. repeat split; reflexivity. Qed.

(** The decimal digits and the sign: no space among them. *)
Fixpoint has_space (s : string) : bool :=
  match s with
  | EmptyString => false
  | String c s' => Ascii.eqb c " "%char || has_space s'
  end.

Lemma uint_no_space (d : Decimal.uint) :
  has_space (DecimalString.NilEmpty.string_of_uint d) = false.
Proof. induction d; simpl; auto. Qed.

Lemma str_no_space (n : Z) : has_space (str n) = false.
Proof.
  unfold str, DecimalString.NilZero.string_of_int,
    DecimalString.NilZero.string_of_uint.
  destruct (Z.to_int n) as [d | d]; destruct d; simpl;
    try reflexivity; apply uint_no_space.
Qed.

Lemma str_inj (a b : Z) : str a = str b -> a = b.
Proof.
  unfold str. intros H. apply DecimalZ.to_int_inj.
  assert (Hnn : forall z, Z.to_int z <> Decimal.Pos Decimal.Nil
                          /\ Z.to_int z <> Decimal.Neg Decimal.Nil).
  { intros [| p | p]; simpl; split; try discriminate;
      intros [= E]; exact (DecimalPos.Unsigned.to_uint_nonnil p E). }
  destruct (Hnn a) as [Ha1 Ha2]. destruct (Hnn b) as [Hb1 Hb2].
  pose proof (DecimalString.NilZero.isi _ Ha1 Ha2) as Ea.
  pose proof (DecimalString.NilZero.isi _ Hb1 Hb2) as Eb.
  rewrite H in Ea. congruence.
Qed.

Lemma split_at_space (s1 s2 t1 t2 : string) :
  has_space s1 = false -> has_space s2 = false ->
  (s1 ++ String " "%char t1 = s2 ++ String " "%char t2)%string ->
  s1 = s2 /\ t1 = t2.
Proof.
  revert s2. induction s1 as [| c s1 IH]; intros [| c2 s2] H1 H2 E;
    simpl in *.
  - injection E as ->. auto.
  - injection E as <- _. discriminate.
  - injection E as -> _. discriminate.
  - injection E as -> E.
    apply orb_false_iff in H1 as [_ H1]. apply orb_false_iff in H2 as [_ H2].
    destruct (IH s2 H1 H2 E) as [-> ->]. auto.
Qed.

(** X24. [period_label] identifies the period: two sale prices have the
    same label only if they have the same year and the same quarter. *)
Theorem period_label_inj (r r' : SalePrice.t) :
  period_label r = period_label r' ->
  SalePrice.year r = SalePrice.year r'
  /\ SalePrice.quarter r = SalePrice.quarter r'.
Proof.
  unfold period_label. intros H.
  change (" Q" ++ ?x)%string with (String " "%char (String "Q"%char x)) in H.
  apply split_at_space in H as [Hy Hq]; try apply str_no_space.
  injection Hq as Hq. split; apply str_inj; assumption.
Qed.

Lemma period_label_inj_witness :
  SalePrice.year (SalePrice.mk 1 2023 4 (inject_Z 3650) "all")
  = SalePrice.year (SalePrice.mk 2 2023 4 (inject_Z 2650) "new")
  /\ SalePrice.quarter (SalePrice.mk 1 2023 4 (inject_Z 3650) "all")
     = SalePrice.quarter (SalePrice.mk 2 2023 4 (inject_Z 2650) "new").
Proof.
  apply (period_label_inj (SalePrice.mk 1 2023 4 (inject_Z 3650) "all")
           (SalePrice.mk 2 2023 4 (inject_Z 2650) "new")).
  reflexivity.
Defined.

Example period_label_example :
  period_label (SalePrice.mk 1 2023 4 (inject_Z 3650) "all") = "2023 Q4"%string.
Proof. reflexivity. Qed.
